(** * wt: worktree lifecycle manager (src/index.ts and its earlier revisions)

    A shallow embedding of the TypeScript program.  The program is a
    sequence of awaited calls to the outside world (git, zellij, the file
    system, the terminal, TCP probes); it is embedded as a state monad over
    an abstract host world, with three ways of ending a computation: a
    normal return, a thrown JavaScript exception, and the end of the
    process ([process.exit], or an awaited promise that stays pending
    with nothing else to keep the process alive). *)

From Stdlib Require Import ZArith List String Ascii Bool Lia DecimalString.
Import ListNotations.

Local Open Scope string_scope.
Local Open Scope list_scope.
Local Open Scope Z_scope.

(** String concatenation, as in a template literal. *)
Notation "s1 +++ s2" := (String.append s1 s2)
  (at level 60, right associativity) : string_scope.

(* ================================================================== *)
(** * JavaScript string primitives used by the program *)
(* ================================================================== *)

Module Js.

(** Characters are the code units U+0000..U+00FF.  In that range the
    white space removed by [String.prototype.trim] is TAB, LF, VT, FF,
    CR, SPACE and NBSP. *)
Definition isWhiteSpace (c : ascii) : bool :=
  let n := N_of_ascii c in
  ((9 <=? n) && (n <=? 13) || (n =? 32) || (n =? 160))%N.

Definition isEmpty (s : string) : bool :=
  match s with EmptyString => true | String _ _ => false end.

(** A string is truthy exactly when it is not empty. *)
Definition truthy (s : string) : bool := negb (isEmpty s).

Fixpoint trimStart (s : string) : string :=
  match s with
  | EmptyString => EmptyString
  | String c s' => if isWhiteSpace c then trimStart s' else s
  end.

Fixpoint trimEnd (s : string) : string :=
  match s with
  | EmptyString => EmptyString
  | String c s' =>
      let t := trimEnd s' in
      if isWhiteSpace c && isEmpty t then EmptyString else String c t
  end.

Definition trim (s : string) : string := trimEnd (trimStart s).

(** [toLowerCase] on one code unit: A-Z, and the Latin-1 capitals
    U+00C0..U+00DE except the multiplication sign U+00D7. *)
Definition lowerChar (c : ascii) : ascii :=
  let n := N_of_ascii c in
  if ((65 <=? n) && (n <=? 90)
      || (192 <=? n) && (n <=? 222) && negb (n =? 215))%N
  then ascii_of_N (n + 32) else c.

Fixpoint toLowerCase (s : string) : string :=
  match s with
  | EmptyString => EmptyString
  | String c s' => String (lowerChar c) (toLowerCase s')
  end.

(** [s.split(sep)] for a one-character separator: never an empty
    array; the empty string splits into one empty field. *)
Fixpoint split (sep : ascii) (s : string) : list string :=
  match s with
  | EmptyString => [EmptyString]
  | String c s' =>
      if Ascii.eqb c sep then EmptyString :: split sep s'
      else match split sep s' with
           | [] => [String c EmptyString]
           | field :: fields => String c field :: fields
           end
  end.

Definition LF : ascii := ascii_of_nat 10.
Definition nl : string := String LF EmptyString.

(** [s.startsWith(p)] *)
Fixpoint startsWith (s p : string) {struct p} : bool :=
  match p with
  | EmptyString => true
  | String a p' =>
      match s with
      | EmptyString => false
      | String b s' => Ascii.eqb a b && startsWith s' p'
      end
  end.

(** [s.substring(n)]: the string without its first [n] characters. *)
Fixpoint substring (n : nat) (s : string) : string :=
  match n, s with
  | O, _ => s
  | S _, EmptyString => EmptyString
  | S n', String _ s' => substring n' s'
  end.

(** [s.includes(t)] *)
Fixpoint includes (s t : string) : bool :=
  startsWith s t ||
  match s with
  | EmptyString => false
  | String _ s' => includes s' t
  end.

(** [arr.join(sep)] *)
Fixpoint join (sep : string) (xs : list string) : string :=
  match xs with
  | [] => EmptyString
  | [x] => x
  | x :: rest => x +++ sep +++ join sep rest
  end.

(** Template-literal rendering of an integer and of an array length. *)
Definition showZ (z : Z) : string := NilZero.string_of_int (Z.to_int z).
Definition showNat (n : nat) : string := NilZero.string_of_uint (Nat.to_uint n).

End Js.

(* ================================================================== *)
(** * Regular expressions: the fragment used by the label check *)
(* ================================================================== *)

Module Regex.

(** Patterns without anchors; [test] below supplies [^] and [$]. *)
Inductive re : Type :=
| Never                                   (* matches nothing *)
| Eps                                     (* the empty string *)
| Class (ranges : list (ascii * ascii))   (* [a-zA-Z...] *)
| Seq (r1 r2 : re)
| Star (r : re).

(** [r+] *)
Definition Plus (r : re) : re := Seq r (Star r).

Definition inRange (c : ascii) (lohi : ascii * ascii) : bool :=
  (N_of_ascii (fst lohi) <=? N_of_ascii c)%N
  && (N_of_ascii c <=? N_of_ascii (snd lohi))%N.

Definition inClass (ranges : list (ascii * ascii)) (c : ascii) : bool :=
  existsb (inRange c) ranges.

Fixpoint nullable (r : re) : bool :=
  match r with
  | Never => false
  | Eps => true
  | Class _ => false
  | Seq r1 r2 => nullable r1 && nullable r2
  | Star _ => true
  end.

(** Brzozowski derivative.  A sequence keeps both continuations apart:
    the result is a list of alternatives. *)
Fixpoint deriv (c : ascii) (r : re) : list re :=
  match r with
  | Never => []
  | Eps => []
  | Class ranges => if inClass ranges c then [Eps] else []
  | Seq r1 r2 =>
      map (fun d => Seq d r2) (deriv c r1)
      ++ (if nullable r1 then deriv c r2 else [])
  | Star r1 => map (fun d => Seq d (Star r1)) (deriv c r1)
  end.

(** Whole-string match of any of the alternatives. *)
Fixpoint matchAny (alts : list re) (s : string) : bool :=
  match s with
  | EmptyString => existsb nullable alts
  | String c s' => matchAny (flat_map (deriv c) alts) s'
  end.

(** [/^r$/.test(s)]: without the [m] flag the anchors are the two ends
    of the input. *)
Definition test (r : re) (s : string) : bool := matchAny [r] s.

End Regex.

(** [/^[a-zA-Z0-9_-]+$/] *)
Definition labelClass : list (ascii * ascii) :=
  [ ("a"%char, "z"%char); ("A"%char, "Z"%char); ("0"%char, "9"%char);
    ("_"%char, "_"%char); ("-"%char, "-"%char) ].

Definition labelPattern : Regex.re := Regex.Plus (Regex.Class labelClass).

Definition labelOk (label : string) : bool := Regex.test labelPattern label.

(* ================================================================== *)
(** * The effect monad *)
(* ================================================================== *)

(** What the program does to the outside world, in the order it happens. *)
Inductive Event : Type :=
| Out (text : string)                          (* console.log, stdout.write *)
| Err (text : string)                          (* console.error *)
| Ran (cmd : list string) (code : Z) (stdout : string)     (* $`...` *)
| Probed (port : Z) (available : bool)         (* isPortAvailable *)
| Wrote (path content : string) (ok : bool)    (* writeFileSync *)
| Spawned (argv : list string) (dir : string) (result : string + Z)
| Read (data : string).                        (* stdin "data" event *)

(** How an awaited computation ends.  [Thrown] carries the text that
    [`${error}`] renders; [Exited] is the end of the process with that
    status, which no [catch] intercepts: [process.exit(code)], or
    status 0 when an awaited promise never settles and nothing else
    keeps the process alive. *)
Inductive Outcome (A : Type) : Type :=
| Returned (a : A)
| Thrown (error : string)
| Exited (code : Z).
Arguments Returned {A} a.
Arguments Thrown {A} error.
Arguments Exited {A} code.

Record PState (W : Type) : Type := mkPState { world : W; log : list Event }.
Arguments mkPState {W} world log.
Arguments world {W} p.
Arguments log {W} p.

Definition M (W A : Type) : Type := PState W -> Outcome A * PState W.

Section Monad.
Context {W : Type}.

Definition ret {A} (a : A) : M W A := fun s => (Returned a, s).

Definition bind {A B} (m : M W A) (k : A -> M W B) : M W B :=
  fun s =>
    match m s with
    | (Returned a, s') => k a s'
    | (Thrown e, s') => (Thrown e, s')
    | (Exited c, s') => (Exited c, s')
    end.

(** [throw new Error(msg)] *)
Definition throwError {A} (msg : string) : M W A :=
  fun s => (Thrown ("Error: " +++ msg), s).

Definition processExit {A} (code : Z) : M W A := fun s => (Exited code, s).

(** [await] on a promise that is never resolved: nothing after it
    runs, no [catch] and no [finally] is entered, and the process, with
    nothing left to wait for, ends with status 0. *)
Definition neverSettles {A} : M W A := fun s => (Exited 0, s).

(** [try { body } catch (error) { handler }] *)
Definition tryCatch {A} (body : M W A) (handler : string -> M W A) : M W A :=
  fun s =>
    match body s with
    | (Thrown e, s') => handler e s'
    | r => r
    end.

Definition emit (e : Event) : M W unit :=
  fun s => (Returned tt, mkPState (world s) (log s ++ [e])).

Definition consoleLog (text : string) : M W unit := emit (Out text).
Definition consoleError (text : string) : M W unit := emit (Err text).

(** [for (const x of xs) { await body(x) }] *)
Fixpoint forOf {A} (xs : list A) (body : A -> M W unit) : M W unit :=
  match xs with
  | [] => ret tt
  | x :: rest => bind (body x) (fun _ => forOf rest body)
  end.

End Monad.

Declare Scope prog_scope.
Delimit Scope prog_scope with prog.
Notation "x <- m ;; k" := (bind m (fun x => k))
  (at level 61, m at next level, right associativity) : prog_scope.
Notation "' pat <- m ;; k" := (bind m (fun x => match x with pat => k end))
  (at level 61, pat pattern, m at next level, right associativity) : prog_scope.
Notation "m ;; k" := (bind m (fun _ => k))
  (at level 61, right associativity) : prog_scope.
Local Open Scope prog_scope.

(* ================================================================== *)
(** * The host: everything the program asks of its environment *)
(* ================================================================== *)

(** A value of the record returned by the configuration's
    [environment] function: a string, or a number that is an integer
    of magnitude below 10^21, which [`${value}`] renders in decimal
    digits, as [Js.showZ] does.  (From 10^21 on JavaScript renders a
    number in exponent form; such values, fractions and values of other
    types are outside the model.  The ports that [findAvailablePort]
    hands out are below 4001.) *)
Inductive EnvValue : Type := EnvStr (s : string) | EnvNum (z : Z).

Definition showEnvValue (v : EnvValue) : string :=
  match v with EnvStr s => s | EnvNum z => Js.showZ z end.

(** What the configuration's [environment] function does when called
    with [{ findAvailablePort }].  The function runs in a fresh context
    whose only access to the host is that capability: it ends with the
    entries of its result (in [Object.entries] order), throws, or awaits
    [findAvailablePort()] and goes on with the port or with the error
    that call threw. *)
Inductive EnvScript : Type :=
| EnvDone (envVars : list (string * EnvValue))
| EnvThrow (error : string)
| EnvFindPort (next : string + Z -> EnvScript).

(** The default export of [config.ts] after evaluation.  [layout] is the
    empty string when the property is missing or falsy; [environment] is
    [None] when the property is missing or not a function. *)
Record Config : Type := mkConfig {
  layout : string;
  environment : option EnvScript
}.

Class Host (W : Type) : Type := {
  (** [process.cwd()] *)
  host_cwd : W -> string;
  (** [fs.existsSync(path)] *)
  host_exists : string -> W -> bool;
  (** Bun's [$]: the words of the command line, giving the exit code and
      the captured standard output. *)
  host_shell : list string -> W -> (Z * string) * W;
  (** The next chunk of standard input, delivered as a ["data"] event;
      [None] when the input ends without another chunk. *)
  host_stdin : W -> option string * W;
  (** Does a TCP connection to localhost:port succeed? *)
  host_port_in_use : Z -> W -> bool;
  (** [humanId(...)] *)
  host_human_id : W -> string * W;
  (** [fs.writeFileSync]; [inl] is the thrown error. *)
  host_write : string -> string -> W -> string + W;
  (** [Bun.spawn(argv, {cwd})] followed by [await proc.exited]. *)
  host_spawn : list string -> string -> W -> (string + Z) * W;
  (** Reading, transpiling and evaluating the configuration file; [inl]
      is a thrown error, [inr None] a missing or falsy default export. *)
  host_eval_config : string -> W -> string + option Config
}.

(** What the [init] command asks of the file system besides the
    above. *)
Class Files (W : Type) : Type := {
  (** [fs.readFileSync(path, "utf-8")]; [inl] is the thrown error. *)
  host_read : string -> W -> string + string;
  (** [Bun.write(path, Bun.file(asset), { createPath: true })] without
      [await]: the copy is handed to the runtime, and the program sees
      neither its completion nor its failure. *)
  host_copy : string -> string -> W -> W
}.

(* ================================================================== *)
(** * src/index.ts *)
(* ================================================================== *)

Section Program.
Context {W : Type} `{Host W}.

(** ** Primitives: one awaited call each *)

Definition cwd : M W string := fun s => (Returned (host_cwd (world s)), s).

Definition existsSync (path : string) : M W bool :=
  fun s => (Returned (host_exists path (world s)), s).

(** The text of a [ShellError] as [`${error}`] renders it. *)
Definition shellError (code : Z) : string :=
  "ShellError: Failed with exit code " +++ Js.showZ code.

(** [await $`cmd`.nothrow()] *)
Definition shNothrow (cmd : list string) : M W (Z * string) :=
  fun s =>
    let '(code, out, w') := host_shell cmd (world s) in
    (Returned (code, out), mkPState w' (log s ++ [Ran cmd code out])).

(** [await $`cmd`]: a non-zero exit code throws.  ([.quiet()] only
    silences the echo of the command's output.) *)
Definition sh (cmd : list string) : M W string :=
  '(code, out) <- shNothrow cmd ;;
  if code =? 0 then ret out
  else fun s => (Thrown (shellError code), s).

(** [process.stdin.once("data", ...)]: the listener is called with the
    next chunk.  There is no listener for the end of the input, so the
    promise built around it stays pending when no chunk comes. *)
Definition readStdin : M W string :=
  fun s =>
    match host_stdin (world s) with
    | (Some data, w') => (Returned data, mkPState w' (log s ++ [Read data]))
    | (None, w') => neverSettles (mkPState w' (log s))
    end.

Definition humanId : M W string :=
  fun s => let '(l, w') := host_human_id (world s) in (Returned l, mkPState w' (log s)).

Definition writeFileSync (path content : string) : M W unit :=
  fun s =>
    match host_write path content (world s) with
    | inr w' => (Returned tt, mkPState w' (log s ++ [Wrote path content true]))
    | inl e => (Thrown e, mkPState (world s) (log s ++ [Wrote path content false]))
    end.

(** [spawn(argv, {stdio: inherit, cwd})] and [await proc.exited] *)
Definition spawn (argv : list string) (dir : string) : M W Z :=
  fun s =>
    let '(r, w') := host_spawn argv dir (world s) in
    let s' := mkPState w' (log s ++ [Spawned argv dir r]) in
    match r with
    | inr code => (Returned code, s')
    | inl e => (Thrown e, s')
    end.

(** ** showError *)

Definition showError {A} (message : string) : M W A :=
  consoleError ("Error: " +++ message) ;;
  processExit 1.

(** [if (cond) { showError(message) }]: execution goes on only when the
    condition is false. *)
Definition failIf (cond : bool) (message : string) : M W unit :=
  if cond then showError message else ret tt.

(** ** loadConfig *)

(** [readFileSync], [transformSync], [runInNewContext] and the lookup of
    the default export. *)
Definition evalConfigFile (configPath : string) : M W (option Config) :=
  fun s =>
    match host_eval_config configPath (world s) with
    | inl e => (Thrown e, s)
    | inr config => (Returned config, s)
    end.

Definition loadConfig (configDir : string) : M W Config :=
  let configPath := configDir +++ "/config.ts" in
  found <- existsSync configPath ;;
  failIf (negb found)
    ("Config file not found at " +++ configPath +++ ". Run 'wt init' first.") ;;
  tryCatch
    (evaluated <- evalConfigFile configPath ;;
     match evaluated with
     | Some config =>
         failIf (Js.isEmpty (layout config))
           ("Invalid config: missing 'layout' property in " +++ configPath) ;;
         ret config
     | None =>
         showError ("Invalid config: missing 'layout' property in " +++ configPath)
     end)
    (fun error =>
       showError ("Failed to load config from " +++ configPath +++ ": " +++ error)).

(** ** isPortAvailable, findAvailablePort *)

Definition isPortAvailable (port : Z) : M W bool :=
  fun s =>
    let available := negb (host_port_in_use port (world s)) in
    (Returned available, mkPState (world s) (log s ++ [Probed port available])).

(** [for (let port = 3002; port < 4000; port++)]: [n] is the number of
    iterations left, [4000 - port]; when none is left the statement
    after the loop runs. *)
Fixpoint scanPorts (n : nat) (port : Z) : M W Z :=
  match n with
  | O => throwError "No port available in range 3002-4000"
  | S n' =>
      isAvailable <- isPortAvailable port ;;
      if isAvailable then ret port else scanPorts n' (port + 1)
  end.

Definition findAvailablePort : M W Z := scanPorts (Z.to_nat (4000 - 3002)) 3002.

(** [await config.environment({ findAvailablePort })] *)
Fixpoint callEnvironment (script : EnvScript) : M W (list (string * EnvValue)) :=
  match script with
  | EnvDone envVars => ret envVars
  | EnvThrow error => fun s => (Thrown error, s)
  | EnvFindPort next =>
      fun s =>
        match findAvailablePort s with
        | (Returned port, s') => callEnvironment (next (inr port)) s'
        | (Thrown error, s') => callEnvironment (next (inl error)) s'
        | (Exited code, s') => (Exited code, s')
        end
  end.

(** ** promptUser *)

(** [input === "y" || input === "yes"] for
    [input = data.toString().trim().toLowerCase()]. *)
Definition affirmative (data : string) : bool :=
  let input := Js.toLowerCase (Js.trim data) in
  String.eqb input "y" || String.eqb input "yes".

Definition promptUser (question : string) : M W bool :=
  emit (Out (question +++ " (y/N): ")) ;;
  data <- readStdin ;;
  ret (affirmative data).

(** ** hasUnmergedCommits *)

Definition hasUnmergedCommits (branch : string) : M W bool :=
  tryCatch
    (out <- sh ["git"; "log"; "main.." +++ branch; "--oneline"] ;;
     ret (negb (Js.isEmpty (Js.trim out))))
    (fun _ => ret false).

(** ** getAllWorktrees *)

Definition worktreeLabelOfLine (worktreesDir raw : string) : list string :=
  let line := Js.trim raw in
  if Js.truthy line && Js.startsWith line ("worktree " +++ worktreesDir) then
    let worktreePath := Js.substring (String.length "worktree ") line in
    let label := Js.substring (String.length worktreesDir) worktreePath in
    if Js.truthy label then [label] else []
  else [].

Definition gitWorktreeList : list string :=
  ["git"; "worktree"; "list"; "--porcelain"].

Definition getAllWorktrees (configDir : string) : M W (list string) :=
  tryCatch
    (out <- sh gitWorktreeList ;;
     let lines := Js.split Js.LF out in
     dir <- cwd ;;
     let worktreesDir := dir +++ "/" +++ configDir +++ "/worktrees/" in
     ret (flat_map (worktreeLabelOfLine worktreesDir) lines))
    (fun _ => ret []).

(** ** cleanupWorktree *)

Definition worktreePathOf (dir configDir label : string) : string :=
  dir +++ "/" +++ configDir +++ "/worktrees/" +++ label.

Definition gitLogOneline (branch : string) : list string :=
  ["git"; "log"; "main.." +++ branch; "--oneline"].
Definition gitCheckoutMain : list string := ["git"; "checkout"; "main"].
Definition gitRevList (label : string) : list string :=
  ["git"; "rev-list"; "main.." +++ label].
Definition gitCherryPick (commit : string) : list string :=
  ["git"; "cherry-pick"; commit].
Definition gitWorktreeRemove (worktreePath : string) : list string :=
  ["git"; "worktree"; "remove"; worktreePath; "--force"].
Definition gitBranchDelete (label : string) : list string :=
  ["git"; "branch"; "-D"; label].
Definition zellijDeleteSession (label : string) : list string :=
  ["zellij"; "delete-session"; "wt-" +++ label].

(** The array the cherry-pick loop walks:
    [stdout.toString().trim().split("\n").reverse()]. *)
Definition commitsOf (stdout : string) : list string :=
  rev (Js.split Js.LF (Js.trim stdout)).

(** The body of the loop over [commits]. *)
Definition cherryPickOne (commit : string) : M W unit :=
  if Js.truthy (Js.trim commit)
  then sh (gitCherryPick commit) ;; ret tt
  else ret tt.

(** The body of [if (shouldCherryPick) { ... }]. *)
Definition cherryPickCommits (label : string) : M W unit :=
  consoleLog "Switching to main and cherry-picking commits..." ;;
  sh gitCheckoutMain ;;
  out <- sh (gitRevList label) ;;
  forOf (commitsOf out) cherryPickOne ;;
  consoleLog ("✓ Cherry-picked commits from " +++ label +++ " into main").

(** The statements from [// Remove worktree] to the end of the [try]
    block. *)
Definition removeAndDelete (label worktreePath : string) : M W unit :=
  consoleLog "Removing worktree..." ;;
  sh (gitWorktreeRemove worktreePath) ;;
  consoleLog ("✓ Removed worktree " +++ worktreePath) ;;
  consoleLog "Deleting branch..." ;;
  sh (gitBranchDelete label) ;;
  consoleLog ("✓ Deleted branch " +++ label) ;;
  sh (zellijDeleteSession label) ;;
  consoleLog "✓ Cleanup completed successfully".

(** The [try] block of [cleanupWorktree]. *)
Definition cleanupSteps (label worktreePath : string) : M W unit :=
  hasUnmerged <- hasUnmergedCommits label ;;
  (if hasUnmerged then
     consoleLog ("Branch '" +++ label +++ "' has commits not merged into main.") ;;
     shouldCherryPick <-
       promptUser "Do you want to cherry-pick them into main first?" ;;
     if shouldCherryPick then cherryPickCommits label else ret tt
   else ret tt) ;;
  removeAndDelete label worktreePath.

Definition cleanupWorktree (label configDir : string) : M W unit :=
  dir <- cwd ;;
  let worktreePath := worktreePathOf dir configDir label in
  found <- existsSync worktreePath ;;
  if negb found then
    consoleLog ("Worktree " +++ worktreePath +++ " does not exist.")
  else
    consoleLog ("Cleaning up worktree: " +++ worktreePath) ;;
    tryCatch
      (cleanupSteps label worktreePath)
      (fun error => showError ("Failed to cleanup worktree: " +++ error)).

(** ** cleanupAllWorktrees *)

Definition cleaningUpBanner (label : string) : string :=
  Js.nl +++ "--- Cleaning up worktree: " +++ label +++ " ---".

(** The body of the loop over [worktrees]. *)
Definition cleanupNext (configDir label : string) : M W unit :=
  consoleLog (cleaningUpBanner label) ;;
  cleanupWorktree label configDir.

Definition foundMessage (worktrees : list string) : string :=
  "Found " +++ Js.showNat (List.length worktrees) +++ " worktree(s): "
  +++ Js.join ", " worktrees.

Definition cleanupAllWorktrees (configDir : string) : M W unit :=
  worktrees <- getAllWorktrees configDir ;;
  if (List.length worktrees =? 0)%nat then
    consoleLog "No worktrees found to clean up."
  else
    consoleLog (foundMessage worktrees) ;;
    shouldProceed <- promptUser "Do you want to clean up all worktrees?" ;;
    if negb shouldProceed then
      consoleLog "Cleanup cancelled."
    else
      forOf worktrees (cleanupNext configDir) ;;
      consoleLog (Js.nl +++ "✓ All worktrees cleaned up successfully").

(** ** openWorktree *)

Definition openWorktree (label configDir : string) : M W unit :=
  dir <- cwd ;;
  let worktreePath := worktreePathOf dir configDir label in
  found <- existsSync worktreePath ;;
  failIf (negb found) ("Worktree " +++ worktreePath +++ " does not exist.") ;;
  config <- loadConfig configDir ;;
  let layoutPath := configDir +++ "/" +++ layout config in
  let sessionName := "wt-" +++ label in
  tryCatch
    ('(code, out) <- shNothrow ["zellij"; "list-sessions"; "-ns"] ;;
     let sessions := if code =? 0 then Js.split Js.LF (Js.trim out) else [] in
     let sessionExists := existsb (fun s => Js.includes s sessionName) sessions in
     (if sessionExists then
        consoleLog ("Attaching to existing zellij session: " +++ sessionName) ;;
        spawn ["zellij"; "attach"; sessionName] worktreePath ;;
        ret tt
      else
        consoleLog ("Creating new zellij session: " +++ sessionName) ;;
        spawn ["zellij"; "-n"; layoutPath; "-s"; sessionName] worktreePath ;;
        ret tt) ;;
     consoleLog "✓ Closed worktree session")
    (fun error => showError ("Failed to open worktree session: " +++ error)).

(** ** createWorktree *)

Definition gitWorktreeAdd (worktreePath label : string) : list string :=
  ["git"; "worktree"; "add"; worktreePath; "-b"; label].
Definition copyLocal (worktreePath : string) : list string :=
  ["cp"; "-r"; "local"; worktreePath +++ "/local"].
Definition bunInstall (worktreePath : string) : list string :=
  ["cd"; worktreePath; "&&"; "bun"; "install"].

(** [for (const [key, value] of Object.entries(envVars))
      envContent += `${key}=${value}\n`] *)
Definition envContentOf (envVars : list (string * EnvValue)) : string :=
  fold_left
    (fun envContent kv =>
       envContent +++ fst kv +++ "=" +++ showEnvValue (snd kv) +++ Js.nl)
    envVars "".

Definition zellijNewSession (layoutPath sessionName : string) : list string :=
  ["zellij"; "-n"; layoutPath; "-s"; sessionName].

Definition generateLabel : M W string :=
  label <- humanId ;;
  consoleLog ("Auto-generated label: " +++ label) ;;
  ret label.

Definition labelError : string :=
  "Label must contain only letters, numbers, underscores, and hyphens".

(** The [try] block that creates the worktree. *)
Definition createSteps (label worktreePath : string) : M W unit :=
  sh (gitWorktreeAdd worktreePath label) ;;
  sh (copyLocal worktreePath) ;;
  sh (bunInstall worktreePath) ;;
  consoleLog ("✓ Worktree created at " +++ worktreePath).

(** [if (config.environment && typeof config.environment === "function")
    { ... }] *)
Definition writeEnvironment (config : Config) (envPath : string) : M W unit :=
  match environment config with
  | Some environmentFn =>
      envVars <- callEnvironment environmentFn ;;
      writeFileSync envPath (envContentOf envVars) ;;
      consoleLog "✓ Created .env.local"
  | None => ret tt
  end.

(** The [try] block that runs the session and offers the cleanup. *)
Definition sessionSteps (label configDir worktreePath layoutPath : string) : M W unit :=
  exitCode <- spawn (zellijNewSession layoutPath ("wt-" +++ label)) worktreePath ;;
  (if exitCode =? 0 then consoleLog "✓ Worktree session completed"
   else consoleLog ("Worktree exited with code " +++ Js.showZ exitCode)) ;;
  consoleLog "" ;;
  shouldCleanup <-
    promptUser ("Do you want to clean up the worktree '" +++ label +++ "'?") ;;
  if shouldCleanup then
    consoleLog (Js.nl +++ "--- Starting automatic cleanup ---") ;;
    cleanupWorktree label configDir
  else
    consoleLog ("Worktree '" +++ label +++ "' preserved at " +++ worktreePath).

(** [if (!label) { label = humanId(...); ... }]: the [label] argument is
    [string | undefined], and [!label] holds for [undefined] and for the
    empty string. *)
Definition resolveLabel (label : option string) : M W string :=
  match label with
  | Some given => if Js.truthy given then ret given else generateLabel
  | None => generateLabel
  end.

Definition createWorktree (label : option string) (configDir : string) : M W unit :=
  label <- resolveLabel label ;;
  failIf (negb (labelOk label)) labelError ;;
  dir <- cwd ;;
  let worktreePath := worktreePathOf dir configDir label in
  let envPath := worktreePath +++ "/.env.local" in
  found <- existsSync worktreePath ;;
  (if found then
     consoleLog ("Worktree already exists at " +++ worktreePath) ;;
     consoleLog "Opening Claude Code in existing worktree..."
   else
     consoleLog ("Creating worktree: " +++ worktreePath) ;;
     tryCatch
       (createSteps label worktreePath)
       (fun error => showError ("Failed to create worktree: " +++ error))) ;;
  config <- loadConfig configDir ;;
  writeEnvironment config envPath ;;
  consoleLog "Creating zellij session..." ;;
  let layoutPath := configDir +++ "/" +++ layout config in
  tryCatch
    (sessionSteps label configDir worktreePath layoutPath)
    (fun error => showError ("Failed to create zellij session: " +++ error)).

(** ** The command actions; [configDir] is [program.opts().configDir]. *)

Definition newAction (label : option string) (configDir : string) : M W unit :=
  createWorktree label configDir.

Definition openAction (label configDir : string) : M W unit :=
  failIf (negb (labelOk label)) labelError ;;
  openWorktree label configDir.

Definition cleanupAction (label : option string) (configDir : string) : M W unit :=
  match label with
  | Some given =>
      if Js.truthy given then
        failIf (negb (labelOk given)) labelError ;;
        cleanupWorktree given configDir
      else cleanupAllWorktrees configDir
  | None => cleanupAllWorktrees configDir
  end.

End Program.

(* ================================================================== *)
(** * src/index.ts: the init command *)
(* ================================================================== *)

Section InitCommand.
Context {W : Type} `{Host W} `{Files W}.

Definition readFileSync (path : string) : M W string :=
  fun s =>
    match host_read path (world s) with
    | inr content => (Returned content, s)
    | inl e => (Thrown e, s)
    end.

(** [Bun.write(path, Bun.file(asset), { createPath: true })] *)
Definition bunWrite (path asset : string) : M W unit :=
  fun s => (Returned tt, mkPState (host_copy path asset (world s)) (log s)).

(** The two files embedded in the script. *)
Definition zellijLayout : string := "./zellij-layout.kdl".
Definition defaultConfig : string := "./default-config.ts".

(** [gitignoreContent.split("\n").some((line) => line.trim() ===
    worktreesPattern)] *)
Definition hasPattern (gitignoreContent worktreesPattern : string) : bool :=
  existsb (fun line => String.eqb (Js.trim line) worktreesPattern)
    (Js.split Js.LF gitignoreContent).

(** [gitignoreContent.trimEnd() + "\n" + worktreesPattern + "\n"] *)
Definition newContent (gitignoreContent worktreesPattern : string) : string :=
  Js.trimEnd gitignoreContent +++ Js.nl +++ worktreesPattern +++ Js.nl.

(** [if (!existsSync(path)) { Bun.write(path, Bun.file(asset), ...);
    console.log(`✓ Created ${path}`) }] *)
Definition initFile (path asset : string) : M W unit :=
  found <- existsSync path ;;
  if negb found then
    bunWrite path asset ;;
    consoleLog ("✓ Created " +++ path)
  else ret tt.

(** The statements from [// Handle .gitignore file] to the end of the
    [if (existsSync(gitignorePath))] statement. *)
Definition initGitignore (wtDir : string) : M W unit :=
  let gitignorePath := ".gitignore" in
  let worktreesPattern := wtDir +++ "/worktrees" in
  found <- existsSync gitignorePath ;;
  if found then
    gitignoreContent <- readFileSync gitignorePath ;;
    if negb (hasPattern gitignoreContent worktreesPattern) then
      writeFileSync gitignorePath (newContent gitignoreContent worktreesPattern) ;;
      consoleLog ("✓ Added " +++ worktreesPattern +++ " to existing .gitignore")
    else
      consoleLog ("✓ .gitignore already contains " +++ worktreesPattern)
  else
    writeFileSync gitignorePath (worktreesPattern +++ Js.nl) ;;
    consoleLog ("✓ Created .gitignore with " +++ worktreesPattern).

(** The action of the [init] command; [wtDir] is
    [program.opts().configDir]. *)
Definition initAction (wtDir : string) : M W unit :=
  consoleLog "Initializing repository..." ;;
  initFile (wtDir +++ "/layout.kdl") zellijLayout ;;
  initFile (wtDir +++ "/config.ts") defaultConfig ;;
  initGitignore wtDir ;;
  consoleLog (Js.nl +++ "✓ Repository initialized successfully!") ;;
  consoleLog "You can now use 'wt new' to create worktrees.".

End InitCommand.

(* ================================================================== *)
(** * The earlier revision of the script: findAvailablePorts *)
(* ================================================================== *)

Module Wtt.
Section Ports.
Context {W : Type} `{Host W}.

Record PortPair : Type := mkPortPair { adminPort : Z; webhookPort : Z }.

(** [for (let port = 3002; port < 4000; port++)], both probes awaited
    before the test; [n] is the number of iterations left. *)
Fixpoint scanPairs (n : nat) (port : Z) : M W PortPair :=
  match n with
  | O => throwError "No adjacent ports available in range 3002-4000"
  | S n' =>
      webhookAvailable <- isPortAvailable port ;;
      adminAvailable <- isPortAvailable (port + 1) ;;
      if adminAvailable && webhookAvailable
      then ret (mkPortPair (port + 1) port)
      else scanPairs n' (port + 1)
  end.

Definition findAvailablePorts : M W PortPair :=
  scanPairs (Z.to_nat (4000 - 3002)) 3002.

(** ** cleanupWorktree and createWorktree of that revision: the
    worktrees live in [/workspaces], the sessions are named [wtt-...],
    the layout is fixed, and the environment file holds the two ports. *)

Definition worktreePathOf (label : string) : string :=
  "/workspaces/worktree-" +++ label.

Definition zellijDeleteSession (label : string) : list string :=
  ["zellij"; "delete-session"; "wtt-" +++ label].

Definition removeAndDelete (label worktreePath : string) : M W unit :=
  consoleLog "Removing worktree..." ;;
  sh (gitWorktreeRemove worktreePath) ;;
  consoleLog ("✓ Removed worktree " +++ worktreePath) ;;
  consoleLog "Deleting branch..." ;;
  sh (gitBranchDelete label) ;;
  consoleLog ("✓ Deleted branch " +++ label) ;;
  sh (zellijDeleteSession label) ;;
  consoleLog "✓ Cleanup completed successfully".

Definition cleanupSteps (label worktreePath : string) : M W unit :=
  hasUnmerged <- hasUnmergedCommits label ;;
  (if hasUnmerged then
     consoleLog ("Branch '" +++ label +++ "' has commits not merged into main.") ;;
     shouldCherryPick <-
       promptUser "Do you want to cherry-pick them into main first?" ;;
     if shouldCherryPick then cherryPickCommits label else ret tt
   else ret tt) ;;
  removeAndDelete label worktreePath.

Definition cleanupWorktree (label : string) : M W unit :=
  let worktreePath := worktreePathOf label in
  found <- existsSync worktreePath ;;
  if negb found then
    consoleLog ("Worktree " +++ worktreePath +++ " does not exist.")
  else
    consoleLog ("Cleaning up worktree: " +++ worktreePath) ;;
    tryCatch
      (cleanupSteps label worktreePath)
      (fun error => showError ("Failed to cleanup worktree: " +++ error)).

(** [`WTT_ADMIN_PORT=${adminPort}\nWTT_WEBHOOK_PORT=${webhookPort}\n`] *)
Definition envContentOf (ports : PortPair) : string :=
  "WTT_ADMIN_PORT=" +++ Js.showZ (adminPort ports) +++ Js.nl
  +++ "WTT_WEBHOOK_PORT=" +++ Js.showZ (webhookPort ports) +++ Js.nl.

(** The [try] statement that finds the ports and writes [.env.local]. *)
Definition writePorts (envPath : string) : M W unit :=
  tryCatch
    (ports <- findAvailablePorts ;;
     writeFileSync envPath (envContentOf ports) ;;
     consoleLog ("✓ Created .env.local with ports " +++ Js.showZ (adminPort ports)
                 +++ " and " +++ Js.showZ (webhookPort ports)))
    (fun error => showError ("Failed to find available ports: " +++ error)).

Definition zellijNewSession (sessionName : string) : list string :=
  ["zellij"; "-n"; ".zellij/worktree.kdl"; "-s"; sessionName].

(** The [try] block that runs the session and offers the cleanup. *)
Definition sessionSteps (label worktreePath : string) : M W unit :=
  exitCode <- spawn (zellijNewSession ("wtt-" +++ label)) worktreePath ;;
  (if exitCode =? 0 then consoleLog "✓ Worktree session completed"
   else consoleLog ("Worktree exited with code " +++ Js.showZ exitCode)) ;;
  consoleLog "" ;;
  shouldCleanup <-
    promptUser ("Do you want to clean up the worktree '" +++ label +++ "'?") ;;
  if shouldCleanup then
    consoleLog (Js.nl +++ "--- Starting automatic cleanup ---") ;;
    cleanupWorktree label
  else
    consoleLog ("Worktree '" +++ label +++ "' preserved at " +++ worktreePath).

Definition createWorktree (label : option string) : M W unit :=
  label <- resolveLabel label ;;
  failIf (negb (labelOk label)) labelError ;;
  let worktreePath := worktreePathOf label in
  let envPath := worktreePath +++ "/.env.local" in
  found <- existsSync worktreePath ;;
  (if found then
     consoleLog ("Worktree already exists at " +++ worktreePath) ;;
     consoleLog "Opening Claude Code in existing worktree..."
   else
     consoleLog ("Creating worktree: " +++ worktreePath) ;;
     tryCatch
       (createSteps label worktreePath)
       (fun error => showError ("Failed to create worktree: " +++ error))) ;;
  consoleLog "Finding available ports..." ;;
  writePorts envPath ;;
  consoleLog "Creating zellij session..." ;;
  tryCatch
    (sessionSteps label worktreePath)
    (fun error => showError ("Failed to create zellij session: " +++ error)).

End Ports.
End Wtt.

(* ================================================================== *)
(** * Reading a run *)
(* ================================================================== *)

(** A run starts with an empty log. *)
Definition start {W} (w : W) : PState W := mkPState w [].

(** The two parts of a finished run. *)
Definition outcomeOf {W A} (r : Outcome A * PState W) : Outcome A := fst r.
Definition logOf {W A} (r : Outcome A * PState W) : list Event := log (snd r).
Definition worldOf {W A} (r : Outcome A * PState W) : W := world (snd r).

(** The shell commands of a log with their exit codes, in order. *)
Definition commandOf (e : Event) : list (list string * Z) :=
  match e with
  | Ran cmd code _ => [(cmd, code)]
  | _ => []
  end.

Definition commands (l : list Event) : list (list string * Z) :=
  flat_map commandOf l.

(** What the operator typed, in order. *)
Definition readOf (e : Event) : list string :=
  match e with
  | Read data => [data]
  | _ => []
  end.

Definition reads (l : list Event) : list string := flat_map readOf l.

(** The per-label banners printed by [cleanupAllWorktrees]. *)
Definition bannerOf (e : Event) : list string :=
  match e with
  | Out text =>
      if Js.startsWith text (Js.nl +++ "--- Cleaning up worktree: ")
      then [text] else []
  | _ => []
  end.

Definition banners (l : list Event) : list string := flat_map bannerOf l.

(** Events that are neither a banner nor a probe, a file write or a
    spawned process. *)
Definition Quiet (e : Event) : Prop :=
  match e with
  | Out _ => bannerOf e = []
  | Err _ | Ran _ _ _ | Read _ => True
  | Probed _ _ | Wrote _ _ _ | Spawned _ _ _ => False
  end.

(** The ports probed, in order. *)
Definition probeOf (e : Event) : list Z :=
  match e with
  | Probed port _ => [port]
  | _ => []
  end.

Definition probes (l : list Event) : list Z := flat_map probeOf l.

(** The files written. *)
Definition writeOf (e : Event) : list (string * string) :=
  match e with
  | Wrote path content true => [(path, content)]
  | _ => []
  end.

Definition writes (l : list Event) : list (string * string) := flat_map writeOf l.

(** The processes spawned. *)
Definition spawnOf (e : Event) : list (list string * string) :=
  match e with
  | Spawned argv dir _ => [(argv, dir)]
  | _ => []
  end.

Definition spawns (l : list Event) : list (list string * string) :=
  flat_map spawnOf l.

(* ================================================================== *)
(** * A simulated host, for running the program on concrete scenarios *)
(* ================================================================== *)

Module Sim.

Record world : Type := mkWorld {
  dirs : list string;                  (* paths that exist *)
  keyboard : list string;              (* the chunks of standard input, then its end *)
  failing : list (list string);        (* commands that exit with status 1 *)
  outputs : list (list string * string);   (* stdout of the other commands *)
  busy : Z -> bool;                    (* ports in use *)
  main : list string;                  (* commits on main, oldest first *)
  names : list string;                 (* labels humanId will produce *)
  config : string + option Config      (* what config.ts evaluates to *)
}.

Fixpoint cmdEqb (a b : list string) : bool :=
  match a, b with
  | [], [] => true
  | x :: a', y :: b' => String.eqb x y && cmdEqb a' b'
  | _, _ => false
  end.

Fixpoint lookupOutput (cmd : list string) (tbl : list (list string * string)) : string :=
  match tbl with
  | [] => ""
  | (c, out) :: rest => if cmdEqb cmd c then out else lookupOutput cmd rest
  end.

(** A successful command: cherry-pick extends main, worktree removal
    deletes the directory, worktree creation makes it. *)
Definition effect (cmd : list string) (w : world) : world :=
  match cmd with
  | ["git"; "cherry-pick"; commit] =>
      mkWorld (dirs w) (keyboard w) (failing w) (outputs w) (busy w)
              (main w ++ [commit]) (names w) (config w)
  | ["git"; "worktree"; "remove"; path; "--force"] =>
      mkWorld (filter (fun d => negb (String.eqb d path)) (dirs w))
              (keyboard w) (failing w) (outputs w) (busy w) (main w) (names w) (config w)
  | ["git"; "worktree"; "add"; path; "-b"; _] =>
      mkWorld (path :: dirs w) (keyboard w) (failing w) (outputs w) (busy w)
              (main w) (names w) (config w)
  | _ => w
  end.

Definition shell (cmd : list string) (w : world) : (Z * string) * world :=
  if existsb (cmdEqb cmd) (failing w) then ((1, ""), w)
  else ((0, lookupOutput cmd (outputs w)), effect cmd w).

Definition stdin (w : world) : option string * world :=
  match keyboard w with
  | [] => (None, w)
  | chunk :: rest =>
      (Some chunk,
       mkWorld (dirs w) rest (failing w) (outputs w) (busy w) (main w) (names w)
               (config w))
  end.

Definition nextName (w : world) : string * world :=
  match names w with
  | [] => ("quiet-mouse", w)
  | n :: rest =>
      (n, mkWorld (dirs w) (keyboard w) (failing w) (outputs w) (busy w) (main w) rest
           (config w))
  end.

(** The host answers from the fields above; writes succeed and spawned
    sessions end with status 0. *)
#[global] Instance host : Host world := {|
  host_cwd := fun _ => "/repo";
  host_exists := fun path w => existsb (String.eqb path) (dirs w);
  host_shell := shell;
  host_stdin := stdin;
  host_port_in_use := fun port w => busy w port;
  host_human_id := nextName;
  host_write := fun _ _ w => inr w;
  host_spawn := fun _ _ w => (inr 0, w);
  host_eval_config := fun _ w => config w
|}.

End Sim.

(* ================================================================== *)
(** * A simulated file system, for running the init command *)
(* ================================================================== *)

Module Disk.

(** The files, newest first; a path may occur again further down with
    an older content. *)
Record world : Type := mkWorld { files : list (string * string) }.

Fixpoint lookup (path : string) (entries : list (string * string)) : option string :=
  match entries with
  | [] => None
  | (p, content) :: rest => if String.eqb path p then Some content else lookup path rest
  end.

Definition present (path : string) (w : world) : bool :=
  match lookup path (files w) with Some _ => true | None => false end.

Definition read (path : string) (w : world) : string + string :=
  match lookup path (files w) with
  | Some content => inr content
  | None => inl ("Error: ENOENT: no such file or directory, open '" +++ path +++ "'")
  end.

Definition write (path content : string) (w : world) : world :=
  mkWorld ((path, content) :: files w).

(** Only the file system answers: commands fail, nothing is typed, no
    port is in use.  A copy lands at once, the name of the asset
    standing for its content. *)
#[global] Instance host : Host world := {|
  host_cwd := fun _ => "/repo";
  host_exists := present;
  host_shell := fun _ w => ((127, ""), w);
  host_stdin := fun w => (None, w);
  host_port_in_use := fun _ _ => false;
  host_human_id := fun w => ("quiet-mouse", w);
  host_write := fun path content w => inr (write path content w);
  host_spawn := fun _ _ w => (inr 0, w);
  host_eval_config := fun _ _ => inr None
|}.

#[global] Instance disk : Files world := {|
  host_read := read;
  host_copy := write
|}.

End Disk.

(* ================================================================== *)
(** * Vocabulary of the statements *)
(* ================================================================== *)

(** [p] holds of every character. *)
Fixpoint allChars (p : ascii -> bool) (s : string) : bool :=
  match s with
  | EmptyString => true
  | String c s' => p c && allChars p s'
  end.

(** A commit hash as [git rev-list] prints it: not empty, no white
    space. *)
Definition hashLike (commit : string) : bool :=
  Js.truthy commit && allChars (fun c => negb (Js.isWhiteSpace c)) commit.

(** The standard output of [git rev-list]: one commit per line. *)
Fixpoint revListOutput (commits : list string) : string :=
  match commits with
  | [] => EmptyString
  | commit :: rest => commit +++ Js.nl +++ revListOutput rest
  end.

(** One character of [A-Za-z0-9_-]. *)
Definition labelChar (c : ascii) : Prop :=
  let n := N_of_ascii c in
  ((97 <= n <= 122) \/ (65 <= n <= 90) \/ (48 <= n <= 57) \/ n = 95 \/ n = 45)%N.

(** Every character is in the class. *)
Fixpoint allLabelChars (s : string) : Prop :=
  match s with
  | EmptyString => True
  | String c s' => labelChar c /\ allLabelChars s'
  end.

(** The whole string matches [A-Za-z0-9_-]+. *)
Definition LabelSyntax (s : string) : Prop := s <> "" /\ allLabelChars s.

(** A command that exited with status 0. *)
Definition succeeded (cmd : list string) : list string * Z := (cmd, 0).

(** [FailFast plan trace failure]: the commands of [plan] ran in order,
    each exiting with status 0, up to the first one that did not; that
    one, if any, is the last of [trace] and [failure] is its status. *)
Inductive FailFast :
  list (list string) -> list (list string * Z) -> option Z -> Prop :=
| ff_all plan :
    FailFast plan (map succeeded plan) None
| ff_stop pre cmd post code :
    code <> 0 ->
    FailFast (pre ++ cmd :: post) (map succeeded pre ++ [(cmd, code)]) (Some code).

(** The test [commit.trim()] of the cherry-pick loop. *)
Definition nonBlank (commit : string) : bool := Js.truthy (Js.trim commit).

(** What ends a sequence of commands inside the [try] block. *)
Definition thrownOr {A} (failure : option Z) (a : A) : Outcome A :=
  match failure with
  | None => Returned a
  | Some code => Thrown (shellError code)
  end.

(** The commands of the cherry-pick block for a given output of
    [git rev-list]. *)
Definition reconcilePlan (label out : string) : list (list string) :=
  gitCheckoutMain :: gitRevList label
    :: map gitCherryPick (filter nonBlank (commitsOf out)).

(** The commands that destroy the worktree, in program order. *)
Definition removalPlan (label path : string) : list (list string) :=
  [gitWorktreeRemove path; gitBranchDelete label; zellijDeleteSession label].

(** The ways the [try] block can go after [git log]: no cherry-pick is
    attempted (nothing unmerged, or the operator declined), or the
    operator consented to cherry-pick. *)
Inductive StepsShape (label path : string) (evs : list Event)
          (failure : option Z) : Prop :=
| steps_direct code0 trace :
    commands evs = (gitLogOneline label, code0) :: trace ->
    FailFast (removalPlan label path) trace failure ->
    (reads evs = [] \/ exists data, reads evs = [data] /\ affirmative data = false) ->
    StepsShape label path evs failure
| steps_reconciled data out trace :
    reads evs = [data] -> affirmative data = true ->
    commands evs = (gitLogOneline label, 0) :: trace ->
    FailFast (reconcilePlan label out ++ removalPlan label path) trace failure ->
    (In (gitRevList label, 0) trace -> In (Ran (gitRevList label) 0 out) evs) ->
    StepsShape label path evs failure.

(** What the [catch] of [cleanupWorktree] makes of a failed command. *)
Definition exitedOr (failure : option Z) : Outcome unit :=
  match failure with
  | None => Returned tt
  | Some _ => Exited 1
  end.

(** The report that [catch] prints before it exits. *)
Definition reportOf (failure : option Z) : list Event :=
  match failure with
  | None => []
  | Some code => [Err ("Error: Failed to cleanup worktree: " +++ shellError code)]
  end.

(** What [promptUser] writes before it waits for the answer. *)
Definition promptOf (question : string) : string := question +++ " (y/N): ".

Definition cherryPickQuestion : string :=
  "Do you want to cherry-pick them into main first?".

Definition batchQuestion : string := "Do you want to clean up all worktrees?".

Definition sessionQuestion (label : string) : string :=
  "Do you want to clean up the worktree '" +++ label +++ "'?".


Definition unmergedNotice (label : string) : string :=
  "Branch '" +++ label +++ "' has commits not merged into main.".

(** The [try] block stopped at the cherry-pick question: [git log]
    showed commits, the question was written, and the input ended
    before an answer came. *)
Definition Unanswered (label : string) (evs : list Event) : Prop :=
  exists out,
    evs = [Ran (gitLogOneline label) 0 out;
           Out (unmergedNotice label);
           Out (promptOf cherryPickQuestion)].

(** A log of port probes and nothing else. *)
Definition ProbesOnly (evs : list Event) : Prop :=
  Forall (fun e => exists port available, e = Probed port available) evs.

(** The line printed when the session ends. *)
Definition sessionMessage (exitCode : Z) : string :=
  if exitCode =? 0 then "✓ Worktree session completed"
  else "Worktree exited with code " +++ Js.showZ exitCode.

(** The commands [cleanupWorktree] can run for a label. *)
Definition cleanupCommand (label : string) (cmd : list string) : Prop :=
  cmd = gitLogOneline label
  \/ (cmd = gitCheckoutMain \/ cmd = gitRevList label
      \/ exists commit, cmd = gitCherryPick commit)
  \/ exists path, In cmd (removalPlan label path).

(** The three commands that create a worktree. *)
Definition creationCommand (cmd : list string) : Prop :=
  exists path label,
    cmd = gitWorktreeAdd path label \/ cmd = copyLocal path \/ cmd = bunInstall path.

(** The answers [promptUser] takes for a yes, once the white space
    around them is removed. *)
Definition acceptedAnswers : list string :=
  ["y"; "Y"; "yes"; "yeS"; "yEs"; "yES"; "Yes"; "YeS"; "YEs"; "YES"].

(** No line break in the string. *)
Definition singleLine (s : string) : bool :=
  allChars (fun c => negb (Ascii.eqb c Js.LF)) s.

(** Only white space in the string. *)
Definition blank (s : string) : bool := allChars Js.isWhiteSpace s.

(** One entry of [git worktree list --porcelain]: the path, the commit
    and the branch of a worktree, and an empty line. *)
Definition porcelainEntry (path head branch : string) : string :=
  "worktree " +++ path +++ Js.nl +++ "HEAD " +++ head +++ Js.nl
  +++ "branch " +++ branch +++ Js.nl +++ Js.nl.

(** The entries of the worktrees that [new] made in [worktreesDir], each
    given by its label and its commit. *)
Fixpoint porcelainOf (worktreesDir : string) (registered : list (string * string)) : string :=
  match registered with
  | [] => EmptyString
  | (label, head) :: rest =>
      porcelainEntry (worktreesDir +++ label) head ("refs/heads/" +++ label)
      +++ porcelainOf worktreesDir rest
  end.

(** The three commands that create a worktree, in program order. *)
Definition creationPlan (label path : string) : list (list string) :=
  [gitWorktreeAdd path label; copyLocal path; bunInstall path].

(** The line of [.env.local] for one entry of the environment. *)
Definition envLine (entry : string * EnvValue) : string :=
  fst entry +++ "=" +++ showEnvValue (snd entry).

(** [count] ports in ascending order from [port]. *)
Fixpoint consecutive (count : nat) (port : Z) : list Z :=
  match count with
  | O => []
  | S count' => port :: consecutive count' (port + 1)
  end.

Section HostVocabulary.
Context {W : Type} `{Host W}.

(** Candidate [p] of the pair scan qualifies: [p + 1] and [p] are both
    free. *)
Definition pairFree (w : W) (p : Z) : bool :=
  negb (host_port_in_use (p + 1) w) && negb (host_port_in_use p w).

(** [config.ts] is there and evaluates to [config], whose [layout] is
    set. *)
Definition ConfigLoads (w : W) (configDir : string) (config : Config) : Prop :=
  host_exists (configDir +++ "/config.ts") w = true
  /\ host_eval_config (configDir +++ "/config.ts") w = inr (Some config)
  /\ Js.isEmpty (layout config) = false.

(** What each entry point does with a label it rejects: one line on the
    error stream and [process.exit(1)], the world untouched. *)
Definition rejected (w : W) : Outcome unit * PState W :=
  (Exited 1, mkPState w [Err ("Error: " +++ labelError)]).

(** What a probe of [port] leaves in the log. *)
Definition probed (w : W) (port : Z) : Event :=
  Probed port (negb (host_port_in_use port w)).



End HostVocabulary.

(* ================================================================== *)
(** * Scenarios on the simulated host *)
(* ================================================================== *)

Module Scenario.

Definition yes : string := "y" +++ Js.nl.
Definition no : string := "n" +++ Js.nl.

Definition feat : string := "/repo/.wt/worktrees/feat".
Definition configFile : string := ".wt/config.ts".

Definition unmergedLog : string :=
  "c3c3c3c third" +++ Js.nl +++ "c2c2c2c second" +++ Js.nl
  +++ "c1c1c1c first" +++ Js.nl.

(** A branch [feat] with the commits C1, C2, C3 (oldest first) not on
    main; the operator consents to the cherry-pick; C2 conflicts. *)
Definition conflict : Sim.world :=
  Sim.mkWorld [feat] [yes] [gitCherryPick "C2"]
    [(gitLogOneline "feat", unmergedLog);
     (gitRevList "feat", revListOutput ["C3"; "C2"; "C1"])]
    (fun _ => false) ["M0"] [] (inr None).

(** The same branch, without the conflict. *)
Definition clean : Sim.world :=
  Sim.mkWorld [feat] [yes] []
    [(gitLogOneline "feat", unmergedLog);
     (gitRevList "feat", revListOutput ["C3"; "C2"; "C1"])]
    (fun _ => false) ["M0"] [] (inr None).

(** A merged branch whose session does not exist any more:
    [zellij delete-session] fails. *)
Definition sessionGone : Sim.world :=
  Sim.mkWorld [feat] [] [zellijDeleteSession "feat"] []
    (fun _ => false) ["M0"] [] (inr None).

Definition worktreeA : string := "/repo/.wt/worktrees/a".
Definition worktreeB : string := "/repo/.wt/worktrees/b".

Definition porcelain : string :=
  Js.join Js.nl
    ["worktree /repo"; "HEAD 1111111"; "branch refs/heads/main"; "";
     "worktree /repo/.wt/worktrees/a"; "HEAD 2222222"; "branch refs/heads/a"; "";
     "worktree /repo/.wt/worktrees/b"; "HEAD 3333333"; "branch refs/heads/b"; ""].

(** Two registered worktrees, [a] and [b]; the batch is confirmed; the
    removal of [a] fails. *)
Definition firstRemovalFails : Sim.world :=
  Sim.mkWorld [worktreeA; worktreeB] [yes] [gitWorktreeRemove worktreeA]
    [(gitWorktreeList, porcelain)]
    (fun _ => false) ["M0"] [] (inr None).


(** The same two worktrees; the operator answers the batch question
    with an empty line. *)
Definition batchDeclined : Sim.world :=
  Sim.mkWorld [worktreeA; worktreeB] [Js.nl] []
    [(gitWorktreeList, porcelain)]
    (fun _ => false) ["M0"] [] (inr None).

(** The same, once the answer is read. *)
Definition listedOnly : Sim.world :=
  Sim.mkWorld [worktreeA; worktreeB] [] []
    [(gitWorktreeList, porcelain)]
    (fun _ => false) ["M0"] [] (inr None).

(** The worktree [feat] exists; the configuration has a layout and no
    [environment] function; the operator keeps the worktree. *)
Definition noEnvironment : Sim.world :=
  Sim.mkWorld [feat; configFile] [no] [] []
    (fun _ => false) ["M0"] []
    (inr (Some (mkConfig "./layout.kdl" None))).

(** [environment: async ({ findAvailablePort }) =>
      ({ PORT: await findAvailablePort() })] *)
Definition portScript : EnvScript :=
  EnvFindPort (fun r =>
    match r with
    | inr port => EnvDone [("PORT", EnvNum port)]
    | inl error => EnvThrow error
    end).

(** Ports 3002, 3003 and 3004 are in use. *)
Definition lowPortsBusy (port : Z) : bool := (3002 <=? port) && (port <=? 3004).

(** The worktree [feat] exists; the configuration asks for a port. *)
Definition withEnvironment : Sim.world :=
  Sim.mkWorld [feat; configFile] [no] [] []
    lowPortsBusy ["M0"] []
    (inr (Some (mkConfig "./layout.kdl" (Some portScript)))).

(** Only 3006 and 3007 are free. *)
Definition onlyPairFree : Sim.world :=
  Sim.mkWorld [] [] [] []
    (fun port => negb ((port =? 3006) || (port =? 3007))) [] [] (inr None).

(** Only 3999 and 4000 are free. *)
Definition edgeOfRange : Sim.world :=
  Sim.mkWorld [] [] [] []
    (fun port => negb ((port =? 3999) || (port =? 4000))) [] [] (inr None).

(** No worktree yet; the configuration is in place; the operator keeps
    the worktree after the session. *)
Definition fresh : Sim.world :=
  Sim.mkWorld [configFile] [no] [] []
    (fun _ => false) ["M0"] []
    (inr (Some (mkConfig "./layout.kdl" None))).

(** A repository whose [.gitignore] has two rules and not the one for
    the worktrees. *)
Definition ignoreFile : string := "node_modules" +++ Js.nl +++ "dist" +++ Js.nl.

Definition someIgnores : Disk.world := Disk.mkWorld [(".gitignore", ignoreFile)].

(** A repository on which [init] has run: the rule is there, indented. *)
Definition initialised : Disk.world :=
  Disk.mkWorld
    [(".gitignore", "node_modules" +++ Js.nl +++ "  .wt/worktrees" +++ Js.nl);
     (".wt/config.ts", defaultConfig);
     (".wt/layout.kdl", zellijLayout)].

(** [git worktree list --porcelain] lists the main worktree and the
    worktrees [a] and [b]. *)
Definition listed : Sim.world :=
  Sim.mkWorld [worktreeA; worktreeB] [] []
    [(gitWorktreeList,
      porcelainEntry "/repo" "1111111" "refs/heads/main"
      +++ porcelainOf "/repo/.wt/worktrees/" [("a", "2222222"); ("b", "3333333")])]
    (fun _ => false) ["M0"] [] (inr None).

(** The worktree [feat] and the configuration are there; the only
    session listed is [wt-feature]. *)
Definition otherSession : Sim.world :=
  Sim.mkWorld [feat; configFile] [] []
    [(["zellij"; "list-sessions"; "-ns"], "wt-feature" +++ Js.nl)]
    (fun _ => false) ["M0"] []
    (inr (Some (mkConfig "./layout.kdl" None))).

(** The same, and [zellij list-sessions] fails. *)
Definition noSessions : Sim.world :=
  Sim.mkWorld [feat; configFile] [] [["zellij"; "list-sessions"; "-ns"]] []
    (fun _ => false) ["M0"] []
    (inr (Some (mkConfig "./layout.kdl" None))).

(** No worktree yet, and the copy of the scaffold fails. *)
Definition copyFails : Sim.world :=
  Sim.mkWorld [configFile] [no] [copyLocal feat] []
    (fun _ => false) ["M0"] []
    (inr (Some (mkConfig "./layout.kdl" None))).

(** The worktree [feat] exists, the configuration asks for a port, and
    every port is in use. *)
Definition allPortsBusy : Sim.world :=
  Sim.mkWorld [feat; configFile] [no] [] []
    (fun _ => true) ["M0"] []
    (inr (Some (mkConfig "./layout.kdl" (Some portScript)))).

(** [git log] fails on the branch of the worktree [feat]. *)
Definition logFails : Sim.world :=
  Sim.mkWorld [feat] [yes] [gitLogOneline "feat"] []
    (fun _ => false) ["M0"] [] (inr None).

(** The worktree [feat] exists and the operator consents to its cleanup
    after the session. *)
Definition cleanupAfterSession : Sim.world :=
  Sim.mkWorld [feat; configFile] [yes] [] []
    (fun _ => false) ["M0"] []
    (inr (Some (mkConfig "./layout.kdl" None))).

(** The worktree of the earlier revision exists; only 3006 and 3007 are
    free. *)
Definition earlierPairFree : Sim.world :=
  Sim.mkWorld ["/workspaces/worktree-feat"] [no] [] []
    (fun port => negb ((port =? 3006) || (port =? 3007))) ["M0"] [] (inr None).

(** The same worktree, and no port is free. *)
Definition earlierNoPort : Sim.world :=
  Sim.mkWorld ["/workspaces/worktree-feat"] [no] [] []
    (fun _ => true) ["M0"] [] (inr None).

(** Not a git repository: [git worktree list] fails. *)
Definition notARepository : Sim.world :=
  Sim.mkWorld [] [yes] [gitWorktreeList] []
    (fun _ => false) [] [] (inr None).

(** No label is given and [humanId] answers [brave-otter]. *)
Definition unnamed : Sim.world :=
  Sim.mkWorld [configFile] [no] [] []
    (fun _ => false) ["M0"] ["brave-otter"]
    (inr (Some (mkConfig "./layout.kdl" None))).

(** The branch [feat] has unmerged commits and the operator declines
    the cherry-pick. *)
Definition declined : Sim.world :=
  Sim.mkWorld [feat] [no] []
    [(gitLogOneline "feat", unmergedLog)]
    (fun _ => false) ["M0"] [] (inr None).

(** The same branch, and the input is at its end:
    [wt cleanup feat < /dev/null]. *)
Definition inputEnded : Sim.world :=
  Sim.mkWorld [feat] [] []
    [(gitLogOneline "feat", unmergedLog)]
    (fun _ => false) ["M0"] [] (inr None).

(** A merged branch and nothing typed: no question is asked. *)
Definition merged : Sim.world :=
  Sim.mkWorld [feat] [] [] []
    (fun _ => false) ["M0"] [] (inr None).

(** Two registered worktrees; the batch is confirmed and the input ends
    there; the branch [a] has unmerged commits. *)
Definition batchInputEnded : Sim.world :=
  Sim.mkWorld [worktreeA; worktreeB] [yes] []
    [(gitWorktreeList, porcelain); (gitLogOneline "a", unmergedLog)]
    (fun _ => false) ["M0"] [] (inr None).

End Scenario.

(* ================================================================== *)
(** * Strings: the output of git rev-list, and the label syntax *)
(* ================================================================== *)

Lemma append_nil_r (s : string) : s +++ "" = s.
Proof. induction s as [|c s IH]; cbn; congruence. Qed.

Lemma append_assoc (s t u : string) : (s +++ t) +++ u = s +++ t +++ u.
Proof. induction s as [|c s IH]; cbn; congruence. Qed.

Lemma trimEnd_app_solid s t :
  allChars (fun c => negb (Js.isWhiteSpace c)) s = true ->
  Js.trimEnd (s +++ t) = s +++ Js.trimEnd t.
Proof.
  induction s as [|c s IH]; cbn [allChars String.append Js.trimEnd]; [reflexivity|].
  intros Hs. apply andb_prop in Hs as [Hc Hs].
  apply negb_true_iff in Hc. rewrite Hc, (IH Hs). reflexivity.
Qed.

Lemma trimStart_solid s :
  hashLike s = true -> Js.trimStart s = s.
Proof.
  destruct s as [|c s]; [reflexivity|]. unfold hashLike. cbn.
  intros Hs. apply andb_prop in Hs as [Hc _].
  apply negb_true_iff in Hc. now rewrite Hc.
Qed.

Lemma trim_solid s : hashLike s = true -> Js.trim s = s.
Proof.
  intros Hs. unfold Js.trim. rewrite (trimStart_solid _ Hs).
  unfold hashLike in Hs. apply andb_prop in Hs as [_ Hs].
  rewrite <- (append_nil_r s) at 1. rewrite (trimEnd_app_solid _ _ Hs).
  cbn. apply append_nil_r.
Qed.

Lemma split_app_solid s t :
  allChars (fun c => negb (Js.isWhiteSpace c)) s = true ->
  Js.split Js.LF (s +++ t)
  = (s +++ hd "" (Js.split Js.LF t)) :: tl (Js.split Js.LF t).
Proof.
  induction s as [|c s IH]; cbn [allChars String.append].
  - intros _. cbn [String.append]. destruct t as [|c t]; [reflexivity|].
    cbn [Js.split]. destruct (Ascii.eqb c Js.LF); [reflexivity|].
    now destruct (Js.split Js.LF t).
  - intros Hs. apply andb_prop in Hs as [Hc Hs]. cbn [Js.split].
    destruct (Ascii.eqb_spec c Js.LF) as [->|_]; [discriminate Hc|].
    now rewrite (IH Hs).
Qed.

Lemma split_line_break t :
  Js.split Js.LF (String Js.LF t) = "" :: Js.split Js.LF t.
Proof. reflexivity. Qed.

(** Trimming the output drops the final line break only, and the lines
    that remain are the commits. *)
Lemma split_trimEnd_revListOutput commit commits :
  Forall (fun c => hashLike c = true) (commit :: commits) ->
  Js.trimEnd (revListOutput (commit :: commits)) <> ""
  /\ Js.split Js.LF (Js.trimEnd (revListOutput (commit :: commits)))
     = commit :: commits.
Proof.
  revert commit. induction commits as [|next commits IH]; intros commit Hall.
  - inversion Hall as [|? ? Hc _]; subst. unfold hashLike in Hc.
    apply andb_prop in Hc as [Hne Hsolid].
    cbn [revListOutput]. rewrite (trimEnd_app_solid _ _ Hsolid). cbn.
    rewrite append_nil_r. split.
    + now destruct commit.
    + rewrite <- (append_nil_r commit) at 1.
      rewrite (split_app_solid _ _ Hsolid). cbn. now rewrite append_nil_r.
  - inversion Hall as [|? ? Hc Hrest]; subst. unfold hashLike in Hc.
    apply andb_prop in Hc as [Hne Hsolid].
    destruct (IH next Hrest) as [Hnonempty Hsplit].
    change (revListOutput (commit :: next :: commits))
      with (commit +++ Js.nl +++ revListOutput (next :: commits)).
    rewrite (trimEnd_app_solid _ _ Hsolid).
    change (Js.trimEnd (Js.nl +++ revListOutput (next :: commits)))
      with (if Js.isEmpty (Js.trimEnd (revListOutput (next :: commits)))
            then ""
            else String Js.LF (Js.trimEnd (revListOutput (next :: commits)))).
    destruct (Js.trimEnd (revListOutput (next :: commits))) as [|c rest] eqn:Htrim;
      [contradiction|].
    cbn [Js.isEmpty]. split.
    + now destruct commit.
    + rewrite (split_app_solid _ _ Hsolid), split_line_break.
      cbn [hd tl]. rewrite append_nil_r. now rewrite Hsplit.
Qed.

Lemma commitsOf_revListOutput commits :
  Forall (fun c => hashLike c = true) commits ->
  filter (fun c => Js.truthy (Js.trim c)) (commitsOf (revListOutput commits))
  = rev commits.
Proof.
  intros Hall. destruct commits as [|commit commits]; [reflexivity|].
  unfold commitsOf, Js.trim.
  assert (Hstart : Js.trimStart (revListOutput (commit :: commits))
                   = revListOutput (commit :: commits)).
  { inversion Hall as [|? ? Hc _]; subst. unfold hashLike in Hc.
    destruct commit as [|c commit]; [discriminate Hc|].
    cbn in Hc. apply andb_prop in Hc as [Hc _].
    apply negb_true_iff in Hc. cbn. now rewrite Hc. }
  rewrite Hstart.
  destruct (split_trimEnd_revListOutput commit commits Hall) as [_ ->].
  apply forallb_filter_id. rewrite forallb_forall. intros c Hin.
  apply in_rev in Hin. rewrite Forall_forall in Hall. specialize (Hall c Hin).
  fold (Js.trim c). rewrite (trim_solid _ Hall).
  unfold hashLike in Hall. now apply andb_prop in Hall as [Hne _].
Qed.

(* ================================================================== *)
(** * Port allocation *)
(* ================================================================== *)

Section PortFacts.
Context {W : Type} `{Host W}.

(** A probe reads the world and leaves it as it was. *)
Lemma isPortAvailable_run port (s : PState W) :
  isPortAvailable port s
  = (Returned (negb (host_port_in_use port (world s))),
     mkPState (world s)
       (log s ++ [Probed port (negb (host_port_in_use port (world s)))])).
Proof. reflexivity. Qed.

Lemma scanPorts_returned n : forall port (s : PState W) p s',
  scanPorts n port s = (Returned p, s') ->
  port <= p < port + Z.of_nat n
  /\ host_port_in_use p (world s) = false
  /\ (forall q, port <= q < p -> host_port_in_use q (world s) = true)
  /\ world s' = world s.
Proof.
  induction n as [|n IH]; intros port s p s' Hrun.
  - discriminate Hrun.
  - cbn in Hrun. unfold bind, isPortAvailable in Hrun.
    destruct (host_port_in_use port (world s)) eqn:Eport; cbn in Hrun.
    + apply IH in Hrun. cbn in Hrun.
      destruct Hrun as (Hrange & Hfree & Hmin & Hw).
      repeat split; try lia; auto.
      intros q Hq. destruct (Z.eq_dec q port) as [->|Hne]; auto.
      apply Hmin. lia.
    + injection Hrun as <- <-. cbn.
      repeat split; try lia; auto.
Qed.

Lemma scanPorts_thrown n : forall port (s : PState W) e s',
  scanPorts n port s = (Thrown e, s') ->
  forall q, port <= q < port + Z.of_nat n -> host_port_in_use q (world s) = true.
Proof.
  induction n as [|n IH]; intros port s e s' Hrun q Hq.
  - lia.
  - cbn in Hrun. unfold bind, isPortAvailable in Hrun.
    destruct (host_port_in_use port (world s)) eqn:Eport; cbn in Hrun.
    + destruct (Z.eq_dec q port) as [->|Hne]; auto.
      apply (IH _ _ _ _ Hrun q). lia.
    + discriminate Hrun.
Qed.

Lemma scanPorts_never_exits n : forall port (s : PState W) c s',
  scanPorts n port s <> (Exited c, s').
Proof.
  induction n as [|n IH]; intros port s c s' Hrun.
  - discriminate Hrun.
  - cbn in Hrun. unfold bind, isPortAvailable in Hrun.
    destruct (host_port_in_use port (world s)); cbn in Hrun.
    + exact (IH _ _ _ _ Hrun).
    + discriminate Hrun.
Qed.

(** The same three facts for the pair scan, together with the probes it
    makes: candidate [p] costs a probe of [p] and one of [p + 1]. *)
Lemma scanPairs_returned n : forall port (s : PState W) r s',
  Wtt.scanPairs n port s = (Returned r, s') ->
  exists p,
    r = Wtt.mkPortPair (p + 1) p
    /\ port <= p < port + Z.of_nat n
    /\ pairFree (world s) p = true
    /\ (forall q, port <= q < p -> pairFree (world s) q = false)
    /\ world s' = world s
    /\ exists before, log s' = log s ++ before ++ [Probed p true; Probed (p + 1) true].
Proof.
  induction n as [|n IH]; intros port s r s' Hrun.
  - discriminate Hrun.
  - cbn in Hrun. unfold bind, isPortAvailable in Hrun. cbn in Hrun.
    destruct (negb (host_port_in_use (port + 1) (world s))
              && negb (host_port_in_use port (world s))) eqn:Epair.
    + injection Hrun as <- <-. exists port. cbn.
      apply andb_prop in Epair as [E1 E2].
      repeat split; try lia; auto.
      * unfold pairFree. now rewrite E1, E2.
      * exists []. rewrite E1, E2, <- app_assoc. reflexivity.
    + apply IH in Hrun. cbn in Hrun.
      destruct Hrun as (p & -> & Hrange & Hfree & Hmin & Hw & before & Hlog).
      exists p. repeat split; try lia; auto.
      * intros q Hq. destruct (Z.eq_dec q port) as [->|Hne]; auto.
        apply Hmin. lia.
      * exists ([Probed port (negb (host_port_in_use port (world s)));
                 Probed (port + 1) (negb (host_port_in_use (port + 1) (world s)))]
                ++ before).
        rewrite Hlog, <- !app_assoc. reflexivity.
Qed.

Lemma scanPairs_thrown n : forall port (s : PState W) e s',
  Wtt.scanPairs n port s = (Thrown e, s') ->
  forall q, port <= q < port + Z.of_nat n -> pairFree (world s) q = false.
Proof.
  induction n as [|n IH]; intros port s e s' Hrun q Hq.
  - lia.
  - cbn in Hrun. unfold bind, isPortAvailable in Hrun. cbn in Hrun.
    destruct (negb (host_port_in_use (port + 1) (world s))
              && negb (host_port_in_use port (world s))) eqn:Epair.
    + discriminate Hrun.
    + destruct (Z.eq_dec q port) as [->|Hne]; auto.
      apply (IH _ _ _ _ Hrun q). lia.
Qed.

Lemma scanPairs_never_exits n : forall port (s : PState W) c s',
  Wtt.scanPairs n port s <> (Exited c, s').
Proof.
  induction n as [|n IH]; intros port s c s' Hrun.
  - discriminate Hrun.
  - cbn in Hrun. unfold bind, isPortAvailable in Hrun. cbn in Hrun.
    destruct (negb (host_port_in_use (port + 1) (world s))
              && negb (host_port_in_use port (world s))).
    + discriminate Hrun.
    + exact (IH _ _ _ _ Hrun).
Qed.

(** The single-port scan over [n] candidates from [port], in one
    statement. *)
Lemma scanPorts_spec n port (w : W) :
  (forall p,
      fst (scanPorts n port (start w)) = Returned p
      <-> (port <= p < port + Z.of_nat n
           /\ host_port_in_use p w = false
           /\ forall q, port <= q < p -> host_port_in_use q w = true))
  /\ ((exists e, fst (scanPorts n port (start w)) = Thrown e)
      <-> forall p, port <= p < port + Z.of_nat n -> host_port_in_use p w = true)
  /\ (fst (scanPorts n port (start w))
        = Thrown "Error: No port available in range 3002-4000"
      \/ exists p, fst (scanPorts n port (start w)) = Returned p).
Proof.
  assert (Hthrown : forall e s',
             scanPorts n port (start w) = (Thrown e, s') ->
             e = "Error: No port available in range 3002-4000").
  { generalize port (start w). clear port.
    induction n as [|n IH]; intros port s e s' Hrun.
    - cbn in Hrun. now injection Hrun as <- _.
    - cbn in Hrun. unfold bind, isPortAvailable in Hrun.
      destruct (host_port_in_use port (world s)); cbn in Hrun.
      + exact (IH _ _ _ _ Hrun).
      + discriminate Hrun. }
  destruct (scanPorts n port (start w)) as [[p'|e|c] s'] eqn:Erun; cbn.
  - apply scanPorts_returned in Erun. cbn in Erun.
    destruct Erun as (Hp' & Hfree' & Hmin' & _).
    split; [|split].
    + intros p. split.
      * intros [= <-]. auto.
      * intros (Hp & Hfree & Hmin). f_equal.
        destruct (Z.lt_trichotomy p p') as [Hlt|[Heq|Hgt]]; auto.
        -- rewrite Hmin' in Hfree by lia. discriminate.
        -- rewrite Hmin in Hfree' by lia. discriminate.
    + split.
      * intros [e He]. discriminate He.
      * intros Hall. rewrite Hall in Hfree' by lia. discriminate.
    + right. now exists p'.
  - pose proof (scanPorts_thrown _ _ _ _ _ Erun) as Hbusy. cbn in Hbusy.
    split; [|split].
    + intros p. split.
      * intros [=].
      * intros (Hp & Hfree & _). rewrite Hbusy in Hfree by lia. discriminate.
    + split; auto. intros _. now exists e.
    + left. f_equal. exact (Hthrown _ _ eq_refl).
  - exfalso. exact (scanPorts_never_exits _ _ _ _ _ Erun).
Qed.

(** Claim C7.  Single-port mode: whatever ports are in use,
    [findAvailablePort] returns [p] exactly when [p] is the smallest
    free port of 3002..3999; it throws exactly when every port of that
    range is in use, and then with the no-port-available error; it never
    ends the process.  In particular, with 3002, 3003 and 3004 in use
    and 3005 free it returns 3005. *)
Theorem findAvailablePort_smallest_free (w : W) :
  (forall p,
      fst (findAvailablePort (start w)) = Returned p
      <-> (3002 <= p < 4000
           /\ host_port_in_use p w = false
           /\ forall q, 3002 <= q < p -> host_port_in_use q w = true))
  /\ ((exists e, fst (findAvailablePort (start w)) = Thrown e)
      <-> forall p, 3002 <= p < 4000 -> host_port_in_use p w = true)
  /\ (fst (findAvailablePort (start w))
        = Thrown "Error: No port available in range 3002-4000"
      \/ exists p, fst (findAvailablePort (start w)) = Returned p)
  /\ (host_port_in_use 3002 w = true -> host_port_in_use 3003 w = true ->
      host_port_in_use 3004 w = true -> host_port_in_use 3005 w = false ->
      fst (findAvailablePort (start w)) = Returned 3005).
Proof.
  unfold findAvailablePort.
  pose proof (scanPorts_spec (Z.to_nat (4000 - 3002)) 3002 w) as Hspec.
  change (3002 + Z.of_nat (Z.to_nat (4000 - 3002))) with 4000 in Hspec.
  destruct Hspec as (Hret & Hthrow & Hends).
  split; [exact Hret | split; [exact Hthrow | split; [exact Hends |]]].
  intros H2 H3 H4 H5. apply Hret. repeat apply conj; auto; try lia.
  intros q Hq.
  assert (q = 3002 \/ q = 3003 \/ q = 3004) as [->|[->| ->]] by lia; auto.
Qed.

(** The pair scan over [n] candidates from [port], in one statement. *)
Lemma scanPairs_spec n port (w : W) :
  (forall r,
      fst (Wtt.scanPairs n port (start w)) = Returned r
      <-> exists p,
            r = Wtt.mkPortPair (p + 1) p
            /\ port <= p < port + Z.of_nat n
            /\ pairFree w p = true
            /\ forall q, port <= q < p -> pairFree w q = false)
  /\ ((exists e, fst (Wtt.scanPairs n port (start w)) = Thrown e)
      <-> forall p, port <= p < port + Z.of_nat n -> pairFree w p = false)
  /\ (forall r, fst (Wtt.scanPairs n port (start w)) = Returned r ->
      In (Wtt.adminPort r) (probes (log (snd (Wtt.scanPairs n port (start w)))))).
Proof.
  destruct (Wtt.scanPairs n port (start w)) as [[r'|e|c] s'] eqn:Erun; cbn.
  - apply scanPairs_returned in Erun. cbn in Erun.
    destruct Erun as (p' & -> & Hp' & Hfree' & Hmin' & _ & before & Hlog).
    split; [|split].
    + intros r. split.
      * intros [= <-]. exists p'. auto.
      * intros (p & -> & Hp & Hfree & Hmin).
        destruct (Z.lt_trichotomy p p') as [Hlt|[Heq|Hgt]].
        -- rewrite Hmin' in Hfree by lia. discriminate.
        -- now subst p.
        -- rewrite Hmin in Hfree' by lia. discriminate.
    + split.
      * intros [e He]. discriminate He.
      * intros Hall. rewrite Hall in Hfree' by lia. discriminate.
    + intros r [= <-]. cbn. rewrite Hlog. unfold probes.
      rewrite flat_map_app. apply in_or_app. right. cbn. auto.
  - pose proof (scanPairs_thrown _ _ _ _ _ Erun) as Hbusy. cbn in Hbusy.
    split; [|split].
    + intros r. split.
      * intros [=].
      * intros (p & _ & Hp & Hfree & _). rewrite Hbusy in Hfree by lia. discriminate.
    + split; auto. intros _. now exists e.
    + intros r [=].
  - exfalso. exact (scanPairs_never_exits _ _ _ _ _ Erun).
Qed.

(** Claim C6.  Adjacent-pair mode: whatever ports are in use,
    [findAvailablePorts] returns a pair exactly when it is built from
    the first candidate [p] of 3002..3999, in ascending order, with [p]
    and [p + 1] both free; [adminPort] is the higher port [p + 1] and
    [webhookPort] the lower port [p]; it throws exactly when no candidate
    qualifies.  With 3006 and 3007 the only free ports it returns
    [adminPort] 3007 and [webhookPort] 3006. *)
Theorem findAvailablePorts_first_free_pair (w : W) :
  (forall r,
      fst (Wtt.findAvailablePorts (start w)) = Returned r
      <-> exists p,
            r = Wtt.mkPortPair (p + 1) p
            /\ 3002 <= p < 4000
            /\ (host_port_in_use p w = false /\ host_port_in_use (p + 1) w = false)
            /\ forall q, 3002 <= q < p ->
                 ~ (host_port_in_use q w = false /\ host_port_in_use (q + 1) w = false))
  /\ ((exists e, fst (Wtt.findAvailablePorts (start w)) = Thrown e)
      <-> forall p, 3002 <= p < 4000 ->
            ~ (host_port_in_use p w = false /\ host_port_in_use (p + 1) w = false))
  /\ ((forall q, host_port_in_use q w = negb ((q =? 3006) || (q =? 3007))) ->
      fst (Wtt.findAvailablePorts (start w)) = Returned (Wtt.mkPortPair 3007 3006)).
Proof.
  assert (Hpair : forall q,
             pairFree w q = true
             <-> host_port_in_use q w = false /\ host_port_in_use (q + 1) w = false).
  { intros q. unfold pairFree.
    destruct (host_port_in_use q w), (host_port_in_use (q + 1) w); cbn; intuition congruence. }
  assert (Hnopair : forall q,
             pairFree w q = false
             <-> ~ (host_port_in_use q w = false /\ host_port_in_use (q + 1) w = false)).
  { intros q. rewrite <- Hpair. destruct (pairFree w q); intuition congruence. }
  unfold Wtt.findAvailablePorts.
  pose proof (scanPairs_spec (Z.to_nat (4000 - 3002)) 3002 w) as Hspec.
  change (3002 + Z.of_nat (Z.to_nat (4000 - 3002))) with 4000 in Hspec.
  destruct Hspec as (Hret & Hthrow & _).
  split; [|split].
  - intros r. rewrite Hret. split.
    + intros (p & Hr & Hp & Hfree & Hmin). exists p.
      split; [exact Hr|]. split; [exact Hp|]. split; [now apply Hpair|].
      intros q Hq. apply Hnopair. now apply Hmin.
    + intros (p & Hr & Hp & Hfree & Hmin). exists p.
      split; [exact Hr|]. split; [exact Hp|]. split; [now apply Hpair|].
      intros q Hq. apply Hnopair. now apply Hmin.
  - rewrite Hthrow. split.
    + intros Hall p Hp. apply Hnopair. now apply Hall.
    + intros Hall p Hp. apply Hnopair. now apply Hall.
  - intros Hocc. apply Hret. exists 3006.
    split; [reflexivity|]. split; [lia|]. split.
    + unfold pairFree. now rewrite !Hocc.
    + intros q Hq. unfold pairFree. rewrite !Hocc.
      destruct (Z.eqb_spec q 3006); [lia|].
      destruct (Z.eqb_spec q 3007); [lia|]. cbn. apply andb_false_r.
Qed.

(** Claim C10.  The pair scan reaches past the range: when no candidate
    below 3999 qualifies and 3999 and 4000 are both free,
    [findAvailablePorts] probes port 4000 and returns it as [adminPort],
    although 4000 is not in [3002, 4000). *)
Theorem findAvailablePorts_returns_port_4000 (w : W) :
  (forall q, 3002 <= q < 3999 ->
     ~ (host_port_in_use q w = false /\ host_port_in_use (q + 1) w = false)) ->
  host_port_in_use 3999 w = false ->
  host_port_in_use 4000 w = false ->
  fst (Wtt.findAvailablePorts (start w)) = Returned (Wtt.mkPortPair 4000 3999)
  /\ In 4000 (probes (log (snd (Wtt.findAvailablePorts (start w)))))
  /\ ~ (3002 <= 4000 < 4000).
Proof.
  intros Hnone H3999 H4000.
  unfold Wtt.findAvailablePorts.
  pose proof (scanPairs_spec (Z.to_nat (4000 - 3002)) 3002 w) as Hspec.
  change (3002 + Z.of_nat (Z.to_nat (4000 - 3002))) with 4000 in Hspec.
  destruct Hspec as (Hret & _ & Hprobed).
  assert (Hrun : fst (Wtt.scanPairs (Z.to_nat (4000 - 3002)) 3002 (start w))
                 = Returned (Wtt.mkPortPair 4000 3999)).
  { apply Hret. exists 3999.
    split; [reflexivity|]. split; [lia|]. split.
    - unfold pairFree. change (3999 + 1) with 4000. now rewrite H3999, H4000.
    - intros q Hq. specialize (Hnone q Hq). unfold pairFree.
      destruct (host_port_in_use q w), (host_port_in_use (q + 1) w); cbn; auto.
      exfalso. auto. }
  split; [exact Hrun|]. split; [|lia].
  exact (Hprobed _ Hrun).
Qed.

End PortFacts.

(* ================================================================== *)
(** * Sequences of shell commands that stop at the first failure *)
(* ================================================================== *)

Lemma FailFast_cons_ok cmd plan trace failure :
  FailFast plan trace failure ->
  FailFast (cmd :: plan) (succeeded cmd :: trace) failure.
Proof.
  intros Hff. destruct Hff as [plan|pre c post code Hcode].
  - exact (ff_all (cmd :: plan)).
  - exact (ff_stop (cmd :: pre) c post code Hcode).
Qed.

Lemma FailFast_cons_stop cmd plan code :
  code <> 0 -> FailFast (cmd :: plan) [(cmd, code)] (Some code).
Proof. intros Hcode. exact (ff_stop [] cmd plan code Hcode). Qed.

Lemma FailFast_app plan1 plan2 trace2 failure :
  FailFast plan2 trace2 failure ->
  FailFast (plan1 ++ plan2) (map succeeded plan1 ++ trace2) failure.
Proof.
  intros Hff. induction plan1 as [|cmd plan1 IH]; cbn; auto.
  now apply FailFast_cons_ok.
Qed.

Lemma FailFast_app_stop plan1 trace1 plan2 code :
  FailFast plan1 trace1 (Some code) ->
  FailFast (plan1 ++ plan2) trace1 (Some code).
Proof.
  intros Hff. inversion Hff as [|pre c post code' Hcode]; subst.
  rewrite <- app_assoc. cbn. now apply ff_stop.
Qed.

Lemma FailFast_all_inv plan trace :
  FailFast plan trace None -> trace = map succeeded plan.
Proof. intros Hff. now inversion Hff. Qed.

(** Every command of a trace comes from the plan. *)
Lemma FailFast_in_plan plan trace failure cmd code :
  FailFast plan trace failure -> In (cmd, code) trace -> In cmd plan.
Proof.
  intros Hff Hin. destruct Hff as [plan|pre c post z Hz].
  - apply in_map_iff in Hin as (x & [= <- _] & Hx). exact Hx.
  - apply in_app_or in Hin as [Hin|[[= <- _]|[]]].
    + apply in_map_iff in Hin as (x & [= <- _] & Hx).
      apply in_or_app. now left.
    + apply in_or_app. right. now left.
Qed.

(** A command of the trace that failed is its last one. *)
Lemma FailFast_failed plan trace failure cmd code :
  FailFast plan trace failure -> In (cmd, code) trace -> code <> 0 ->
  exists pre post,
    plan = pre ++ cmd :: post
    /\ trace = map succeeded pre ++ [(cmd, code)]
    /\ failure = Some code.
Proof.
  intros Hff Hin Hcode. destruct Hff as [plan|pre c post z Hz].
  - apply in_map_iff in Hin as (x & [= _ <-] & _). now elim Hcode.
  - apply in_app_or in Hin as [Hin|[[= <- <-]|[]]].
    + apply in_map_iff in Hin as (x & [= _ <-] & _). now elim Hcode.
    + now exists pre, post.
Qed.


Lemma split_after {B} (l1 l2 pre post : list B) (y : B) :
  pre ++ y :: post = l1 ++ l2 ->
  ~ In y l1 ->
  exists pre2, pre = l1 ++ pre2 /\ pre2 ++ y :: post = l2.
Proof.
  revert pre. induction l1 as [|x l1 IH]; intros pre Heq Hnotin; cbn in Heq.
  - now exists pre.
  - destruct pre as [|p pre]; cbn in Heq.
    + injection Heq as -> _. exfalso. apply Hnotin. now left.
    + injection Heq as -> Heq.
      destruct (IH pre Heq) as (pre2 & -> & Hpre2).
      * intros Hin. apply Hnotin. now right.
      * now exists pre2.
Qed.

(* ================================================================== *)
(** * Runs of the cleanup *)
(* ================================================================== *)

Section CleanupFacts.
Context {W : Type} `{Host W}.

Lemma commands_app (l1 l2 : list Event) :
  commands (l1 ++ l2) = commands l1 ++ commands l2.
Proof. apply flat_map_app. Qed.

Lemma commands_cons e (l : list Event) : commands (e :: l) = commandOf e ++ commands l.
Proof. reflexivity. Qed.

Lemma commands_nil : commands [] = [].
Proof. reflexivity. Qed.

Lemma reads_app (l1 l2 : list Event) : reads (l1 ++ l2) = reads l1 ++ reads l2.
Proof. apply flat_map_app. Qed.

Lemma reads_cons e (l : list Event) : reads (e :: l) = readOf e ++ reads l.
Proof. reflexivity. Qed.

Lemma reads_nil : reads [] = [].
Proof. reflexivity. Qed.

Lemma banners_app (l1 l2 : list Event) : banners (l1 ++ l2) = banners l1 ++ banners l2.
Proof. apply flat_map_app. Qed.

Lemma banners_cons e (l : list Event) : banners (e :: l) = bannerOf e ++ banners l.
Proof. reflexivity. Qed.

Lemma banners_nil : banners [] = [].
Proof. reflexivity. Qed.

#[local] Arguments banners : simpl never.
#[local] Arguments reads : simpl never.
#[local] Arguments commands : simpl never.
#[local] Arguments shellError : simpl never.

(** One awaited shell command. *)
Lemma sh_run cmd (s : PState W) :
  exists code out w',
    host_shell cmd (world s) = (code, out, w')
    /\ sh cmd s
       = (if code =? 0 then Returned out else Thrown (shellError code),
          mkPState w' (log s ++ [Ran cmd code out])).
Proof.
  unfold sh, bind, shNothrow.
  destruct (host_shell cmd (world s)) as [[code out] w'].
  exists code, out, w'. split; [reflexivity|].
  now destruct (code =? 0).
Qed.

Lemma bind_sh {A} cmd (k : string -> M W A) (s : PState W) :
  exists code out w',
    host_shell cmd (world s) = (code, out, w')
    /\ bind (sh cmd) k s
       = (if code =? 0
          then k out (mkPState w' (log s ++ [Ran cmd code out]))
          else (Thrown (shellError code), mkPState w' (log s ++ [Ran cmd code out]))).
Proof.
  unfold bind at 1.
  destruct (sh_run cmd s) as (code & out & w' & Hsh & ->).
  exists code, out, w'. split; [exact Hsh|].
  now destruct (code =? 0).
Qed.

(** The loop cherry-picks the non-blank entries in array order and
    stops at the first failure. *)
Lemma cherryPickLoop_run commits : forall s : PState W,
  exists evs failure w',
    forOf commits cherryPickOne s
    = (thrownOr failure tt, mkPState w' (log s ++ evs))
    /\ Forall (fun e => exists commit code out, e = Ran (gitCherryPick commit) code out) evs
    /\ FailFast (map gitCherryPick (filter nonBlank commits)) (commands evs) failure.
Proof.
  induction commits as [|commit commits IH]; intros s.
  - exists [], None, (world s). cbn. rewrite app_nil_r. destruct s.
    repeat split; auto. exact (ff_all []).
  - cbn [forOf filter]. unfold bind at 1. unfold cherryPickOne at 1.
    fold (nonBlank commit). destruct (nonBlank commit).
    + unfold bind at 1.
      destruct (sh_run (gitCherryPick commit) s) as (code & out & w' & _ & ->).
      destruct (Z.eqb_spec code 0) as [->|Hcode]; cbn [ret].
      * destruct (IH (mkPState w' (log s ++ [Ran (gitCherryPick commit) 0 out])))
          as (evs & failure & w'' & -> & Hran & Hff).
        exists (Ran (gitCherryPick commit) 0 out :: evs), failure, w''.
        cbn [log]. rewrite <- app_assoc.
        repeat split; auto.
        -- constructor; eauto.
        -- cbn. now apply FailFast_cons_ok.
      * exists [Ran (gitCherryPick commit) code out], (Some code), w'.
        repeat split; auto.
        -- constructor; eauto.
        -- cbn. now apply FailFast_cons_stop.
    + cbn [ret]. apply IH.
Qed.

Lemma bind_run {A B} (m : M W A) (k : A -> M W B) (s s' : PState W) o :
  m s = (o, s') ->
  bind m k s
  = match o with
    | Returned a => k a s'
    | Thrown e => (Thrown e, s')
    | Exited c => (Exited c, s')
    end.
Proof. intros Hrun. unfold bind. now rewrite Hrun. Qed.

Lemma hasUnmergedCommits_run branch (s : PState W) :
  exists code out w',
    hasUnmergedCommits branch s
    = (Returned ((code =? 0) && negb (Js.isEmpty (Js.trim out))),
       mkPState w' (log s ++ [Ran (gitLogOneline branch) code out])).
Proof.
  unfold hasUnmergedCommits, tryCatch.
  fold (gitLogOneline branch).
  destruct (bind_sh (gitLogOneline branch)
              (fun out => ret (negb (Js.isEmpty (Js.trim out)))) s)
    as (code & out & w' & _ & ->).
  exists code, out, w'. now destruct (code =? 0).
Qed.

Lemma promptUser_run question (s : PState W) :
  promptUser question s
  = match host_stdin (world s) with
    | (Some data, w') =>
        (Returned (affirmative data),
         mkPState w' (log s ++ [Out (question +++ " (y/N): "); Read data]))
    | (None, w') =>
        (Exited 0, mkPState w' (log s ++ [Out (question +++ " (y/N): ")]))
    end.
Proof.
  unfold promptUser, readStdin, neverSettles, bind, emit, ret. cbn [world log].
  destruct (host_stdin (world s)) as [[data|] w']; cbn; [now rewrite <- app_assoc|].
  reflexivity.
Qed.

Lemma bind_promptUser {B} question (k : bool -> M W B) (s : PState W) :
  bind (promptUser question) k s
  = match host_stdin (world s) with
    | (Some data, w') =>
        k (affirmative data)
          (mkPState w' (log s ++ [Out (question +++ " (y/N): "); Read data]))
    | (None, w') =>
        (Exited 0, mkPState w' (log s ++ [Out (question +++ " (y/N): ")]))
    end.
Proof.
  unfold bind at 1. rewrite promptUser_run.
  now destruct (host_stdin (world s)) as [[data|] w'].
Qed.

End CleanupFacts.

Ltac simp_run :=
  repeat (progress
            (unfold consoleLog, consoleError, emit, ret, processExit, showError,
               failIf, cwd, existsSync;
             cbn [bind tryCatch world log fst snd negb thrownOr])).

Ltac run_sh :=
  match goal with
  | |- context [bind (sh ?cmd) ?k ?s] =>
      let code := fresh "code" in
      let out := fresh "out" in
      let w := fresh "w" in
      destruct (bind_sh cmd k s) as (code & out & w & _ & ->);
      destruct (Z.eqb_spec code 0) as [->|?];
      simp_run
  end.

Ltac flatten_log := simp_run; rewrite <- ?app_assoc; cbn [app].

Ltac views :=
  repeat (progress
            (rewrite ?banners_app, ?reads_app, ?commands_app,
               ?banners_cons, ?reads_cons, ?commands_cons,
               ?banners_nil, ?reads_nil, ?commands_nil));
  cbn.

(** Case analysis on a membership in an explicit list: impossible
    equations are dropped, the others are inverted. *)
Ltac split_ors H :=
  repeat match type of H with
         | _ \/ _ => destruct H as [H|H]
         | False => destruct H
         | In _ (_ :: _) => destruct H as [H|H]
         | In _ [] => destruct H
         | _ = _ => first [discriminate H | injection H as H; subst]
         end.

Ltac quiet :=
  repeat first
    [ assumption
    | apply Forall_nil
    | apply Forall_cons; [first [exact I | reflexivity] |]
    | apply Forall_app; split ].

Ltac run_prompt :=
  match goal with
  | |- context [bind (promptUser ?q) ?k ?s0] =>
      let data := fresh "data" in
      let w := fresh "w" in
      rewrite (bind_promptUser q k s0);
      cbn [world log];
      let w0 := eval cbn [world log] in (world s0) in
      let Hstdin := fresh "Hstdin" in
      destruct (host_stdin w0) as [[data|] w] eqn:Hstdin;
      cbn [world log fst snd]
  end.

Section CleanupRuns.
Context {W : Type} `{Host W}.

#[local] Arguments banners : simpl never.
#[local] Arguments reads : simpl never.
#[local] Arguments commands : simpl never.
#[local] Arguments shellError : simpl never.

Lemma removeAndDelete_run label path (s : PState W) :
  exists evs failure w',
    removeAndDelete label path s
    = (thrownOr failure tt, mkPState w' (log s ++ evs))
    /\ Forall Quiet evs /\ reads evs = []
    /\ FailFast [gitWorktreeRemove path; gitBranchDelete label; zellijDeleteSession label]
         (commands evs) failure.
Proof.
  unfold removeAndDelete. simp_run.
  run_sh; [run_sh; [run_sh|]|]; flatten_log.
  - eexists _, None, _. split; [reflexivity|]. split; [quiet|]. views.
    repeat split. exact (ff_all _).
  - eexists _, (Some code), _. split; [reflexivity|]. split; [quiet|]. views.
    repeat split. now apply FailFast_cons_ok, FailFast_cons_ok, FailFast_cons_stop.
  - eexists _, (Some code), _. split; [reflexivity|]. split; [quiet|]. views.
    repeat split. now apply FailFast_cons_ok, FailFast_cons_stop.
  - eexists _, (Some code), _. split; [reflexivity|]. split; [quiet|]. views.
    repeat split. now apply FailFast_cons_stop.
Qed.

Lemma picks_quiet (evs : list Event) :
  Forall (fun e => exists commit code out, e = Ran (gitCherryPick commit) code out) evs ->
  Forall Quiet evs /\ reads evs = []
  /\ forall label out, ~ In (Ran (gitRevList label) 0 out) evs.
Proof.
  induction 1 as [|e evs (commit & code & out & ->) _ (IHq & IHr & IHn)].
  - repeat split; auto.
  - repeat split.
    + constructor; [exact I | exact IHq].
    + views. exact IHr.
    + intros label o [[=]|Hin]. exact (IHn _ _ Hin).
Qed.

Lemma quiet_views (evs : list Event) :
  Forall Quiet evs ->
  banners evs = [] /\ writes evs = [] /\ spawns evs = [] /\ probes evs = [].
Proof.
  induction 1 as [|e evs He _ (IHb & IHw & IHs & IHp)]; [now repeat split|].
  unfold banners, writes, spawns, probes in *. cbn [flat_map].
  rewrite IHb, IHw, IHs, IHp, !app_nil_r.
  destruct e; cbn in He; try contradiction; now repeat split.
Qed.

Lemma cherryPickCommits_run label (s : PState W) :
  exists evs failure w' out,
    cherryPickCommits label s
    = (thrownOr failure tt, mkPState w' (log s ++ evs))
    /\ Forall Quiet evs /\ reads evs = []
    /\ FailFast (reconcilePlan label out) (commands evs) failure
    /\ (forall o, In (Ran (gitRevList label) 0 o) evs
                  <-> o = out /\ In (gitRevList label, 0) (commands evs)).
Proof.
  unfold cherryPickCommits, reconcilePlan. simp_run.
  run_sh; [run_sh|].
  - match goal with
    | |- context [bind (forOf ?l cherryPickOne) ?k ?s0] =>
        destruct (cherryPickLoop_run l s0) as (evs & failure & w' & Hloop & Hran & Hff);
        rewrite (bind_run _ k _ _ _ Hloop)
    end.
    destruct (picks_quiet _ Hran) as (Hq & Hr & Hnorev).
    destruct failure as [code|]; flatten_log.
    + eexists _, (Some code), _, out0. split; [reflexivity|].
      split; [quiet|]. views. rewrite Hr.
      split; [reflexivity|]. split; [now apply FailFast_cons_ok, FailFast_cons_ok|].
      intros o. split.
      * intros Hin. split_ors Hin; [auto|]. now apply Hnorev in Hin.
      * intros [-> _]. auto.
    + eexists _, None, _, out0. split; [reflexivity|].
      split; [quiet|]. views. rewrite Hr, ?app_nil_r.
      split; [reflexivity|]. split; [now apply FailFast_cons_ok, FailFast_cons_ok|].
      intros o. split.
      * intros Hin. split_ors Hin; [auto|].
        apply in_app_or in Hin. split_ors Hin. now apply Hnorev in Hin.
      * intros [-> _]. auto.
  - flatten_log. eexists _, (Some code), _, "". split; [reflexivity|].
    split; [quiet|]. views.
    split; [reflexivity|]. split; [now apply FailFast_cons_ok, FailFast_cons_stop|].
    intros o. split.
    + intros Hin. split_ors Hin. congruence.
    + intros [_ Hin]. split_ors Hin. congruence.
  - flatten_log. eexists _, (Some code), _, "". split; [reflexivity|].
    split; [quiet|]. views.
    split; [reflexivity|]. split; [now apply FailFast_cons_stop|].
    intros o. split.
    + intros Hin. split_ors Hin.
    + intros [_ Hin]. split_ors Hin.
Qed.

Lemma cleanupSteps_cases label path (s : PState W) :
  exists o evs w',
    cleanupSteps label path s = (o, mkPState w' (log s ++ evs))
    /\ ((exists failure,
            o = thrownOr failure tt
            /\ Forall Quiet evs
            /\ StepsShape label path evs failure)
        \/ (o = Exited 0 /\ Unanswered label evs)).
Proof.
  unfold cleanupSteps.
  destruct (hasUnmergedCommits_run label s) as (code0 & out0 & w0 & Hun).
  rewrite (bind_run _ _ _ _ _ Hun). clear Hun.
  destruct ((code0 =? 0) && negb (Js.isEmpty (Js.trim out0))) eqn:Hunmerged.
  - apply andb_prop in Hunmerged as [Hcode _].
    apply Z.eqb_eq in Hcode. subst code0.
    unfold bind at 1. simp_run. run_prompt;
      [|flatten_log; eexists _, _, _; split; [reflexivity|];
        right; split; [reflexivity|now exists out0]].
    destruct (affirmative data) eqn:Hyes.
    + match goal with
      | |- context [cherryPickCommits label ?s0] =>
          destruct (cherryPickCommits_run label s0)
            as (evs1 & failure1 & w1 & out & -> & Hq1 & Hr1 & Hff1 & Hout1)
      end.
      cbn [log]. destruct failure1 as [code|]; simp_run; flatten_log.
      * eexists _, _, _. split; [reflexivity|].
        left. exists (Some code). split; [reflexivity|].
        split; [quiet|].
        apply (steps_reconciled _ _ _ _ data out (commands evs1)).
        -- views. now rewrite Hr1.
        -- assumption.
        -- now views.
        -- now apply FailFast_app_stop.
        -- intros Hin. cbn. do 4 right. apply Hout1. now split.
      * match goal with
        | |- context [removeAndDelete label path ?s0] =>
            destruct (removeAndDelete_run label path s0)
              as (evs2 & failure2 & w2 & -> & Hq2 & Hr2 & Hff2)
        end.
        flatten_log.
        eexists _, _, _. split; [reflexivity|].
        left. exists failure2. split; [reflexivity|].
        split; [quiet|].
        apply (steps_reconciled _ _ _ _ data out (commands evs1 ++ commands evs2)).
        -- views. now rewrite Hr1, Hr2.
        -- assumption.
        -- now views.
        -- apply FailFast_all_inv in Hff1. rewrite Hff1.
           now apply FailFast_app.
        -- intros Hin. cbn. do 4 right. apply in_or_app. left.
           apply Hout1. split; [reflexivity|].
           apply in_app_or in Hin as [Hin|Hin]; [assumption|].
           exfalso. apply (FailFast_in_plan _ _ _ _ _ Hff2) in Hin.
           split_ors Hin.
    + match goal with
      | |- context [removeAndDelete label path ?s0] =>
          destruct (removeAndDelete_run label path s0)
            as (evs2 & failure2 & w2 & -> & Hq2 & Hr2 & Hff2)
      end.
      flatten_log.
      eexists _, _, _. split; [reflexivity|].
      left. exists failure2. split; [reflexivity|].
      split; [quiet|].
      apply (steps_direct _ _ _ _ 0 (commands evs2)); [now views | assumption |].
      right. exists data. split; [|assumption]. views. now rewrite Hr2.
  - unfold bind at 1. simp_run.
    match goal with
    | |- context [removeAndDelete label path ?s0] =>
        destruct (removeAndDelete_run label path s0)
          as (evs2 & failure2 & w2 & -> & Hq2 & Hr2 & Hff2)
    end.
    flatten_log.
    eexists _, _, _. split; [reflexivity|].
    left. exists failure2. split; [reflexivity|].
    split; [quiet|].
    apply (steps_direct _ _ _ _ code0 (commands evs2)); [now views | assumption |].
    left. views. now rewrite Hr2.
Qed.

Lemma cleanupSteps_run label path (s : PState W) :
  (exists evs failure w',
      cleanupSteps label path s = (thrownOr failure tt, mkPState w' (log s ++ evs))
      /\ Forall Quiet evs
      /\ StepsShape label path evs failure)
  \/ (exists evs w',
         cleanupSteps label path s = (Exited 0, mkPState w' (log s ++ evs))
         /\ Unanswered label evs).
Proof.
  destruct (cleanupSteps_cases label path s)
    as (o & evs & w' & -> & [(failure & -> & Hq & Hshape)|[-> Hasked]]).
  - left. now exists evs, failure, w'.
  - right. now exists evs, w'.
Qed.

(** Every run of [cleanupWorktree]: a message when the directory is
    absent; otherwise the [try] block, and the error report and exit
    when a command of the block failed; or the end of the process at
    the cherry-pick question when the input gives no answer. *)
Lemma cleanupWorktree_run label configDir (s : PState W) :
  let path := worktreePathOf (host_cwd (world s)) configDir label in
  (host_exists path (world s) = false
   /\ cleanupWorktree label configDir s
      = (Returned tt,
         mkPState (world s)
           (log s ++ [Out ("Worktree " +++ path +++ " does not exist.")])))
  \/ (host_exists path (world s) = true
      /\ exists evs failure w',
          cleanupWorktree label configDir s
          = (exitedOr failure,
             mkPState w'
               (log s ++ Out ("Cleaning up worktree: " +++ path)
                  :: evs ++ reportOf failure))
          /\ Forall Quiet evs
          /\ StepsShape label path evs failure)
  \/ (host_exists path (world s) = true
      /\ exists evs w',
          cleanupWorktree label configDir s
          = (Exited 0,
             mkPState w' (log s ++ Out ("Cleaning up worktree: " +++ path) :: evs))
          /\ Unanswered label evs).
Proof.
  intros path. unfold cleanupWorktree. simp_run. fold path.
  destruct (host_exists path (world s)) eqn:Hfound; simp_run.
  - right. unfold tryCatch.
    match goal with
    | |- context [cleanupSteps label path ?s0] =>
        destruct (cleanupSteps_run label path s0)
          as [(evs & failure & w' & -> & Hq & Hshape)|(evs & w' & -> & Hasked)]
    end.
    + left. split; [reflexivity|].
      exists evs, failure, w'. split; [|now split].
      destruct failure as [code|]; flatten_log.
      * reflexivity.
      * now rewrite app_nil_r.
    + right. split; [reflexivity|].
      exists evs, w'. split; [|assumption]. now flatten_log.
  - left. now split.
Qed.

Lemma Unanswered_commands label evs :
  Unanswered label evs -> commands evs = [(gitLogOneline label, 0)].
Proof. now intros [out ->]. Qed.

Lemma Unanswered_reads label evs : Unanswered label evs -> reads evs = [].
Proof. now intros [out ->]. Qed.

Lemma commands_report failure : commands (reportOf failure) = [].
Proof. now destruct failure. Qed.


Lemma log_report (failure : option Z) (evs : list Event) code :
  failure = Some code ->
  exists before,
    evs ++ reportOf failure
    = before ++ [Err ("Error: Failed to cleanup worktree: " +++ shellError code)].
Proof. intros ->. now exists evs. Qed.

(** A failed session deletion comes after a successful worktree removal
    and branch deletion, whatever preceded them in the plan. *)
Lemma removal_failed_at_session label path front trace failure code :
  FailFast (front ++ removalPlan label path) trace failure ->
  In (zellijDeleteSession label, code) trace -> code <> 0 ->
  ~ In (zellijDeleteSession label) front ->
  failure = Some code
  /\ In (gitWorktreeRemove path, 0) trace
  /\ In (gitBranchDelete label, 0) trace.
Proof.
  intros Hff Hin Hcode Hfront.
  destruct (FailFast_failed _ _ _ _ _ Hff Hin Hcode) as (pre & post & Hplan & -> & ->).
  symmetry in Hplan.
  apply split_after in Hplan as (pre2 & -> & Hpre2); [|assumption].
  unfold removalPlan in Hpre2.
  destruct pre2 as [|c1 [|c2 [|c3 pre2]]]; cbn in Hpre2;
    try (injection Hpre2 as Hpre2; discriminate).
  - injection Hpre2 as <- <- Hpre2. split; [reflexivity|].
    rewrite map_app. cbn. rewrite !in_app_iff. cbn. auto 10.
  - injection Hpre2 as _ _ _ Hpre2. now destruct pre2.
Qed.

(** Claim C2, as the code has it.  The session deletion is not
    best-effort: when [zellij delete-session] exits with a non-zero
    status, the worktree removal and the branch deletion have already
    succeeded, the failure is reported on the error stream, and the run
    ends with [process.exit(1)] instead of completing. *)
Theorem session_deletion_failure_is_fatal label configDir (w : W) code :
  In (zellijDeleteSession label, code)
     (commands (logOf (cleanupWorktree label configDir (start w)))) ->
  code <> 0 ->
  outcomeOf (cleanupWorktree label configDir (start w)) = Exited 1
  /\ In (gitWorktreeRemove (worktreePathOf (host_cwd w) configDir label), 0)
        (commands (logOf (cleanupWorktree label configDir (start w))))
  /\ In (gitBranchDelete label, 0)
        (commands (logOf (cleanupWorktree label configDir (start w))))
  /\ exists before,
       logOf (cleanupWorktree label configDir (start w))
       = before ++ [Err ("Error: Failed to cleanup worktree: " +++ shellError code)].
Proof.
  unfold outcomeOf, logOf.
  destruct (cleanupWorktree_run label configDir (start w))
    as [[_ ->]|[[_ (evs & failure & w' & -> & _ & Hshape)]
               |[_ (evs & w' & -> & Hasked)]]];
    cbn [fst snd log world start app].
  { intros []. }
  2:{ rewrite commands_cons, (Unanswered_commands _ _ Hasked).
      cbn [commandOf app]. intros [[=]|[]]. }
  rewrite commands_cons, commands_app, commands_report, app_nil_r.
  cbn [commandOf app].
  set (path := worktreePathOf (host_cwd w) configDir label) in *.
  intros Hin Hcode.
  assert (Hfail : failure = Some code
                  /\ In (gitWorktreeRemove path, 0) (commands evs)
                  /\ In (gitBranchDelete label, 0) (commands evs)).
  { destruct Hshape as [code0 trace Hcmds Hff _|data out trace _ _ Hcmds Hff _];
      rewrite Hcmds in *; destruct Hin as [[=]|Hin].
    - destruct (removal_failed_at_session label path [] trace failure code)
        as (Hf & Hrm & Hbr); auto.
      repeat split; auto; now right.
    - destruct (removal_failed_at_session label path (reconcilePlan label out)
                  trace failure code) as (Hf & Hrm & Hbr); auto.
      + unfold reconcilePlan. intros Hbad. split_ors Hbad.
        apply in_map_iff in Hbad as (? & [=] & _).
      + repeat split; auto; now right. }
  destruct Hfail as (-> & Hrm & Hbr).
  repeat split; auto.
  exists (Out ("Cleaning up worktree: " +++ path) :: evs). reflexivity.
Qed.

(** Every command of the [try] block is [git log], a command of the
    cherry-pick block, or a command of the removal. *)
Lemma steps_commands label path evs failure cmd code :
  StepsShape label path evs failure ->
  In (cmd, code) (commands evs) ->
  cmd = gitLogOneline label
  \/ (cmd = gitCheckoutMain \/ cmd = gitRevList label
      \/ exists commit, cmd = gitCherryPick commit)
  \/ In cmd (removalPlan label path).
Proof.
  intros Hshape Hin.
  destruct Hshape as [code0 trace Hcmds Hff _|data out trace _ _ Hcmds Hff _];
    rewrite Hcmds in Hin; destruct Hin as [[= <- _]|Hin]; auto;
    apply (FailFast_in_plan _ _ _ _ _ Hff) in Hin; auto.
  apply in_app_or in Hin as [Hin|Hin]; auto.
  unfold reconcilePlan in Hin. destruct Hin as [<-|[<-|Hin]]; auto.
  apply in_map_iff in Hin as (commit & <- & _). right. left. eauto.
Qed.


Lemma banner_is_banner label :
  bannerOf (Out (cleaningUpBanner label)) = [cleaningUpBanner label].
Proof. reflexivity. Qed.






(** The gate of the batch cleanup: unless the operator's answer is
    affirmative, nothing follows the question but a message. *)
Lemma cleanupAll_declined configDir (w : W) labels s1 answer w2 :
  getAllWorktrees configDir (start w) = (Returned labels, s1) ->
  labels <> [] ->
  host_stdin (world s1) = (Some answer, w2) ->
  affirmative answer = false ->
  cleanupAllWorktrees configDir (start w)
  = (Returned tt,
     mkPState w2
       (log s1 ++ [Out (foundMessage labels); Out (promptOf batchQuestion);
                   Read answer; Out "Cleanup cancelled."])).
Proof.
  intros Hget Hlabels Hstdin Hno.
  unfold cleanupAllWorktrees.
  rewrite (bind_run _ _ _ _ _ Hget).
  destruct labels as [|label labels]; [contradiction|].
  cbn [List.length Nat.eqb]. simp_run. rewrite bind_promptUser.
  cbn [world log]. rewrite Hstdin, Hno. simp_run. now rewrite <- !app_assoc.
Qed.

(** And when the input ends at the question, nothing follows it at
    all. *)
Lemma cleanupAll_unanswered configDir (w : W) labels s1 w2 :
  getAllWorktrees configDir (start w) = (Returned labels, s1) ->
  labels <> [] ->
  host_stdin (world s1) = (None, w2) ->
  cleanupAllWorktrees configDir (start w)
  = (Exited 0,
     mkPState w2 (log s1 ++ [Out (foundMessage labels); Out (promptOf batchQuestion)])).
Proof.
  intros Hget Hlabels Hstdin.
  unfold cleanupAllWorktrees.
  rewrite (bind_run _ _ _ _ _ Hget).
  destruct labels as [|label labels]; [contradiction|].
  cbn [List.length Nat.eqb]. simp_run. rewrite bind_promptUser.
  cbn [world log]. rewrite Hstdin. now rewrite <- !app_assoc.
Qed.

End CleanupRuns.

(* ================================================================== *)
(** * Runs of the creation *)
(* ================================================================== *)

Section CreateFacts.
Context {W : Type} `{Host W}.

#[local] Arguments banners : simpl never.
#[local] Arguments reads : simpl never.
#[local] Arguments commands : simpl never.
#[local] Arguments shellError : simpl never.

Lemma writes_app (l1 l2 : list Event) : writes (l1 ++ l2) = writes l1 ++ writes l2.
Proof. apply flat_map_app. Qed.

Lemma bind_ret {A B} (a : A) (k : A -> M W B) (s : PState W) :
  bind (ret a) k s = k a s.
Proof. reflexivity. Qed.

Lemma bind_assoc {A B C} (m : M W A) (f : A -> M W B) (g : B -> M W C) (s : PState W) :
  bind (bind m f) g s = bind m (fun a => bind (f a) g) s.
Proof. unfold bind. now destruct (m s) as [[a|e|c] s']. Qed.

Lemma bind_failIf_false {B} message (k : unit -> M W B) (s : PState W) :
  bind (failIf false message) k s = k tt s.
Proof. reflexivity. Qed.

Lemma bind_cwd {B} (k : string -> M W B) (s : PState W) :
  bind cwd k s = k (host_cwd (world s)) s.
Proof. reflexivity. Qed.

Lemma bind_existsSync {B} path (k : bool -> M W B) (s : PState W) :
  bind (existsSync path) k s = k (host_exists path (world s)) s.
Proof. reflexivity. Qed.

Lemma bind_consoleLog {B} text (k : unit -> M W B) (s : PState W) :
  bind (consoleLog text) k s = k tt (mkPState (world s) (log s ++ [Out text])).
Proof. reflexivity. Qed.

Lemma labelOk_truthy label : labelOk label = true -> Js.truthy label = true.
Proof. now destruct label. Qed.

Lemma bind_evalConfigFile {A} path (k : option Config -> M W A) (s : PState W) :
  bind (evalConfigFile path) k s
  = match host_eval_config path (world s) with
    | inl e => (Thrown e, s)
    | inr config => k config s
    end.
Proof.
  unfold bind, evalConfigFile. now destruct (host_eval_config path (world s)).
Qed.

(** The configuration loads without touching the world or the log, or
    the process ends after one error message. *)
Lemma loadConfig_run configDir (s : PState W) :
  (exists config,
      loadConfig configDir s = (Returned config, s)
      /\ host_exists (configDir +++ "/config.ts") (world s) = true
      /\ host_eval_config (configDir +++ "/config.ts") (world s) = inr (Some config)
      /\ Js.isEmpty (layout config) = false)
  \/ (exists message,
         loadConfig configDir s
         = (Exited 1, mkPState (world s) (log s ++ [Err message]))).
Proof.
  unfold loadConfig. simp_run.
  destruct (host_exists (configDir +++ "/config.ts") (world s)) eqn:Hfound; simp_run.
  2:{ right. eauto. }
  unfold tryCatch. rewrite bind_evalConfigFile.
  destruct (host_eval_config (configDir +++ "/config.ts") (world s))
    as [e|[config|]] eqn:Heval; simp_run.
  - right. eauto.
  - destruct (Js.isEmpty (layout config)) eqn:Hlayout; simp_run.
    + right. eauto.
    + left. exists config. destruct s. auto.
  - right. eauto.
Qed.

Lemma probes_only_views evs :
  ProbesOnly evs ->
  commands evs = [] /\ reads evs = [] /\ writes evs = [] /\ spawns evs = []
  /\ banners evs = [].
Proof.
  induction 1 as [|e evs (port & available & ->) _ IH]; [now repeat split|].
  exact IH.
Qed.

(** The port scan reads the world and appends its probes to the log. *)
Lemma scanPorts_frame n : forall port (w : W),
  exists o evs,
    ProbesOnly evs
    /\ forall l, scanPorts n port (mkPState w l) = (o, mkPState w (l ++ evs)).
Proof.
  induction n as [|n IH]; intros port w.
  - eexists _, []. split; [constructor|]. intros l. cbn. now rewrite app_nil_r.
  - cbn [scanPorts]. unfold bind, isPortAvailable. cbn [world log].
    destruct (host_port_in_use port w); cbn [negb].
    + destruct (IH (port + 1) w) as (o & evs & Hprobes & Hrun).
      exists o, (Probed port false :: evs). split; [constructor; eauto|].
      intros l. rewrite Hrun, <- app_assoc. reflexivity.
    + eexists _, [_]. split; [constructor; eauto; constructor|]. reflexivity.
Qed.

Lemma callEnvironment_frame script : forall w : W,
  exists o evs,
    ProbesOnly evs
    /\ forall l, callEnvironment script (mkPState w l) = (o, mkPState w (l ++ evs)).
Proof.
  induction script as [envVars|error|next IH]; intros w.
  - eexists _, []. split; [constructor|]. intros l. cbn. now rewrite app_nil_r.
  - eexists _, []. split; [constructor|]. intros l. cbn. now rewrite app_nil_r.
  - cbn [callEnvironment]. unfold findAvailablePort.
    destruct (scanPorts_frame (Z.to_nat (4000 - 3002)) 3002 w)
      as ([port|error|code] & evs & Hprobes & Hscan).
    + destruct (IH (inr port) w) as (o & evs' & Hprobes' & Hnext).
      exists o, (evs ++ evs'). split; [now apply Forall_app|].
      intros l. now rewrite Hscan, Hnext, <- app_assoc.
    + destruct (IH (inl error) w) as (o & evs' & Hprobes' & Hnext).
      exists o, (evs ++ evs'). split; [now apply Forall_app|].
      intros l. now rewrite Hscan, Hnext, <- app_assoc.
    + exists (Exited code), evs. split; [assumption|].
      intros l. now rewrite Hscan.
Qed.

Lemma loadConfig_ok configDir (s : PState W) config :
  host_exists (configDir +++ "/config.ts") (world s) = true ->
  host_eval_config (configDir +++ "/config.ts") (world s) = inr (Some config) ->
  Js.isEmpty (layout config) = false ->
  loadConfig configDir s = (Returned config, s).
Proof.
  intros Hfound Heval Hlayout.
  unfold loadConfig. simp_run. rewrite Hfound. simp_run.
  unfold tryCatch. rewrite bind_evalConfigFile, Heval, Hlayout. simp_run.
  now destruct s.
Qed.

Lemma bind_spawn {A} argv dir (k : Z -> M W A) (s : PState W) :
  bind (spawn argv dir) k s
  = match host_spawn argv dir (world s) with
    | (inr code, w') => k code (mkPState w' (log s ++ [Spawned argv dir (inr code)]))
    | (inl e, w') => (Thrown e, mkPState w' (log s ++ [Spawned argv dir (inl e)]))
    end.
Proof.
  unfold bind, spawn. now destruct (host_spawn argv dir (world s)) as [[e|code] w'].
Qed.

Lemma if_consoleLog (c : bool) a b :
  (if c then consoleLog a else consoleLog b) = @consoleLog W (if c then a else b).
Proof. now destruct c. Qed.

(** The gate after the session: unless the operator's answer is
    affirmative, nothing follows the question but a message. *)
Lemma session_cleanup_declined label configDir path layoutPath (s : PState W)
      code w1 answer w2 :
  host_spawn (zellijNewSession layoutPath ("wt-" +++ label)) path (world s)
  = (inr code, w1) ->
  host_stdin w1 = (Some answer, w2) ->
  affirmative answer = false ->
  sessionSteps label configDir path layoutPath s
  = (Returned tt,
     mkPState w2
       (log s ++ [Spawned (zellijNewSession layoutPath ("wt-" +++ label)) path (inr code);
                  Out (sessionMessage code);
                  Out "";
                  Out (promptOf (sessionQuestion label));
                  Read answer;
                  Out ("Worktree '" +++ label +++ "' preserved at " +++ path)])).
Proof.
  intros Hspawn Hstdin Hno. unfold sessionSteps, sessionMessage.
  rewrite bind_spawn, Hspawn, if_consoleLog.
  simp_run. rewrite bind_promptUser. cbn [world log]. rewrite Hstdin, Hno.
  simp_run. now rewrite <- !app_assoc.
Qed.

(** And when the input ends at the question, nothing follows it at
    all. *)
Lemma session_cleanup_unanswered label configDir path layoutPath (s : PState W)
      code w1 w2 :
  host_spawn (zellijNewSession layoutPath ("wt-" +++ label)) path (world s)
  = (inr code, w1) ->
  host_stdin w1 = (None, w2) ->
  sessionSteps label configDir path layoutPath s
  = (Exited 0,
     mkPState w2
       (log s ++ [Spawned (zellijNewSession layoutPath ("wt-" +++ label)) path (inr code);
                  Out (sessionMessage code);
                  Out "";
                  Out (promptOf (sessionQuestion label))])).
Proof.
  intros Hspawn Hstdin. unfold sessionSteps, sessionMessage.
  rewrite bind_spawn, Hspawn, if_consoleLog.
  simp_run. rewrite bind_promptUser. cbn [world log]. rewrite Hstdin.
  now rewrite <- !app_assoc.
Qed.

(** The session block: the session is spawned first; what follows
    writes no file and runs only commands of the cleanup. *)
Lemma sessionBlock_run label configDir path layoutPath (s : PState W) :
  exists evs o w' r,
    tryCatch (sessionSteps label configDir path layoutPath)
      (fun error => showError ("Failed to create zellij session: " +++ error)) s
    = (o, mkPState w'
            (log s ++ Spawned (zellijNewSession layoutPath ("wt-" +++ label)) path r
               :: evs))
    /\ writes evs = []
    /\ forall cmd code, In (cmd, code) (commands evs) -> cleanupCommand label cmd.
Proof.
  unfold tryCatch, sessionSteps. rewrite bind_spawn.
  destruct (host_spawn (zellijNewSession layoutPath ("wt-" +++ label)) path (world s))
    as [[e|code] w1]; cbn beta.
  - flatten_log. eexists [_], _, _, _. split; [reflexivity|].
    split; [reflexivity|]. intros cmd code [].
  - rewrite if_consoleLog. fold (sessionMessage code).
    simp_run. run_prompt.
    2:{ flatten_log. eexists _, _, _, _. split; [reflexivity|].
        split; [reflexivity|]. intros cmd c Hin. cbn in Hin. contradiction. }
    destruct (affirmative data); simp_run.
    + match goal with
      | |- context [cleanupWorktree label configDir ?s0] =>
          destruct (cleanupWorktree_run label configDir s0)
            as [[_ ->]|[[_ (evs & failure & w' & -> & Hq & Hshape)]
                       |[_ (evs & w' & -> & Hasked)]]]
      end; cbn [world log].
      * flatten_log. eexists _, _, _, _. split; [reflexivity|].
        split; [reflexivity|]. intros cmd c Hin. cbn in Hin. contradiction.
      * apply quiet_views in Hq as (_ & Hw & _).
        destruct failure as [c|]; cbn [exitedOr reportOf]; flatten_log;
          eexists _, _, _, _; (split; [reflexivity|]);
          (split; [unfold writes in *; rewrite ?flat_map_app; cbn;
                   rewrite ?flat_map_app, Hw; reflexivity|]);
          intros cmd c' Hin;
          rewrite !commands_cons, ?commands_app in Hin; cbn in Hin;
          rewrite ?app_nil_r in Hin;
          destruct (steps_commands _ _ _ _ _ _ Hshape Hin) as [Hc|[Hc|Hc]];
          unfold cleanupCommand; eauto.
      * destruct Hasked as [out ->].
        flatten_log. eexists _, _, _, _. split; [reflexivity|].
        split; [reflexivity|]. intros cmd c Hin. cbn in Hin.
        destruct Hin as [[= <- <-]|[]]. unfold cleanupCommand. auto.
    + flatten_log. eexists _, _, _, _. split; [reflexivity|].
      split; [reflexivity|]. intros cmd c Hin. cbn in Hin. contradiction.
Qed.

(** The environment block runs no command and asks nothing. *)
Lemma writeEnvironment_run config envPath (s : PState W) :
  exists evs o w',
    writeEnvironment config envPath s = (o, mkPState w' (log s ++ evs))
    /\ commands evs = [].
Proof.
  unfold writeEnvironment. destruct (environment config) as [script|].
  2:{ exists [], (Returned tt), (world s). cbn. rewrite app_nil_r. now destruct s. }
  destruct (callEnvironment_frame script (world s)) as (o & evs & Hprobes & Hrun).
  apply probes_only_views in Hprobes as (Hc & _).
  unfold bind at 1. destruct s as [w l]. cbn [world] in *. rewrite Hrun.
  destruct o as [envVars|error|code].
  - unfold bind at 1, writeFileSync. cbn [world log].
    destruct (host_write envPath (envContentOf envVars) w) as [e|w2].
    + eexists (evs ++ [_]), _, _. rewrite <- app_assoc. split; [reflexivity|].
      rewrite commands_app, Hc. reflexivity.
    + simp_run. eexists (evs ++ [_; _]), _, _. rewrite <- !app_assoc.
      split; [reflexivity|]. rewrite commands_app, Hc. reflexivity.
  - eexists evs, _, _. split; [reflexivity | assumption].
  - eexists evs, _, _. split; [reflexivity | assumption].
Qed.

Lemma writeEnvironment_none config envPath (s : PState W) :
  environment config = None ->
  writeEnvironment config envPath s = (Returned tt, s).
Proof. intros Hnone. unfold writeEnvironment. now rewrite Hnone. Qed.

Lemma writeEnvironment_some config envPath (w : W) l script envVars w2 :
  environment config = Some script ->
  outcomeOf (callEnvironment script (start w)) = Returned envVars ->
  host_write envPath (envContentOf envVars) w = inr w2 ->
  exists evs,
    writeEnvironment config envPath (mkPState w l)
    = (Returned tt,
       mkPState w2
         (l ++ evs ++ [Wrote envPath (envContentOf envVars) true;
                       Out "✓ Created .env.local"])).
Proof.
  intros Hsome Hcall Hwrite. unfold writeEnvironment. rewrite Hsome.
  destruct (callEnvironment_frame script w) as (o & evs & _ & Hrun).
  unfold start in Hcall. rewrite Hrun in Hcall. cbn in Hcall. subst o.
  exists evs. unfold bind at 1. rewrite Hrun.
  unfold bind at 1, writeFileSync. cbn [world log]. rewrite Hwrite.
  simp_run. now rewrite <- !app_assoc.
Qed.

Lemma cleanup_not_creation label cmd :
  cleanupCommand label cmd -> ~ creationCommand cmd.
Proof.
  intros Hc (path & l & Hcreate).
  destruct Hc as [->|[[->|[->|(commit & ->)]]|(p & Hin)]];
    try (destruct Hcreate as [Hx|[Hx|Hx]]; discriminate Hx).
  unfold removalPlan in Hin. cbn in Hin.
  destruct Hin as [<-|[<-|[<-|[]]]];
    destruct Hcreate as [Hx|[Hx|Hx]]; discriminate Hx.
Qed.

(** With a valid label and the directory present, [createWorktree] goes
    straight to the configuration. *)
Lemma createWorktree_existing label configDir (w : W) :
  labelOk label = true ->
  host_exists (worktreePathOf (host_cwd w) configDir label) w = true ->
  createWorktree (Some label) configDir (start w)
  = (config <- loadConfig configDir ;;
     writeEnvironment config
       (worktreePathOf (host_cwd w) configDir label +++ "/.env.local") ;;
     consoleLog "Creating zellij session..." ;;
     tryCatch
       (sessionSteps label configDir (worktreePathOf (host_cwd w) configDir label)
          (configDir +++ "/" +++ layout config))
       (fun error => showError ("Failed to create zellij session: " +++ error)))
      (mkPState w
         [Out ("Worktree already exists at "
               +++ worktreePathOf (host_cwd w) configDir label);
          Out "Opening Claude Code in existing worktree..."]).
Proof.
  intros Hok Hfound.
  unfold createWorktree, resolveLabel. rewrite (labelOk_truthy _ Hok).
  rewrite bind_ret, Hok. cbn [negb].
  rewrite bind_failIf_false, bind_cwd, bind_existsSync.
  cbn [world start]. rewrite Hfound.
  rewrite bind_assoc, !bind_consoleLog. reflexivity.
Qed.

(** When the [environment] function does not return, or the write of
    the file throws, the environment block does not return either. *)
Lemma writeEnvironment_stops config envPath (w : W) l script :
  environment config = Some script ->
  (forall envVars w2,
      outcomeOf (callEnvironment script (start w)) = Returned envVars ->
      host_write envPath (envContentOf envVars) w <> inr w2) ->
  exists evs o w',
    writeEnvironment config envPath (mkPState w l) = (o, mkPState w' (l ++ evs))
    /\ o <> Returned tt
    /\ flat_map spawnOf evs = [].
Proof.
  intros Hsome Hstops. unfold writeEnvironment. rewrite Hsome.
  destruct (callEnvironment_frame script w) as (o & evs & Hprobes & Hrun).
  apply probes_only_views in Hprobes as (_ & _ & _ & Hs & _).
  unfold bind at 1. rewrite Hrun.
  destruct o as [envVars|error|code].
  - unfold bind at 1, writeFileSync. cbn [world log].
    destruct (host_write envPath (envContentOf envVars) w) as [e|w2] eqn:Hwrite.
    + eexists (evs ++ [_]), _, _. rewrite <- app_assoc. split; [reflexivity|].
      split; [discriminate|]. rewrite flat_map_app. unfold spawns in Hs.
      now rewrite Hs.
    + exfalso. apply (Hstops envVars w2); [|exact Hwrite].
      unfold start, outcomeOf. now rewrite (Hrun []).
  - eexists evs, _, _. split; [reflexivity|]. split; [discriminate|exact Hs].
  - eexists evs, _, _. split; [reflexivity|]. split; [discriminate|exact Hs].
Qed.

(** Claim C4, as the code has it.  For a valid label whose worktree
    directory exists, [createWorktree] never runs [git worktree add],
    the scaffold copy or the dependency install.  When the
    configuration loads and has no [environment] function, no file is
    written and the session for that label is launched.  When it has
    one, and that function returns and the write succeeds, the
    environment file is rewritten and the session is launched.  When
    the function does not return, or the write fails, no session is
    launched and the run does not return. *)
Theorem create_on_existing_worktree label configDir (w : W) :
  labelOk label = true ->
  host_exists (worktreePathOf (host_cwd w) configDir label) w = true ->
  (forall cmd code,
      In (cmd, code) (commands (logOf (createWorktree (Some label) configDir (start w)))) ->
      ~ creationCommand cmd)
  /\ (forall config,
        ConfigLoads w configDir config ->
        environment config = None ->
        writes (logOf (createWorktree (Some label) configDir (start w))) = []
        /\ exists r,
            In (Spawned (zellijNewSession (configDir +++ "/" +++ layout config)
                           ("wt-" +++ label))
                  (worktreePathOf (host_cwd w) configDir label) r)
               (logOf (createWorktree (Some label) configDir (start w))))
  /\ (forall config script envVars w2,
        ConfigLoads w configDir config ->
        environment config = Some script ->
        outcomeOf (callEnvironment script (start w)) = Returned envVars ->
        host_write (worktreePathOf (host_cwd w) configDir label +++ "/.env.local")
          (envContentOf envVars) w = inr w2 ->
        In (Wrote (worktreePathOf (host_cwd w) configDir label +++ "/.env.local")
              (envContentOf envVars) true)
           (logOf (createWorktree (Some label) configDir (start w)))
        /\ exists r,
            In (Spawned (zellijNewSession (configDir +++ "/" +++ layout config)
                           ("wt-" +++ label))
                  (worktreePathOf (host_cwd w) configDir label) r)
               (logOf (createWorktree (Some label) configDir (start w))))
  /\ (forall config script,
        ConfigLoads w configDir config ->
        environment config = Some script ->
        (forall envVars w2,
            outcomeOf (callEnvironment script (start w)) = Returned envVars ->
            host_write (worktreePathOf (host_cwd w) configDir label +++ "/.env.local")
              (envContentOf envVars) w <> inr w2) ->
        spawns (logOf (createWorktree (Some label) configDir (start w))) = []
        /\ outcomeOf (createWorktree (Some label) configDir (start w)) <> Returned tt).
Proof.
  intros Hok Hfound. rewrite (createWorktree_existing _ _ _ Hok Hfound).
  set (path := worktreePathOf (host_cwd w) configDir label).
  set (l0 := [Out ("Worktree already exists at " +++ path);
              Out "Opening Claude Code in existing worktree..."]).
  unfold logOf, outcomeOf. split; [|split; [|split]].
  - intros cmd code.
    destruct (loadConfig_run configDir (mkPState w l0))
      as [(config & Hload & _)|(message & Hload)];
      rewrite (bind_run _ _ _ _ _ Hload); [|intros []].
    destruct (writeEnvironment_run config (path +++ "/.env.local") (mkPState w l0))
      as (evs & o & w' & Henv & Hcmds).
    rewrite (bind_run _ _ _ _ _ Henv).
    destruct o as [[]|e|c]; cbn [snd log];
      [|rewrite commands_app, Hcmds; intros []..].
    rewrite bind_consoleLog. cbn [world log].
    match goal with
    | |- context [tryCatch ?body ?handler ?s0] =>
        destruct (sessionBlock_run label configDir path
                    (configDir +++ "/" +++ layout config) s0)
          as (evsS & o & w'' & r & -> & _ & HcmdsS)
    end.
    cbn [snd log]. rewrite <- !app_assoc, !commands_app, Hcmds. cbn [app].
    rewrite !commands_cons. cbn [commandOf app].
    intros Hin. apply HcmdsS in Hin. now apply cleanup_not_creation in Hin.
  - intros config (Hex & Heval & Hlayout) Hnone.
    rewrite (bind_run _ _ _ _ _ (loadConfig_ok configDir (mkPState w l0) config Hex Heval Hlayout)).
    rewrite (bind_run _ _ _ _ _ (writeEnvironment_none config _ _ Hnone)).
    rewrite bind_consoleLog. cbn [world log].
    match goal with
    | |- context [tryCatch ?body ?handler ?s0] =>
        destruct (sessionBlock_run label configDir path
                    (configDir +++ "/" +++ layout config) s0)
          as (evsS & o & w'' & r & -> & HwS & _)
    end.
    cbn [snd log]. split.
    + unfold writes in *. rewrite !flat_map_app. cbn [flat_map writeOf app].
      rewrite HwS. reflexivity.
    + exists r. rewrite !in_app_iff. right. now left.
  - intros config script envVars w2 (Hex & Heval & Hlayout) Hsome Hcall Hwrite.
    rewrite (bind_run _ _ _ _ _ (loadConfig_ok configDir (mkPState w l0) config Hex Heval Hlayout)).
    destruct (writeEnvironment_some config _ w l0 script envVars w2 Hsome Hcall Hwrite)
      as (evs & Henv).
    rewrite (bind_run _ _ _ _ _ Henv).
    rewrite bind_consoleLog. cbn [world log].
    match goal with
    | |- context [tryCatch ?body ?handler ?s0] =>
        destruct (sessionBlock_run label configDir path
                    (configDir +++ "/" +++ layout config) s0)
          as (evsS & o & w'' & r & -> & _ & _)
    end.
    cbn [snd log]. split.
    + rewrite !in_app_iff. left. left. right. right. now left.
    + exists r. rewrite !in_app_iff. right. now left.
  - intros config script (Hex & Heval & Hlayout) Hsome Hstops.
    rewrite (bind_run _ _ _ _ _ (loadConfig_ok configDir (mkPState w l0) config Hex Heval Hlayout)).
    destruct (writeEnvironment_stops config _ w l0 script Hsome Hstops)
      as (evs & o & w' & Henv & Ho & Hspawns).
    rewrite (bind_run _ _ _ _ _ Henv).
    destruct o as [[]|e|c]; [now elim Ho| |]; cbn [fst snd log];
      (split; [|discriminate]);
      unfold spawns in *; rewrite flat_map_app, Hspawns; reflexivity.
Qed.

End CreateFacts.

(* ================================================================== *)
(** * Label validation *)
(* ================================================================== *)

Lemma inClass_labelChar c :
  Regex.inClass labelClass c = true <-> labelChar c.
Proof.
  unfold Regex.inClass, labelClass, Regex.inRange, labelChar.
  cbn [existsb fst snd]. rewrite !orb_true_iff, !andb_true_iff, !N.leb_le.
  cbn. lia.
Qed.

#[local] Arguments Regex.inClass : simpl never.

Lemma matchAny_nil s : Regex.matchAny [] s = false.
Proof. induction s as [|c s IH]; [reflexivity | exact IH]. Qed.

Lemma matchAny_rest cls s :
  Regex.matchAny [Regex.Seq Regex.Eps (Regex.Star (Regex.Class cls))] s
  = allChars (Regex.inClass cls) s.
Proof.
  induction s as [|c s IH]; [reflexivity|].
  cbn. destruct (Regex.inClass cls c); cbn; [exact IH | apply matchAny_nil].
Qed.

Lemma test_plus_class cls s :
  Regex.test (Regex.Plus (Regex.Class cls)) s
  = match s with
    | EmptyString => false
    | String c s' => Regex.inClass cls c && allChars (Regex.inClass cls) s'
    end.
Proof.
  destruct s as [|c s]; [reflexivity|].
  unfold Regex.test, Regex.Plus. cbn.
  destruct (Regex.inClass cls c); cbn;
    [apply matchAny_rest | apply matchAny_nil].
Qed.

Lemma labelOk_unfold s :
  labelOk s
  = match s with
    | EmptyString => false
    | String c s' =>
        Regex.inClass labelClass c && allChars (Regex.inClass labelClass) s'
    end.
Proof. apply test_plus_class. Qed.

Lemma allChars_labelChars s :
  allChars (Regex.inClass labelClass) s = true <-> allLabelChars s.
Proof.
  induction s as [|c s IH]; cbn [allChars allLabelChars]; [tauto|].
  now rewrite andb_true_iff, inClass_labelChar, IH.
Qed.

Lemma labelOk_syntax s : labelOk s = true <-> LabelSyntax s.
Proof.
  rewrite labelOk_unfold. unfold LabelSyntax. destruct s as [|c s].
  - split; [discriminate | intros [Hne _]; now elim Hne].
  - rewrite andb_true_iff, inClass_labelChar, allChars_labelChars.
    cbn [allLabelChars]. split; [intros Hs; split; [discriminate | exact Hs] | tauto].
Qed.

Section Claims.
Context {W : Type} `{Host W}.

#[local] Arguments banners : simpl never.
#[local] Arguments reads : simpl never.
#[local] Arguments commands : simpl never.
#[local] Arguments shellError : simpl never.

(** Claim C8, as the code has it.  The validation accepts a label
    exactly when it matches [A-Za-z0-9_-]+ in full.  Every other
    non-empty string is rejected by the [new], [open] and [cleanup]
    entry points alike, with an error message and exit status 1 before
    anything else happens; [open] rejects the empty string as well. *)
Theorem label_validation (label configDir : string) (w : W) :
  (labelOk label = true <-> LabelSyntax label)
  /\ (~ LabelSyntax label -> label <> "" ->
      newAction (Some label) configDir (start w) = rejected w
      /\ openAction label configDir (start w) = rejected w
      /\ cleanupAction (Some label) configDir (start w) = rejected w)
  /\ (~ LabelSyntax "" /\ openAction "" configDir (start w) = rejected w).
Proof.
  split; [apply labelOk_syntax|]. split.
  - intros Hbad Hne.
    assert (Hok : labelOk label = false).
    { destruct (labelOk label) eqn:Hok; [|reflexivity].
      elim Hbad. now apply labelOk_syntax. }
    assert (Htruthy : Js.truthy label = true) by now destruct label.
    unfold newAction, openAction, cleanupAction, createWorktree, resolveLabel, rejected.
    rewrite Htruthy, bind_ret, Hok. repeat split.
  - split; [intros [Hne _]; now elim Hne | reflexivity].
Qed.

(** For a label the validation accepts, [open] and [cleanup] go on to
    the operation itself. *)
Lemma valid_label_passes (label configDir : string) (s : PState W) :
  labelOk label = true ->
  openAction label configDir s = openWorktree label configDir s
  /\ cleanupAction (Some label) configDir s = cleanupWorktree label configDir s.
Proof.
  intros Hok. unfold openAction, cleanupAction.
  rewrite (labelOk_truthy _ Hok), Hok. split; reflexivity.
Qed.

(** Claim C5.  When [git rev-list] printed the commits newest first,
    the cherry-pick block issues [git checkout main], [git rev-list] and
    then one [git cherry-pick] per commit in the reverse of that order,
    oldest first, stopping only at a cherry-pick that fails; when the
    block returns, every commit was cherry-picked, oldest first. *)
Theorem reconcile_applies_oldest_first label (w : W) newestFirst :
  Forall (fun c => hashLike c = true) newestFirst ->
  In (Ran (gitRevList label) 0 (revListOutput newestFirst))
     (logOf (cherryPickCommits label (start w))) ->
  (exists failure,
      outcomeOf (cherryPickCommits label (start w)) = thrownOr failure tt
      /\ FailFast
           (gitCheckoutMain :: gitRevList label :: map gitCherryPick (rev newestFirst))
           (commands (logOf (cherryPickCommits label (start w)))) failure)
  /\ (outcomeOf (cherryPickCommits label (start w)) = Returned tt ->
      commands (logOf (cherryPickCommits label (start w)))
      = (gitCheckoutMain, 0) :: (gitRevList label, 0)
          :: map (fun c => (gitCherryPick c, 0)) (rev newestFirst)).
Proof.
  intros Hhashes. unfold outcomeOf, logOf.
  destruct (cherryPickCommits_run label (start w))
    as (evs & failure & w' & out & -> & _ & _ & Hff & Hout).
  cbn [fst snd log start app]. intros Hin.
  apply Hout in Hin as [<- _].
  unfold reconcilePlan, nonBlank in Hff.
  rewrite (commitsOf_revListOutput _ Hhashes) in Hff.
  split; [now exists failure|].
  destruct failure as [code|]; [discriminate|]. intros _.
  apply FailFast_all_inv in Hff. rewrite Hff. cbn. now rewrite map_map.
Qed.

End Claims.

(* ================================================================== *)
(** * The scenarios, run *)
(* ================================================================== *)

(** ** C1: a conflicting cherry-pick *)

(** C1 is on main, C2 and C3 are not, and the worktree directory is
    still there. *)
Example conflict_leaves_main_partially_updated :
  Sim.main (worldOf (cleanupWorktree "feat" ".wt" (start Scenario.conflict)))
  = ["M0"; "C1"]
  /\ Sim.dirs (worldOf (cleanupWorktree "feat" ".wt" (start Scenario.conflict)))
     = [Scenario.feat].
Proof. vm_compute. split; reflexivity. Qed.


(** ** C2: the session is already gone *)

(** The worktree removal and the branch deletion succeed, the session
    deletion exits with status 1, and the cleanup ends with
    [process.exit(1)] instead of completing. *)
Lemma session_deletion_is_not_best_effort :
  commands (logOf (cleanupWorktree "feat" ".wt" (start Scenario.sessionGone)))
  = [(gitLogOneline "feat", 0);
     (gitWorktreeRemove Scenario.feat, 0);
     (gitBranchDelete "feat", 0);
     (zellijDeleteSession "feat", 1)]
  /\ outcomeOf (cleanupWorktree "feat" ".wt" (start Scenario.sessionGone)) = Exited 1
  /\ outcomeOf (cleanupWorktree "feat" ".wt" (start Scenario.sessionGone))
     <> Returned tt.
Proof. vm_compute. repeat split; discriminate. Qed.

Lemma session_deletion_failure_witness :
  In (zellijDeleteSession "feat", 1)
     (commands (logOf (cleanupWorktree "feat" ".wt" (start Scenario.sessionGone))))
  /\ 1 <> 0
  /\ outcomeOf (cleanupWorktree "feat" ".wt" (start Scenario.sessionGone)) = Exited 1.
Proof.
  assert (Hin : In (zellijDeleteSession "feat", 1)
                   (commands (logOf (cleanupWorktree "feat" ".wt"
                                       (start Scenario.sessionGone)))))
    by (vm_compute; auto 10).
  assert (Hcode : 1 <> 0) by lia.
  split; [exact Hin|]. split; [exact Hcode|].
  exact (proj1 (session_deletion_failure_is_fatal
                  "feat" ".wt" Scenario.sessionGone 1 Hin Hcode)).
Defined.

(** ** C3: the first of two cleanups fails *)



(** The batch is confirmed and the input ends there; the branch [a]
    has unmerged commits: the process ends with status 0 at the
    cherry-pick question, and [b] is never started. *)
Example batch_stops_at_unanswered_question :
  outcomeOf (cleanupAllWorktrees ".wt" (start Scenario.batchInputEnded)) = Exited 0
  /\ banners (logOf (cleanupAllWorktrees ".wt" (start Scenario.batchInputEnded)))
     = [cleaningUpBanner "a"]
  /\ commands (logOf (cleanupAllWorktrees ".wt" (start Scenario.batchInputEnded)))
     = [(gitWorktreeList, 0); (gitLogOneline "a", 0)]
  /\ Sim.dirs (worldOf (cleanupAllWorktrees ".wt" (start Scenario.batchInputEnded)))
     = [Scenario.worktreeA; Scenario.worktreeB].
Proof. vm_compute. repeat split. Qed.

(** ** C4: a configuration without an environment function *)

(** The label is valid and the directory exists; the session is
    launched, and no file is written. *)
Lemma environment_file_not_rewritten :
  labelOk "feat" = true
  /\ host_exists Scenario.feat Scenario.noEnvironment = true
  /\ outcomeOf (createWorktree (Some "feat") ".wt" (start Scenario.noEnvironment))
     = Returned tt
  /\ writes (logOf (createWorktree (Some "feat") ".wt" (start Scenario.noEnvironment)))
     = []
  /\ spawns (logOf (createWorktree (Some "feat") ".wt" (start Scenario.noEnvironment)))
     = [(zellijNewSession ".wt/./layout.kdl" "wt-feat", Scenario.feat)].
Proof. vm_compute. repeat split. Qed.

Lemma create_on_existing_witness :
  labelOk "feat" = true
  /\ host_exists (worktreePathOf (host_cwd Scenario.withEnvironment) ".wt" "feat")
       Scenario.withEnvironment = true
  /\ In (Wrote "/repo/.wt/worktrees/feat/.env.local" ("PORT=3005" +++ Js.nl) true)
        (logOf (createWorktree (Some "feat") ".wt" (start Scenario.withEnvironment))).
Proof.
  assert (Hok : labelOk "feat" = true) by reflexivity.
  assert (Hfound : host_exists
                     (worktreePathOf (host_cwd Scenario.withEnvironment) ".wt" "feat")
                     Scenario.withEnvironment = true) by reflexivity.
  split; [exact Hok|]. split; [exact Hfound|].
  refine (proj1 (proj1 (proj2 (proj2 (create_on_existing_worktree
                                        "feat" ".wt" Scenario.withEnvironment
                                        Hok Hfound)))
                   (mkConfig "./layout.kdl" (Some Scenario.portScript))
                   Scenario.portScript [("PORT", EnvNum 3005)]
                   Scenario.withEnvironment _ _ _ _)).
  - repeat split.
  - reflexivity.
  - vm_compute. reflexivity.
  - reflexivity.
Defined.

(** ** C5: three commits, no conflict *)

Lemma reconcile_order_witness :
  Forall (fun c => hashLike c = true) ["C3"; "C2"; "C1"]
  /\ In (Ran (gitRevList "feat") 0 (revListOutput ["C3"; "C2"; "C1"]))
        (logOf (cherryPickCommits "feat" (start Scenario.clean)))
  /\ commands (logOf (cherryPickCommits "feat" (start Scenario.clean)))
     = [(gitCheckoutMain, 0); (gitRevList "feat", 0);
        (gitCherryPick "C1", 0); (gitCherryPick "C2", 0); (gitCherryPick "C3", 0)].
Proof.
  assert (Hhashes : Forall (fun c => hashLike c = true) ["C3"; "C2"; "C1"])
    by (repeat constructor).
  assert (Hin : In (Ran (gitRevList "feat") 0 (revListOutput ["C3"; "C2"; "C1"]))
                   (logOf (cherryPickCommits "feat" (start Scenario.clean))))
    by (vm_compute; auto 10).
  split; [exact Hhashes|]. split; [exact Hin|].
  apply (proj2 (reconcile_applies_oldest_first
                  "feat" Scenario.clean ["C3"; "C2"; "C1"] Hhashes Hin)).
  vm_compute. reflexivity.
Defined.

(** Main after the cleanup: the commits in chronological order. *)
Example clean_reconcile_updates_main :
  Sim.main (worldOf (cleanupWorktree "feat" ".wt" (start Scenario.clean)))
  = ["M0"; "C1"; "C2"; "C3"]
  /\ outcomeOf (cleanupWorktree "feat" ".wt" (start Scenario.clean)) = Returned tt.
Proof. vm_compute. split; reflexivity. Qed.

(** ** C6, C7, C10: the port scans *)

Lemma first_free_pair_witness :
  (forall q,
      host_port_in_use q Scenario.onlyPairFree = negb ((q =? 3006) || (q =? 3007)))
  /\ fst (Wtt.findAvailablePorts (start Scenario.onlyPairFree))
     = Returned (Wtt.mkPortPair 3007 3006).
Proof.
  assert (Hocc : forall q,
             host_port_in_use q Scenario.onlyPairFree
             = negb ((q =? 3006) || (q =? 3007)))
    by (intros q; reflexivity).
  split; [exact Hocc|].
  exact (proj2 (proj2 (findAvailablePorts_first_free_pair Scenario.onlyPairFree)) Hocc).
Defined.

Lemma smallest_free_port_witness :
  host_port_in_use 3002 Scenario.withEnvironment = true
  /\ host_port_in_use 3003 Scenario.withEnvironment = true
  /\ host_port_in_use 3004 Scenario.withEnvironment = true
  /\ host_port_in_use 3005 Scenario.withEnvironment = false
  /\ fst (findAvailablePort (start Scenario.withEnvironment)) = Returned 3005.
Proof.
  repeat (split; [reflexivity|]).
  exact (proj2 (proj2 (proj2 (findAvailablePort_smallest_free Scenario.withEnvironment)))
           eq_refl eq_refl eq_refl eq_refl).
Defined.

Lemma port_4000_witness :
  (forall q, 3002 <= q < 3999 ->
     ~ (host_port_in_use q Scenario.edgeOfRange = false
        /\ host_port_in_use (q + 1) Scenario.edgeOfRange = false))
  /\ host_port_in_use 3999 Scenario.edgeOfRange = false
  /\ host_port_in_use 4000 Scenario.edgeOfRange = false
  /\ fst (Wtt.findAvailablePorts (start Scenario.edgeOfRange))
     = Returned (Wtt.mkPortPair 4000 3999)
  /\ In 4000 (probes (log (snd (Wtt.findAvailablePorts (start Scenario.edgeOfRange))))).
Proof.
  assert (Hnone : forall q, 3002 <= q < 3999 ->
             ~ (host_port_in_use q Scenario.edgeOfRange = false
                /\ host_port_in_use (q + 1) Scenario.edgeOfRange = false)).
  { intros q Hq [Hfree _]. cbn in Hfree.
    destruct (Z.eqb_spec q 3999) as [|_]; [lia|].
    destruct (Z.eqb_spec q 4000) as [|_]; [lia|]. discriminate Hfree. }
  split; [exact Hnone|]. split; [reflexivity|]. split; [reflexivity|].
  destruct (findAvailablePorts_returns_port_4000
              Scenario.edgeOfRange Hnone eq_refl eq_refl)
    as (Hpair & Hprobed & _).
  split; [exact Hpair | exact Hprobed].
Defined.

(** ** C8: labels at the entry points *)

(** The empty string fails the validation, yet [new] does not reject
    it: a label is generated and the worktree is created; [cleanup]
    takes it for a missing label and cleans every worktree up. *)
Lemma empty_label_not_rejected :
  labelOk "" = false
  /\ outcomeOf (newAction (Some "") ".wt" (start Scenario.fresh)) = Returned tt
  /\ commands (logOf (newAction (Some "") ".wt" (start Scenario.fresh)))
     = [(gitWorktreeAdd "/repo/.wt/worktrees/quiet-mouse" "quiet-mouse", 0);
        (copyLocal "/repo/.wt/worktrees/quiet-mouse", 0);
        (bunInstall "/repo/.wt/worktrees/quiet-mouse", 0)]
  /\ cleanupAction (Some "") ".wt" (start Scenario.firstRemovalFails)
     = cleanupAllWorktrees ".wt" (start Scenario.firstRemovalFails).
Proof. vm_compute. repeat split. Qed.

Lemma label_validation_witness :
  ~ LabelSyntax "a/b"
  /\ "a/b" <> ""
  /\ newAction (Some "a/b") ".wt" (start Scenario.fresh) = rejected Scenario.fresh
  /\ openAction "a/b" ".wt" (start Scenario.fresh) = rejected Scenario.fresh
  /\ cleanupAction (Some "a/b") ".wt" (start Scenario.fresh) = rejected Scenario.fresh.
Proof.
  assert (Hbad : ~ LabelSyntax "a/b").
  { intros [_ (_ & Hslash & _)]. unfold labelChar in Hslash. cbn in Hslash. lia. }
  assert (Hne : "a/b" <> "") by discriminate.
  split; [exact Hbad|]. split; [exact Hne|].
  exact (proj1 (proj2 (label_validation "a/b" ".wt" Scenario.fresh)) Hbad Hne).
Defined.

(** ** C9: the gates *)

Example affirmative_answers :
  affirmative ("Y" +++ Js.nl) = true
  /\ affirmative ("  yes " +++ Js.nl) = true
  /\ affirmative "YES" = true
  /\ affirmative Js.nl = false
  /\ affirmative "n" = false
  /\ affirmative "yeah" = false
  /\ affirmative "y e s" = false.
Proof. vm_compute. repeat split. Qed.

(** A declined batch runs the registry query and nothing else. *)
Example declined_batch_runs_nothing :
  commands (logOf (cleanupAllWorktrees ".wt" (start Scenario.batchDeclined)))
  = [(gitWorktreeList, 0)]
  /\ Sim.dirs (worldOf (cleanupAllWorktrees ".wt" (start Scenario.batchDeclined)))
     = [Scenario.worktreeA; Scenario.worktreeB].
Proof. vm_compute. split; reflexivity. Qed.

(* ================================================================== *)
(** * Strings: trimming, prefixes and lines *)
(* ================================================================== *)

Lemma lowerChar_y c : Js.lowerChar c = "y"%char -> c = "y"%char \/ c = "Y"%char.
Proof.
  destruct c as [[] [] [] [] [] [] [] []]; intros Hc; vm_compute in Hc;
    first [discriminate Hc | now left | now right].
Qed.

Lemma lowerChar_e c : Js.lowerChar c = "e"%char -> c = "e"%char \/ c = "E"%char.
Proof.
  destruct c as [[] [] [] [] [] [] [] []]; intros Hc; vm_compute in Hc;
    first [discriminate Hc | now left | now right].
Qed.

Lemma lowerChar_s c : Js.lowerChar c = "s"%char -> c = "s"%char \/ c = "S"%char.
Proof.
  destruct c as [[] [] [] [] [] [] [] []]; intros Hc; vm_compute in Hc;
    first [discriminate Hc | now left | now right].
Qed.

Lemma toLowerCase_y t : Js.toLowerCase t = "y" -> t = "y" \/ t = "Y".
Proof.
  destruct t as [|c [|c' t]]; cbn; try discriminate.
  intros [= Hc]. destruct (lowerChar_y c Hc) as [-> | ->]; auto.
Qed.

Lemma toLowerCase_yes t :
  Js.toLowerCase t = "yes" ->
  In t ["yes"; "yeS"; "yEs"; "yES"; "Yes"; "YeS"; "YEs"; "YES"].
Proof.
  destruct t as [|c1 [|c2 [|c3 [|c4 t]]]]; cbn [Js.toLowerCase]; try discriminate.
  intros [= H1 H2 H3].
  destruct (lowerChar_y c1 H1) as [-> | ->], (lowerChar_e c2 H2) as [-> | ->],
    (lowerChar_s c3 H3) as [-> | ->]; cbn; auto 10.
Qed.

Lemma trimStart_blank_app ws s :
  blank ws = true -> Js.trimStart (ws +++ s) = Js.trimStart s.
Proof.
  induction ws as [|c ws IH]; cbn [blank allChars String.append]; [reflexivity|].
  intros Hws. apply andb_prop in Hws as [Hc Hws].
  cbn [Js.trimStart]. rewrite Hc. exact (IH Hws).
Qed.

Lemma trimEnd_blank ws : blank ws = true -> Js.trimEnd ws = "".
Proof.
  induction ws as [|c ws IH]; cbn [blank allChars]; [reflexivity|].
  intros Hws. apply andb_prop in Hws as [Hc Hws].
  cbn [Js.trimEnd]. now rewrite (IH Hws), Hc.
Qed.

Lemma trimEnd_app_blank s ws :
  blank ws = true -> Js.trimEnd (s +++ ws) = Js.trimEnd s.
Proof.
  intros Hws. induction s as [|c s IH]; cbn [String.append Js.trimEnd].
  - now apply trimEnd_blank.
  - now rewrite IH.
Qed.

Lemma trimEnd_idem s : Js.trimEnd (Js.trimEnd s) = Js.trimEnd s.
Proof.
  induction s as [|c s IH]; [reflexivity|]. cbn [Js.trimEnd].
  destruct (Js.isWhiteSpace c && Js.isEmpty (Js.trimEnd s)) eqn:Hdrop; [reflexivity|].
  cbn [Js.trimEnd]. now rewrite IH, Hdrop.
Qed.

Lemma trimStart_head s :
  Js.trimStart s = ""
  \/ exists c rest, Js.trimStart s = String c rest /\ Js.isWhiteSpace c = false.
Proof.
  induction s as [|c s IH]; [now left|]. cbn [Js.trimStart].
  destruct (Js.isWhiteSpace c) eqn:Hc; [exact IH|]. right. now exists c, s.
Qed.

Lemma trimEnd_solid_head c rest :
  Js.isWhiteSpace c = false -> Js.trimEnd (String c rest) = String c (Js.trimEnd rest).
Proof. intros Hc. cbn [Js.trimEnd]. now rewrite Hc. Qed.

Lemma trim_idem s : Js.trim (Js.trim s) = Js.trim s.
Proof.
  unfold Js.trim. destruct (trimStart_head s) as [->|(c & rest & -> & Hc)]; [reflexivity|].
  rewrite (trimEnd_solid_head _ _ Hc). cbn [Js.trimStart]. rewrite Hc.
  now rewrite (trimEnd_solid_head _ _ Hc), trimEnd_idem.
Qed.

Lemma trim_around before s after :
  blank before = true -> blank after = true ->
  Js.trim (before +++ s +++ after) = Js.trim s.
Proof.
  intros Hb Ha. unfold Js.trim. rewrite (trimStart_blank_app _ _ Hb).
  destruct (trimStart_head s) as [Hs|(c & rest & Hs & Hc)].
  - assert (Hblank : blank s = true).
    { clear -Hs. induction s as [|c s IH]; [reflexivity|]. cbn in Hs |- *.
      destruct (Js.isWhiteSpace c); [exact (IH Hs) | discriminate Hs]. }
    rewrite Hs.
    assert (Hall : blank (s +++ after) = true).
    { clear -Hblank Ha. induction s as [|c s IH]; [exact Ha|]. cbn in Hblank |- *.
      apply andb_prop in Hblank as [-> Hblank]. exact (IH Hblank). }
    rewrite <- (append_nil_r (s +++ after)).
    rewrite (trimStart_blank_app _ _ Hall). reflexivity.
  - assert (Hsplit : exists ws, blank ws = true /\ s = ws +++ String c rest).
    { clear -Hs. induction s as [|d s IH]; [discriminate Hs|]. cbn in Hs.
      destruct (Js.isWhiteSpace d) eqn:Hd.
      - destruct (IH Hs) as (ws & Hws & ->). exists (String d ws). cbn. now rewrite Hd.
      - exists "". now rewrite Hs. }
    destruct Hsplit as (ws & Hws & ->). rewrite append_assoc.
    rewrite !(trimStart_blank_app _ _ Hws).
    cbn [String.append Js.trimStart]. rewrite Hc.
    change (String c (rest +++ after)) with (String c rest +++ after).
    now apply trimEnd_app_blank.
Qed.

Lemma startsWith_app p rest : Js.startsWith (p +++ rest) p = true.
Proof.
  induction p as [|c p IH]; [reflexivity|]. cbn. now rewrite Ascii.eqb_refl.
Qed.

Lemma startsWith_inv p : forall s,
  Js.startsWith s p = true -> exists rest, s = p +++ rest.
Proof.
  induction p as [|c p IH]; intros s Hs.
  - now exists s.
  - destruct s as [|d s]; [discriminate Hs|]. cbn in Hs.
    apply andb_prop in Hs as [Hc Hs]. apply Ascii.eqb_eq in Hc. subst d.
    destruct (IH s Hs) as [rest ->]. now exists rest.
Qed.

Lemma substring_app p rest : Js.substring (String.length p) (p +++ rest) = rest.
Proof. induction p as [|c p IH]; [reflexivity | exact IH]. Qed.

Lemma append_inj_l p : forall a b, p +++ a = p +++ b -> a = b.
Proof. induction p as [|c p IH]; cbn; intros a b Hab; [exact Hab|]. injection Hab. apply IH. Qed.

(** Splitting at line breaks. *)
Lemma split_nonempty s : Js.split Js.LF s <> [].
Proof.
  destruct s as [|c s]; cbn [Js.split]; [easy|].
  destruct (Ascii.eqb c Js.LF); [easy|]. now destruct (Js.split Js.LF s).
Qed.

Lemma split_singleLine s : singleLine s = true -> Js.split Js.LF s = [s].
Proof.
  induction s as [|c s IH]; [reflexivity|]. cbn [singleLine allChars].
  intros Hs. apply andb_prop in Hs as [Hc Hs]. apply negb_true_iff in Hc.
  cbn [Js.split]. rewrite Hc. fold (singleLine s) in Hs. now rewrite (IH Hs).
Qed.

Lemma split_line line rest :
  singleLine line = true ->
  Js.split Js.LF (line +++ Js.nl +++ rest) = line :: Js.split Js.LF rest.
Proof.
  induction line as [|c line IH]; [reflexivity|]. cbn [singleLine allChars].
  intros Hs. apply andb_prop in Hs as [Hc Hs]. apply negb_true_iff in Hc.
  cbn [String.append Js.split]. rewrite Hc. fold (singleLine line) in Hs.
  now rewrite (IH Hs).
Qed.

(** A line break in the middle: the fields on its left, then the fields
    on its right. *)
Lemma split_app_line s : forall t,
  Js.split Js.LF (s +++ Js.nl +++ t) = Js.split Js.LF s ++ Js.split Js.LF t.
Proof.
  induction s as [|c s IH]; intros t; [reflexivity|].
  cbn [String.append Js.split]. rewrite IH.
  destruct (Ascii.eqb c Js.LF); [reflexivity|].
  destruct (Js.split Js.LF s) as [|field fields] eqn:Hs; [|reflexivity].
  now apply split_nonempty in Hs.
Qed.

Lemma singleLine_app s t :
  singleLine (s +++ t) = singleLine s && singleLine t.
Proof.
  induction s as [|c s IH]; [reflexivity|]. cbn [String.append singleLine allChars].
  fold (singleLine (s +++ t)). fold (singleLine s). now rewrite IH, andb_assoc.
Qed.

(** Property X1.  The answers [promptUser] takes for a yes: with the white space
    around it removed, the answer is [y] or [yes] in any mix of upper
    and lower case, and nothing else; white space before and after the
    answer changes nothing. *)
Theorem affirmative_spellings (data : string) :
  (affirmative data = true <-> In (Js.trim data) acceptedAnswers)
  /\ (forall before after,
        blank before = true -> blank after = true ->
        affirmative (before +++ data +++ after) = affirmative data).
Proof.
  split.
  - unfold affirmative. split.
    + intros Hyes. apply orb_prop in Hyes as [Hy|Hyes].
      * apply String.eqb_eq in Hy.
        destruct (toLowerCase_y _ Hy) as [-> | ->]; cbn; auto.
      * apply String.eqb_eq in Hyes. apply toLowerCase_yes in Hyes.
        cbn in Hyes |- *. intuition auto.
    + intros Hin. unfold acceptedAnswers in Hin.
      repeat (destruct Hin as [<-|Hin]; [reflexivity|]). destruct Hin.
  - intros before after Hb Ha. unfold affirmative. now rewrite trim_around.
Qed.

(* ================================================================== *)
(** * The confirmation gates *)
(* ================================================================== *)

Lemma affirmative_accepted data :
  affirmative data = true <-> In (Js.trim data) acceptedAnswers.
Proof.
  unfold affirmative. split.
  - intros Hyes. apply orb_prop in Hyes as [Hy|Hyes].
    + apply String.eqb_eq in Hy.
      destruct (toLowerCase_y _ Hy) as [-> | ->]; cbn; auto.
    + apply String.eqb_eq in Hyes. apply toLowerCase_yes in Hyes.
      cbn in Hyes |- *. intuition auto.
  - intros Hin. unfold acceptedAnswers in Hin.
    repeat (destruct Hin as [<-|Hin]; [reflexivity|]). destruct Hin.
Qed.

Lemma FailFast_head cmd plan trace failure :
  FailFast (cmd :: plan) trace failure ->
  exists code rest, trace = (cmd, code) :: rest.
Proof.
  intros Hff. inversion Hff as [plan0 Hplan|pre cmd0 post code Hcode Hplan]; subst.
  - now exists 0, (map succeeded plan).
  - destruct pre as [|c pre]; injection Hplan as -> _.
    + now exists code, [].
    + now exists 0, (map succeeded pre ++ [(cmd0, code)]).
Qed.

Section Gates.
Context {W : Type} `{Host W}.

#[local] Arguments banners : simpl never.
#[local] Arguments reads : simpl never.
#[local] Arguments commands : simpl never.
#[local] Arguments shellError : simpl never.

(** Claim C9, as the code has it.  [promptUser] writes the question and
    waits for one chunk of input: it resolves to [true] exactly when
    the chunk, with the white space around it removed, is [y] or [yes]
    in any mix of upper and lower case, and to [false] for every other
    chunk, an empty line included; when the input ends without a chunk
    it never resolves, and the process ends with status 0 right after
    the question.  The batch confirmation and the confirmation after
    the session guard everything behind them: without an affirmative
    answer nothing is cleaned up.  The cherry-pick consent guards the
    cherry-pick and nothing else: when every answer read is other than
    affirmative, which includes the run that asks no question, no
    checkout, rev-list or cherry-pick runs, and, unless the input ended
    at the question, [git worktree remove --force] is the next command
    after [git log], followed by [git branch -D] and the session
    deletion for as long as they succeed. *)
Theorem prompt_defaults_to_declining (configDir : string) (w : W) :
  (forall question,
      promptUser question (start w)
      = match host_stdin w with
        | (Some data, w') =>
            (Returned (affirmative data),
             mkPState w' [Out (promptOf question); Read data])
        | (None, w') => (Exited 0, mkPState w' [Out (promptOf question)])
        end)
  /\ (forall data,
        (affirmative data = true <-> In (Js.trim data) acceptedAnswers)
        /\ (forall before after,
              blank before = true -> blank after = true ->
              affirmative (before +++ data +++ after) = affirmative data))
  /\ (affirmative "" = false /\ affirmative Js.nl = false)
  /\ (forall labels s1 answer w2,
        getAllWorktrees configDir (start w) = (Returned labels, s1) ->
        labels <> [] ->
        host_stdin (world s1) = (answer, w2) ->
        match answer with
        | Some data =>
            affirmative data = false ->
            cleanupAllWorktrees configDir (start w)
            = (Returned tt,
               mkPState w2
                 (log s1 ++ [Out (foundMessage labels); Out (promptOf batchQuestion);
                             Read data; Out "Cleanup cancelled."]))
        | None =>
            cleanupAllWorktrees configDir (start w)
            = (Exited 0,
               mkPState w2
                 (log s1 ++ [Out (foundMessage labels); Out (promptOf batchQuestion)]))
        end)
  /\ (forall label data,
        reads (logOf (cleanupWorktree label configDir (start w))) = [data] ->
        affirmative data = false ->
        forall cmd code,
          In (cmd, code) (commands (logOf (cleanupWorktree label configDir (start w)))) ->
          cmd <> gitCheckoutMain /\ cmd <> gitRevList label
          /\ forall commit, cmd <> gitCherryPick commit)
  /\ (forall label,
        host_exists (worktreePathOf (host_cwd w) configDir label) w = true ->
        Forall (fun data => affirmative data = false)
               (reads (logOf (cleanupWorktree label configDir (start w)))) ->
        (outcomeOf (cleanupWorktree label configDir (start w)) = Exited 0
         /\ commands (logOf (cleanupWorktree label configDir (start w)))
            = [(gitLogOneline label, 0)]
         /\ exists before,
             logOf (cleanupWorktree label configDir (start w))
             = before ++ [Out (promptOf cherryPickQuestion)])
        \/ (exists code0 code trace failure,
              commands (logOf (cleanupWorktree label configDir (start w)))
              = (gitLogOneline label, code0)
                  :: (gitWorktreeRemove (worktreePathOf (host_cwd w) configDir label),
                      code)
                  :: trace
              /\ FailFast
                   (removalPlan label (worktreePathOf (host_cwd w) configDir label))
                   ((gitWorktreeRemove (worktreePathOf (host_cwd w) configDir label),
                     code) :: trace)
                   failure
              /\ outcomeOf (cleanupWorktree label configDir (start w))
                 = exitedOr failure))
  /\ (forall label path layoutPath (s : PState W) code w1 answer w2,
        host_spawn (zellijNewSession layoutPath ("wt-" +++ label)) path (world s)
        = (inr code, w1) ->
        host_stdin w1 = (answer, w2) ->
        match answer with
        | Some data =>
            affirmative data = false ->
            sessionSteps label configDir path layoutPath s
            = (Returned tt,
               mkPState w2
                 (log s ++ [Spawned (zellijNewSession layoutPath ("wt-" +++ label)) path
                              (inr code);
                            Out (sessionMessage code);
                            Out "";
                            Out (promptOf (sessionQuestion label));
                            Read data;
                            Out ("Worktree '" +++ label +++ "' preserved at " +++ path)]))
        | None =>
            sessionSteps label configDir path layoutPath s
            = (Exited 0,
               mkPState w2
                 (log s ++ [Spawned (zellijNewSession layoutPath ("wt-" +++ label)) path
                              (inr code);
                            Out (sessionMessage code);
                            Out "";
                            Out (promptOf (sessionQuestion label))]))
        end).
Proof.
  split; [|split; [|split; [|split; [|split; [|split]]]]].
  - intros question. rewrite promptUser_run. cbn [world log start app].
    reflexivity.
  - intros data. split; [apply affirmative_accepted|].
    intros before after Hb Ha. unfold affirmative. now rewrite trim_around.
  - split; reflexivity.
  - intros labels s1 [data|] w2 Hget Hlabels Hstdin.
    + now apply cleanupAll_declined.
    + now apply cleanupAll_unanswered.
  - intros label data. unfold logOf.
    destruct (cleanupWorktree_run label configDir (start w))
      as [[_ ->]|[[_ (evs & failure & w' & -> & _ & Hshape)]
                 |[_ (evs & w' & -> & Hasked)]]];
      cbn [fst snd log world start app].
    { discriminate. }
    2:{ rewrite reads_cons, (Unanswered_reads _ _ Hasked). discriminate. }
    rewrite reads_cons, reads_app, commands_cons, commands_app, commands_report.
    replace (reads (reportOf failure)) with (@nil string) by now destruct failure.
    rewrite !app_nil_r. cbn [readOf commandOf app].
    intros Hreads Hno cmd code Hin.
    destruct Hshape as [code0 trace Hcmds Hff _|data' out trace Hreads' Hyes _ _ _].
    + rewrite Hcmds in Hin. destruct Hin as [[= <- _]|Hin].
      * repeat split; try discriminate; try (intros commit; discriminate).
      * apply (FailFast_in_plan _ _ _ _ _ Hff) in Hin.
        unfold removalPlan in Hin. cbn in Hin.
        destruct Hin as [<-|[<-|[<-|[]]]];
          repeat split; try discriminate; try (intros commit; discriminate).
    + rewrite Hreads' in Hreads. injection Hreads as ->. congruence.
  - intros label Hfound. unfold outcomeOf, logOf.
    destruct (cleanupWorktree_run label configDir (start w))
      as [[Hmissing _]|[[_ (evs & failure & w' & -> & _ & Hshape)]
                       |[_ (evs & w' & -> & Hasked)]]];
      cbn [fst snd log world start app] in *.
    { congruence. }
    + rewrite reads_cons, reads_app, commands_cons, commands_app, commands_report.
      replace (reads (reportOf failure)) with (@nil string) by now destruct failure.
      rewrite !app_nil_r. cbn [readOf commandOf app].
      intros Hno. right.
      destruct Hshape as [code0 trace Hcmds Hff _|data out trace Hreads Hyes _ _ _].
      * destruct (FailFast_head _ _ _ _ Hff) as (code & rest & ->).
        exists code0, code, rest, failure. now split.
      * rewrite Hreads in Hno. inversion Hno as [|? ? Hdata _]. congruence.
    + intros _. left. split; [reflexivity|].
      rewrite commands_cons, (Unanswered_commands _ _ Hasked).
      split; [reflexivity|]. destruct Hasked as [out ->].
      now exists [Out ("Cleaning up worktree: "
                       +++ worktreePathOf (host_cwd w) configDir label);
                  Ran (gitLogOneline label) 0 out;
                  Out (unmergedNotice label)].
  - intros label path layoutPath s code w1 [data|] w2 Hspawn Hstdin.
    + intros Hno. now apply (session_cleanup_declined _ _ _ _ _ _ w1).
    + now apply (session_cleanup_unanswered _ _ _ _ _ _ w1).
Qed.

End Gates.

(** The worktrees [a] and [b] are registered and the operator answers
    the batch question with an empty line: nothing is cleaned up. *)
Lemma batch_gate_witness :
  cleanupAllWorktrees ".wt" (start Scenario.batchDeclined)
  = (Returned tt,
     mkPState Scenario.listedOnly
       [Ran gitWorktreeList 0 Scenario.porcelain;
        Out (foundMessage ["a"; "b"]);
        Out (promptOf batchQuestion);
        Read Js.nl;
        Out "Cleanup cancelled."]).
Proof.
  assert (Hget : getAllWorktrees ".wt" (start Scenario.batchDeclined)
                 = (Returned ["a"; "b"],
                    mkPState Scenario.batchDeclined
                      [Ran gitWorktreeList 0 Scenario.porcelain]))
    by (vm_compute; reflexivity).
  assert (Hlabels : ["a"; "b"] <> @nil string) by discriminate.
  assert (Hstdin : host_stdin Scenario.batchDeclined = (Some Js.nl, Scenario.listedOnly))
    by reflexivity.
  assert (Hno : affirmative Js.nl = false) by reflexivity.
  exact (proj1 (proj2 (proj2 (proj2 (prompt_defaults_to_declining
                                        ".wt" Scenario.batchDeclined))))
           ["a"; "b"] _ (Some Js.nl) _ Hget Hlabels Hstdin Hno).
Defined.

(** The operator declines the cherry-pick of the three commits of
    [feat], and the worktree and the branch are destroyed with them;
    on a merged branch they are destroyed without any question. *)
Lemma removal_needs_no_affirmative_answer :
  reads (logOf (cleanupWorktree "feat" ".wt" (start Scenario.declined)))
  = [Scenario.no]
  /\ affirmative Scenario.no = false
  /\ commands (logOf (cleanupWorktree "feat" ".wt" (start Scenario.declined)))
     = [(gitLogOneline "feat", 0);
        (gitWorktreeRemove Scenario.feat, 0);
        (gitBranchDelete "feat", 0);
        (zellijDeleteSession "feat", 0)]
  /\ Sim.dirs (worldOf (cleanupWorktree "feat" ".wt" (start Scenario.declined))) = []
  /\ reads (logOf (cleanupWorktree "feat" ".wt" (start Scenario.merged))) = []
  /\ commands (logOf (cleanupWorktree "feat" ".wt" (start Scenario.merged)))
     = [(gitLogOneline "feat", 0);
        (gitWorktreeRemove Scenario.feat, 0);
        (gitBranchDelete "feat", 0);
        (zellijDeleteSession "feat", 0)]
  /\ Sim.dirs (worldOf (cleanupWorktree "feat" ".wt" (start Scenario.merged))) = [].
Proof. vm_compute. repeat split. Qed.

(** At the end of the input the question is the last thing that
    happens: the process ends with status 0 and the worktree stays. *)
Example unanswered_question_ends_the_process :
  cleanupWorktree "feat" ".wt" (start Scenario.inputEnded)
  = (Exited 0,
     mkPState Scenario.inputEnded
       [Out ("Cleaning up worktree: " +++ Scenario.feat);
        Ran (gitLogOneline "feat") 0 Scenario.unmergedLog;
        Out (unmergedNotice "feat");
        Out (promptOf cherryPickQuestion)]).
Proof. vm_compute. reflexivity. Qed.

(* ================================================================== *)
(** * The init command *)
(* ================================================================== *)

Lemma trimEnd_app_keep s t :
  t <> "" -> Js.trimEnd t = t -> Js.trimEnd (s +++ t) = s +++ t.
Proof.
  intros Hne Ht. induction s as [|c s IH]; [exact Ht|].
  cbn [String.append Js.trimEnd]. rewrite IH.
  destruct (s +++ t) eqn:Hst; [|now rewrite andb_false_r].
  destruct s; [cbn in Hst; congruence | discriminate Hst].
Qed.

Lemma trimEnd_length s : (String.length (Js.trimEnd s) <= String.length s)%nat.
Proof.
  induction s as [|c s IH]; [reflexivity|]. cbn [Js.trimEnd].
  destruct (Js.isWhiteSpace c && Js.isEmpty (Js.trimEnd s)); cbn; lia.
Qed.

Lemma trimStart_length s : (String.length (Js.trimStart s) <= String.length s)%nat.
Proof.
  induction s as [|c s IH]; [reflexivity|]. cbn [Js.trimStart].
  destruct (Js.isWhiteSpace c); cbn; lia.
Qed.

Lemma trim_length s : (String.length (Js.trim s) <= String.length s)%nat.
Proof.
  unfold Js.trim. pose proof (trimEnd_length (Js.trimStart s)).
  pose proof (trimStart_length s). lia.
Qed.

(** The pattern is its own trimmed form when the directory does not
    start with white space. *)
Lemma worktreesPattern_trimmed wtDir :
  Js.trimStart wtDir = wtDir -> Js.trim (wtDir +++ "/worktrees") = wtDir +++ "/worktrees".
Proof.
  intros Hstart. unfold Js.trim.
  assert (Hs : Js.trimStart (wtDir +++ "/worktrees") = wtDir +++ "/worktrees").
  { destruct wtDir as [|c rest]; [reflexivity|]. cbn in Hstart |- *.
    destruct (Js.isWhiteSpace c) eqn:Hc; [|reflexivity].
    exfalso. pose proof (trimStart_length rest) as Hlen. rewrite Hstart in Hlen.
    cbn in Hlen. lia. }
  rewrite Hs. now apply trimEnd_app_keep.
Qed.

Lemma hasPattern_line content pattern :
  hasPattern content pattern = true
  <-> exists line, In line (Js.split Js.LF content) /\ Js.trim line = pattern.
Proof.
  unfold hasPattern. rewrite existsb_exists.
  split; intros (line & Hin & Hline); exists line; split; auto; now apply String.eqb_eq.
Qed.

Lemma newContent_lines content pattern :
  singleLine pattern = true ->
  Js.split Js.LF (newContent content pattern)
  = Js.split Js.LF (Js.trimEnd content) ++ [pattern; ""].
Proof.
  intros Hp. unfold newContent. rewrite split_app_line. f_equal.
  rewrite <- (append_nil_r (pattern +++ Js.nl)), append_assoc.
  now rewrite (split_line _ _ Hp).
Qed.

Lemma hasPattern_newContent content pattern :
  singleLine pattern = true -> Js.trim pattern = pattern ->
  hasPattern (newContent content pattern) pattern = true.
Proof.
  intros Hp Htrim. apply hasPattern_line. exists pattern. split; [|exact Htrim].
  rewrite (newContent_lines _ _ Hp). apply in_or_app. right. now left.
Qed.

Lemma hasPattern_created pattern :
  singleLine pattern = true -> Js.trim pattern = pattern ->
  hasPattern (pattern +++ Js.nl) pattern = true.
Proof.
  intros Hp Htrim. apply hasPattern_line. exists pattern. split; [|exact Htrim].
  rewrite <- (append_nil_r (pattern +++ Js.nl)), append_assoc.
  rewrite (split_line _ _ Hp). now left.
Qed.

Lemma hasPattern_untrimmed content pattern :
  Js.trim pattern <> pattern -> hasPattern content pattern = false.
Proof.
  intros Hp. destruct (hasPattern content pattern) eqn:Hhas; [|reflexivity].
  apply hasPattern_line in Hhas as (line & _ & Hline).
  exfalso. apply Hp. rewrite <- Hline. apply trim_idem.
Qed.

Section InitFacts.
Context {W : Type} `{Host W} `{Files W}.

Lemma singleLine_pattern wtDir :
  singleLine wtDir = true -> singleLine (wtDir +++ "/worktrees") = true.
Proof. intros Hd. now rewrite singleLine_app, Hd. Qed.

(** Every run of the [.gitignore] step. *)
Lemma initGitignore_run wtDir (s : PState W) :
  let pattern := wtDir +++ "/worktrees" in
  initGitignore wtDir s
  = if host_exists ".gitignore" (world s) then
      match host_read ".gitignore" (world s) with
      | inl e => (Thrown e, s)
      | inr content =>
          if hasPattern content pattern then
            (Returned tt,
             mkPState (world s)
               (log s ++ [Out ("✓ .gitignore already contains " +++ pattern)]))
          else
            match host_write ".gitignore" (newContent content pattern) (world s) with
            | inr w' =>
                (Returned tt,
                 mkPState w'
                   (log s ++ [Wrote ".gitignore" (newContent content pattern) true;
                              Out ("✓ Added " +++ pattern +++ " to existing .gitignore")]))
            | inl e =>
                (Thrown e,
                 mkPState (world s)
                   (log s ++ [Wrote ".gitignore" (newContent content pattern) false]))
            end
      end
    else
      match host_write ".gitignore" (pattern +++ Js.nl) (world s) with
      | inr w' =>
          (Returned tt,
           mkPState w'
             (log s ++ [Wrote ".gitignore" (pattern +++ Js.nl) true;
                        Out ("✓ Created .gitignore with " +++ pattern)]))
      | inl e =>
          (Thrown e,
           mkPState (world s) (log s ++ [Wrote ".gitignore" (pattern +++ Js.nl) false]))
      end.
Proof.
  intros pattern. unfold initGitignore. fold pattern. simp_run.
  destruct (host_exists ".gitignore" (world s)).
  - unfold bind at 1. unfold readFileSync at 1.
    destruct (host_read ".gitignore" (world s)) as [e|content]; [reflexivity|].
    destruct (hasPattern content pattern); cbn [negb].
    + destruct s. reflexivity.
    + unfold bind, writeFileSync. cbn [world log].
      destruct (host_write ".gitignore" (newContent content pattern) (world s));
        [reflexivity|]. cbn. now rewrite <- app_assoc.
  - unfold bind, writeFileSync.
    destruct (host_write ".gitignore" (pattern +++ Js.nl) (world s)); [reflexivity|].
    cbn. now rewrite <- app_assoc.
Qed.

End InitFacts.

Section InitClaims.
Context {W : Type} `{Host W} `{Files W}.

(** Property X2.  Whatever the [.gitignore] step writes, the next run recognises:
    when the configuration directory has no line break and does not
    start with white space, a file holding a content the step wrote is
    left as it is. *)
Theorem init_gitignore_is_idempotent wtDir (w w2 : W) path written :
  singleLine wtDir = true -> Js.trimStart wtDir = wtDir ->
  In (path, written) (writes (logOf (initGitignore wtDir (start w)))) ->
  host_exists ".gitignore" w2 = true ->
  host_read ".gitignore" w2 = inr written ->
  path = ".gitignore"
  /\ initGitignore wtDir (start w2)
     = (Returned tt,
        mkPState w2 [Out ("✓ .gitignore already contains " +++ wtDir +++ "/worktrees")]).
Proof.
  intros Hline Hstart Hin Hexists Hread.
  pose proof (singleLine_pattern _ Hline) as Hp.
  pose proof (worktreesPattern_trimmed _ Hstart) as Htrim.
  assert (Hwritten : path = ".gitignore"
                     /\ hasPattern written (wtDir +++ "/worktrees") = true).
  { rewrite initGitignore_run in Hin. unfold start in Hin. cbn [world log] in Hin.
    destruct (host_exists ".gitignore" w).
    - destruct (host_read ".gitignore" w) as [e|content]; [contradiction Hin|].
      destruct (hasPattern content (wtDir +++ "/worktrees")); [contradiction Hin|].
      destruct (host_write ".gitignore" _ w); [contradiction Hin|].
      destruct Hin as [[= <- <-]|[]]. split; [reflexivity|].
      now apply hasPattern_newContent.
    - destruct (host_write ".gitignore" _ w); [contradiction Hin|].
      destruct Hin as [[= <- <-]|[]]. split; [reflexivity|].
      now apply hasPattern_created. }
  destruct Hwritten as [-> Hhas]. split; [reflexivity|].
  rewrite initGitignore_run. unfold start. cbn [world log].
  now rewrite Hexists, Hread, Hhas.
Qed.

(** Property X3.  Appending to an existing [.gitignore]: the content is kept up
    to its trailing white space, the pattern follows on a line of its
    own, and the file ends with a line break. *)
Theorem init_gitignore_appends_pattern wtDir (w w' : W) content :
  singleLine wtDir = true ->
  host_exists ".gitignore" w = true ->
  host_read ".gitignore" w = inr content ->
  hasPattern content (wtDir +++ "/worktrees") = false ->
  host_write ".gitignore" (newContent content (wtDir +++ "/worktrees")) w = inr w' ->
  outcomeOf (initGitignore wtDir (start w)) = Returned tt
  /\ worldOf (initGitignore wtDir (start w)) = w'
  /\ writes (logOf (initGitignore wtDir (start w)))
     = [(".gitignore", newContent content (wtDir +++ "/worktrees"))]
  /\ Js.split Js.LF (newContent content (wtDir +++ "/worktrees"))
     = Js.split Js.LF (Js.trimEnd content) ++ [wtDir +++ "/worktrees"; ""].
Proof.
  intros Hline Hexists Hread Hhas Hwrite.
  rewrite initGitignore_run. unfold start. cbn [world log].
  rewrite Hexists, Hread, Hhas, Hwrite.
  repeat split. now apply newContent_lines, singleLine_pattern.
Qed.

(** Property X4.  [init] on a repository that is initialised already: the layout
    and the configuration are there and some line of [.gitignore] is the
    pattern up to white space around it.  Nothing is copied, nothing is
    written, and the world is as it was. *)
Theorem init_on_initialised_repository wtDir (w : W) content line :
  host_exists (wtDir +++ "/layout.kdl") w = true ->
  host_exists (wtDir +++ "/config.ts") w = true ->
  host_exists ".gitignore" w = true ->
  host_read ".gitignore" w = inr content ->
  In line (Js.split Js.LF content) ->
  Js.trim line = wtDir +++ "/worktrees" ->
  initAction wtDir (start w)
  = (Returned tt,
     mkPState w
       [Out "Initializing repository...";
        Out ("✓ .gitignore already contains " +++ wtDir +++ "/worktrees");
        Out (Js.nl +++ "✓ Repository initialized successfully!");
        Out "You can now use 'wt new' to create worktrees."]).
Proof.
  intros Hlayout Hconfig Hexists Hread Hin Htrim.
  assert (Hhas : hasPattern content (wtDir +++ "/worktrees") = true)
    by (apply hasPattern_line; now exists line).
  unfold initAction, initFile, start.
  rewrite bind_consoleLog, bind_assoc, bind_existsSync. cbn [world log].
  rewrite Hlayout. cbn [negb]. rewrite bind_ret, bind_assoc, bind_existsSync.
  cbn [world log]. rewrite Hconfig. cbn [negb]. rewrite bind_ret.
  unfold bind at 1. rewrite initGitignore_run.
  cbn [world log]. rewrite Hexists, Hread, Hhas. reflexivity.
Qed.

(** Property X5.  A configuration directory that starts with white space is never
    recognised: no line of any [.gitignore] is taken for its pattern,
    and the step writes the file again whatever it holds. *)
Theorem init_gitignore_never_finds_indented_pattern c rest (w : W) content :
  Js.isWhiteSpace c = true ->
  host_exists ".gitignore" w = true ->
  host_read ".gitignore" w = inr content ->
  hasPattern content (String c rest +++ "/worktrees") = false
  /\ exists ok,
      In (Wrote ".gitignore" (newContent content (String c rest +++ "/worktrees")) ok)
        (logOf (initGitignore (String c rest) (start w))).
Proof.
  intros Hc Hexists Hread.
  assert (Hhas : hasPattern content (String c rest +++ "/worktrees") = false).
  { apply hasPattern_untrimmed. intros Heq.
    pose proof (trimEnd_length (Js.trimStart (String c rest +++ "/worktrees"))) as H1.
    fold (Js.trim (String c rest +++ "/worktrees")) in H1. rewrite Heq in H1.
    cbn [String.append Js.trimStart] in H1. rewrite Hc in H1.
    pose proof (trimStart_length (rest +++ "/worktrees")) as H2.
    cbn [String.length] in H1. lia. }
  split; [exact Hhas|].
  rewrite initGitignore_run. unfold start. cbn [world log].
  rewrite Hexists, Hread, Hhas.
  destruct (host_write ".gitignore" _ w); [exists false | exists true]; now left.
Qed.

End InitClaims.

Lemma init_idempotent_witness :
  singleLine ".wt" = true
  /\ initGitignore ".wt"
       (start (worldOf (initGitignore ".wt" (start Scenario.someIgnores))))
     = (Returned tt,
        mkPState (worldOf (initGitignore ".wt" (start Scenario.someIgnores)))
          [Out ("✓ .gitignore already contains " +++ ".wt" +++ "/worktrees")]).
Proof.
  split; [reflexivity|].
  refine (proj2 (init_gitignore_is_idempotent ".wt" Scenario.someIgnores
                   (worldOf (initGitignore ".wt" (start Scenario.someIgnores)))
                   ".gitignore"
                   (newContent Scenario.ignoreFile (".wt" +++ "/worktrees"))
                   _ _ _ _ _)).
  - reflexivity.
  - reflexivity.
  - vm_compute. now left.
  - reflexivity.
  - reflexivity.
Defined.

Lemma init_appends_witness :
  hasPattern Scenario.ignoreFile (".wt" +++ "/worktrees") = false
  /\ writes (logOf (initGitignore ".wt" (start Scenario.someIgnores)))
     = [(".gitignore",
         "node_modules" +++ Js.nl +++ "dist" +++ Js.nl +++ ".wt/worktrees" +++ Js.nl)].
Proof.
  split; [reflexivity|].
  refine (proj1 (proj2 (proj2
            (init_gitignore_appends_pattern ".wt" Scenario.someIgnores
               (Disk.write ".gitignore"
                  (newContent Scenario.ignoreFile (".wt" +++ "/worktrees"))
                  Scenario.someIgnores)
               Scenario.ignoreFile _ _ _ _ _)))); reflexivity.
Defined.

Lemma init_initialised_witness :
  In "  .wt/worktrees"
     (Js.split Js.LF ("node_modules" +++ Js.nl +++ "  .wt/worktrees" +++ Js.nl))
  /\ worldOf (initAction ".wt" (start Scenario.initialised)) = Scenario.initialised.
Proof.
  assert (Hin : In "  .wt/worktrees"
                  (Js.split Js.LF ("node_modules" +++ Js.nl +++ "  .wt/worktrees" +++ Js.nl)))
    by (vm_compute; auto).
  split; [exact Hin|].
  rewrite (init_on_initialised_repository ".wt" Scenario.initialised
             ("node_modules" +++ Js.nl +++ "  .wt/worktrees" +++ Js.nl)
             "  .wt/worktrees"); [reflexivity | reflexivity .. | exact Hin | reflexivity].
Defined.

Lemma init_indented_witness :
  Js.isWhiteSpace " "%char = true
  /\ hasPattern (" .wt/worktrees" +++ Js.nl) (" .wt" +++ "/worktrees") = false.
Proof.
  split; [reflexivity|].
  refine (proj1 (init_gitignore_never_finds_indented_pattern
                   " "%char ".wt"
                   (Disk.mkWorld [(".gitignore", " .wt/worktrees" +++ Js.nl)])
                   (" .wt/worktrees" +++ Js.nl) _ _ _)); reflexivity.
Defined.

(* ================================================================== *)
(** * More on the cleanup *)
(* ================================================================== *)

Section CleanupExtras.
Context {W : Type} `{Host W}.

#[local] Arguments banners : simpl never.
#[local] Arguments reads : simpl never.
#[local] Arguments commands : simpl never.
#[local] Arguments shellError : simpl never.

Lemma hasUnmergedCommits_at branch (s : PState W) code out w' :
  host_shell (gitLogOneline branch) (world s) = (code, out, w') ->
  hasUnmergedCommits branch s
  = (Returned ((code =? 0) && negb (Js.isEmpty (Js.trim out))),
     mkPState w' (log s ++ [Ran (gitLogOneline branch) code out])).
Proof.
  intros Hsh. unfold hasUnmergedCommits, tryCatch. fold (gitLogOneline branch).
  destruct (bind_sh (gitLogOneline branch)
              (fun out => ret (negb (Js.isEmpty (Js.trim out)))) s)
    as (code' & out' & w'' & Hsh' & ->).
  rewrite Hsh in Hsh'. injection Hsh' as <- <- <-.
  now destruct (code =? 0).
Qed.

(** A trace that ends with a failure does not end with a success. *)
Lemma FailFast_ends_ok plan trace failure front cmd :
  FailFast plan trace failure -> trace = front ++ [succeeded cmd] -> failure = None.
Proof.
  intros Hff Htrace. destruct Hff as [plan|pre cmd' post code Hcode]; [reflexivity|].
  apply (f_equal (@rev _)) in Htrace. rewrite !rev_app_distr in Htrace. cbn in Htrace.
  unfold succeeded in Htrace. injection Htrace as _ Hzero _. contradiction.
Qed.

Lemma removal_at_the_end (front : list (list string)) label path :
  map succeeded (front ++ removalPlan label path)
  = map succeeded front ++ map succeeded (removalPlan label path).
Proof. apply map_app. Qed.

(** Property X6.  [cleanupWorktree] never throws: it returns, or it ends the
    process, with status 1 after a failed command or with status 0 when
    the input ends at the cherry-pick question.  On a worktree that
    exists it returns exactly when its last three commands are the
    worktree removal, the branch deletion and the session deletion,
    each with status 0; when it ends the process with status 1, the
    last thing it did was to report a command that exited with a
    non-zero status; when it ends the process with status 0, the last
    thing it did was to write the cherry-pick question: no answer was
    read, [git log] is the only command that ran, and nothing was
    reported. *)
Theorem cleanupWorktree_returns_or_exits label configDir (w : W) :
  (outcomeOf (cleanupWorktree label configDir (start w)) = Returned tt
   \/ outcomeOf (cleanupWorktree label configDir (start w)) = Exited 1
   \/ outcomeOf (cleanupWorktree label configDir (start w)) = Exited 0)
  /\ (host_exists (worktreePathOf (host_cwd w) configDir label) w = true ->
      (outcomeOf (cleanupWorktree label configDir (start w)) = Returned tt
       <-> exists front,
             commands (logOf (cleanupWorktree label configDir (start w)))
             = front
               ++ map succeeded
                    (removalPlan label (worktreePathOf (host_cwd w) configDir label))))
  /\ (outcomeOf (cleanupWorktree label configDir (start w)) = Exited 1 ->
      exists before code,
        code <> 0
        /\ logOf (cleanupWorktree label configDir (start w))
           = before ++ [Err ("Error: Failed to cleanup worktree: " +++ shellError code)])
  /\ (outcomeOf (cleanupWorktree label configDir (start w)) = Exited 0 ->
      reads (logOf (cleanupWorktree label configDir (start w))) = []
      /\ commands (logOf (cleanupWorktree label configDir (start w)))
         = [(gitLogOneline label, 0)]
      /\ exists before,
          logOf (cleanupWorktree label configDir (start w))
          = before ++ [Out (promptOf cherryPickQuestion)]).
Proof.
  destruct (cleanupWorktree_run label configDir (start w))
    as [[Hmissing Hrun]|[[Hfound Hrun]|[Hfound (evs & w' & Hrun & Hasked)]]];
    cbn [start world log] in *.
  - rewrite Hrun. cbn [outcomeOf logOf fst snd log app].
    split; [now left|]. split; [|split; discriminate].
    intros Hfound. rewrite Hfound in Hmissing. discriminate Hmissing.
  - destruct Hrun as (evs & failure & w' & Hrun & Hquiet & Hshape).
    rewrite Hrun. cbn [outcomeOf logOf fst snd log app].
    assert (Hcmds : exists code0 plan trace,
               commands evs = (gitLogOneline label, code0) :: trace
               /\ FailFast
                    (plan ++ removalPlan label (worktreePathOf (host_cwd w) configDir label))
                    trace failure).
    { destruct Hshape as [code0 trace Hc Hff _|data out trace _ _ Hc Hff _].
      - now exists code0, [], trace.
      - now exists 0, (reconcilePlan label out), trace. }
    destruct Hcmds as (code0 & plan & trace & Hc & Hff). clear Hshape.
    views. rewrite Hc, commands_report, app_nil_r.
    split; [destruct failure; auto|]. split; [|split].
    3:{ now destruct failure. }
    + intros _. split.
      * destruct failure as [code|]; [discriminate|]. intros _.
        apply FailFast_all_inv in Hff. rewrite Hff, removal_at_the_end.
        eexists ((gitLogOneline label, code0) :: _). reflexivity.
      * intros (front & Hfront). destruct failure as [code|]; [|reflexivity].
        exfalso.
        assert (Hnone : Some code = None); [|discriminate Hnone].
        assert (Htrace : exists front', trace
                  = front' ++ map succeeded
                       (removalPlan label (worktreePathOf (host_cwd w) configDir label))).
        { destruct front as [|first front].
          - exfalso. cbn in Hfront. injection Hfront as Hlog Hrest.
            unfold gitLogOneline, gitWorktreeRemove in Hlog. discriminate Hlog.
          - injection Hfront as _ Htrace. now exists front. }
        destruct Htrace as (front' & Htrace).
        apply (FailFast_ends_ok _ _ _
                 (front' ++ [succeeded (gitWorktreeRemove
                                           (worktreePathOf (host_cwd w) configDir label));
                             succeeded (gitBranchDelete label)])
                 (zellijDeleteSession label) Hff).
        rewrite Htrace, <- app_assoc. reflexivity.
    + destruct failure as [code|]; [|discriminate]. intros _.
      exists (Out ("Cleaning up worktree: " +++ worktreePathOf (host_cwd w) configDir label)
                :: evs), code.
      split; [|reflexivity].
      inversion Hff; subst; assumption.
  - rewrite Hrun. cbn [outcomeOf logOf fst snd log app].
    rewrite reads_cons, commands_cons, (Unanswered_reads _ _ Hasked),
      (Unanswered_commands _ _ Hasked).
    cbn [readOf commandOf app].
    split; [now right; right|]. split; [|split; [discriminate|]].
    + intros _. split; [discriminate|]. intros (front & Hfront).
      apply (f_equal (@List.length _)) in Hfront.
      rewrite length_app in Hfront. cbn in Hfront. lia.
    + intros _. split; [reflexivity|]. split; [reflexivity|].
      destruct Hasked as [out ->].
      now exists [Out ("Cleaning up worktree: "
                       +++ worktreePathOf (host_cwd w) configDir label);
                  Ran (gitLogOneline label) 0 out;
                  Out (unmergedNotice label)].
Qed.

Lemma removeAndDelete_asks_nothing label path (s : PState W) :
  exists evs,
    logOf (removeAndDelete label path s) = log s ++ evs
    /\ ~ In (Out (promptOf cherryPickQuestion)) evs.
Proof.
  unfold removeAndDelete, logOf. simp_run.
  run_sh; [run_sh; [run_sh|]|]; flatten_log;
    eexists; (split; [reflexivity|]); cbn; intros Hin;
    repeat (destruct Hin as [Hin|Hin]; [discriminate Hin|]); exact Hin.
Qed.

(** Property X7.  The operator is asked about cherry-picking exactly when
    [git log main..label] succeeds and prints something other than white
    space.  An answer is read only then, and only if the input has
    another chunk: when the input has ended, the question is the last
    thing that happens and the process ends with status 0, the worktree
    untouched.  A [git log] that fails counts as nothing unmerged:
    nothing is read from the terminal, and the only commands after it
    are the worktree removal, the branch deletion and the session
    deletion, up to the first that fails. *)
Theorem cleanup_asks_only_about_unmerged_commits
        label configDir (w : W) code out w1 answer w2 :
  host_exists (worktreePathOf (host_cwd w) configDir label) w = true ->
  host_shell (gitLogOneline label) w = (code, out, w1) ->
  host_stdin w1 = (answer, w2) ->
  (In (Out (promptOf cherryPickQuestion))
      (logOf (cleanupWorktree label configDir (start w)))
   <-> (code =? 0) && negb (Js.isEmpty (Js.trim out)) = true)
  /\ reads (logOf (cleanupWorktree label configDir (start w)))
     = (if (code =? 0) && negb (Js.isEmpty (Js.trim out))
        then match answer with Some data => [data] | None => [] end
        else [])
  /\ ((code =? 0) && negb (Js.isEmpty (Js.trim out)) = true ->
      answer = None ->
      cleanupWorktree label configDir (start w)
      = (Exited 0,
         mkPState w2
           [Out ("Cleaning up worktree: "
                 +++ worktreePathOf (host_cwd w) configDir label);
            Ran (gitLogOneline label) code out;
            Out (unmergedNotice label);
            Out (promptOf cherryPickQuestion)]))
  /\ ((code =? 0) && negb (Js.isEmpty (Js.trim out)) = false ->
      exists trace failure,
        commands (logOf (cleanupWorktree label configDir (start w)))
        = (gitLogOneline label, code) :: trace
        /\ FailFast (removalPlan label (worktreePathOf (host_cwd w) configDir label))
             trace failure
        /\ outcomeOf (cleanupWorktree label configDir (start w)) = exitedOr failure).
Proof.
  intros Hfound Hlog Hstdin.
  remember (cleanupWorktree label configDir (start w)) as run eqn:Hrun.
  unfold cleanupWorktree, start in Hrun. rewrite bind_cwd, bind_existsSync in Hrun.
  cbn [world log] in Hrun. rewrite Hfound in Hrun. cbn [negb] in Hrun.
  set (path := worktreePathOf (host_cwd w) configDir label) in *.
  rewrite bind_consoleLog in Hrun. cbn [world log app] in Hrun.
  unfold tryCatch, cleanupSteps in Hrun.
  rewrite (bind_run _ _ _ _ _
             (hasUnmergedCommits_at label (mkPState w _) code out w1 Hlog)) in Hrun.
  cbn [log app] in Hrun.
  destruct ((code =? 0) && negb (Js.isEmpty (Js.trim out))) eqn:Hunmerged.
  - rewrite bind_assoc, bind_consoleLog in Hrun. cbn [world log] in Hrun.
    rewrite bind_assoc, bind_promptUser in Hrun. cbn [world log] in Hrun.
    rewrite Hstdin in Hrun. cbn [app] in Hrun.
    destruct answer as [data|].
    2:{ subst run. cbn [logOf snd log]. split; [|split; [|split]].
        - split; [reflexivity|]. intros _. cbn. auto.
        - reflexivity.
        - reflexivity.
        - discriminate. }
    assert (Hasked : exists evs,
               logOf run
               = Out ("Cleaning up worktree: " +++ path)
                   :: Ran (gitLogOneline label) code out
                   :: Out (unmergedNotice label)
                   :: Out (promptOf cherryPickQuestion)
                   :: Read data :: evs
               /\ reads evs = []).
    { destruct (affirmative data).
      - match type of Hrun with
        | context [bind (cherryPickCommits label) ?k ?s0] =>
            destruct (cherryPickCommits_run label s0)
              as (evs1 & failure1 & w3 & out1 & Hpicks & _ & Hr1 & _ & _);
            rewrite (bind_run _ k _ _ _ Hpicks) in Hrun
        end.
        cbn [log] in Hrun. rewrite <- ?app_assoc in Hrun. cbn [app] in Hrun.
        destruct failure1 as [code1|]; cbn [thrownOr] in Hrun.
        + unfold showError, bind, consoleError, emit, processExit in Hrun.
          cbn [world log] in Hrun. subst run. cbn [logOf snd log].
          eexists. split; [reflexivity|]. views. now rewrite Hr1.
        + match type of Hrun with
          | context [removeAndDelete label path ?s0] =>
              destruct (removeAndDelete_run label path s0)
                as (evs2 & failure2 & w4 & Hremove & _ & Hr2 & _)
          end.
          rewrite Hremove in Hrun. cbn [log] in Hrun.
          destruct failure2; cbn [thrownOr] in Hrun;
            unfold showError, bind, consoleError, emit, processExit in Hrun;
            cbn [world log] in Hrun; subst run; cbn [logOf snd log];
            rewrite <- ?app_assoc; cbn [app];
            (eexists; split; [reflexivity|]); views; now rewrite Hr1, Hr2.
      - rewrite bind_ret in Hrun.
        match type of Hrun with
        | context [removeAndDelete label path ?s0] =>
            destruct (removeAndDelete_run label path s0)
              as (evs2 & failure2 & w4 & Hremove & _ & Hr2 & _)
        end.
        rewrite Hremove in Hrun. cbn [log] in Hrun.
        destruct failure2; cbn [thrownOr] in Hrun;
          unfold showError, bind, consoleError, emit, processExit in Hrun;
          cbn [world log] in Hrun; subst run; cbn [logOf snd log];
          rewrite <- ?app_assoc; cbn [app];
          (eexists; split; [reflexivity|]); views; now rewrite Hr2. }
    destruct Hasked as (evs & -> & Hr). split; [|split; [|split]].
    + split; [reflexivity|]. intros _. cbn. auto.
    + views. now rewrite Hr.
    + discriminate.
    + discriminate.
  - rewrite bind_ret in Hrun.
    assert (Hdirect : exists evs failure,
               logOf run
               = Out ("Cleaning up worktree: " +++ path)
                   :: Ran (gitLogOneline label) code out :: evs ++ reportOf failure
               /\ outcomeOf run = exitedOr failure
               /\ reads evs = []
               /\ FailFast (removalPlan label path) (commands evs) failure
               /\ ~ In (Out (promptOf cherryPickQuestion)) evs).
    { match type of Hrun with
      | context [removeAndDelete label path ?s0] =>
          destruct (removeAndDelete_asks_nothing label path s0)
            as (evs & Hevs & Hnone);
          destruct (removeAndDelete_run label path s0)
            as (evs2 & failure2 & w3 & Hremove & _ & Hr2 & Hff2)
      end.
      rewrite Hremove in Hrun, Hevs. unfold logOf in Hevs. cbn [snd log] in *.
      apply app_inv_head in Hevs. subst evs.
      exists evs2, failure2.
      destruct failure2; cbn [thrownOr] in Hrun;
        unfold showError, bind, consoleError, emit, processExit in Hrun;
        cbn [world log] in Hrun; subst run;
        cbn [logOf outcomeOf fst snd log exitedOr reportOf];
        rewrite <- ?app_assoc, ?app_nil_r; cbn [app]; auto. }
    destruct Hdirect as (evs & failure & Hlogrun & Hout & Hr & Hff & Hnone).
    rewrite Hlogrun, Hout. split; [|split; [|split]].
    + split; [|discriminate]. intros Hin. exfalso.
      destruct Hin as [Hin|[Hin|Hin]]; [discriminate Hin|discriminate Hin|].
      apply in_app_or in Hin as [Hin|Hin]; [exact (Hnone Hin)|].
      destruct failure; cbn [reportOf] in Hin;
        [destruct Hin as [Hin|[]]; discriminate Hin | destruct Hin].
    + views. rewrite Hr. now destruct failure.
    + discriminate.
    + intros _. exists (commands evs), failure. views.
      rewrite commands_report, app_nil_r. auto.
Qed.

(** Property X8.  A label whose worktree directory is not there: [cleanup] says
    so and returns, [open] reports it as an error and ends the process
    with status 1.  Neither runs a command or changes anything. *)
Theorem missing_worktree_cleanup_returns_open_exits label configDir (w : W) :
  labelOk label = true ->
  host_exists (worktreePathOf (host_cwd w) configDir label) w = false ->
  cleanupAction (Some label) configDir (start w)
  = (Returned tt,
     mkPState w
       [Out ("Worktree " +++ worktreePathOf (host_cwd w) configDir label
             +++ " does not exist.")])
  /\ openAction label configDir (start w)
     = (Exited 1,
        mkPState w
          [Err ("Error: " +++ "Worktree " +++ worktreePathOf (host_cwd w) configDir label
                +++ " does not exist.")]).
Proof.
  intros Hlabel Hmissing.
  destruct (valid_label_passes label configDir (start w) Hlabel) as [-> ->].
  split.
  - destruct (cleanupWorktree_run label configDir (start w))
      as [[_ Hrun]|[[Hfound _]|[Hfound _]]];
      [exact Hrun| |];
      cbn [start world] in Hfound; rewrite Hfound in Hmissing; discriminate Hmissing.
  - unfold openWorktree, start. rewrite bind_cwd, bind_existsSync. cbn [world log].
    fold (worktreePathOf (host_cwd w) configDir label). rewrite Hmissing.
    reflexivity.
Qed.

(** Property X9.  [cleanupAllWorktrees] when [git worktree list] fails: the
    failure is taken for an empty registry.  No question is asked, no
    cleanup is started, and the run returns after saying that there is
    nothing to clean up. *)
Theorem cleanupAll_takes_git_failure_for_no_worktrees configDir (w : W) code out w1 :
  host_shell gitWorktreeList w = (code, out, w1) ->
  code <> 0 ->
  getAllWorktrees configDir (start w)
  = (Returned [], mkPState w1 [Ran gitWorktreeList code out])
  /\ cleanupAllWorktrees configDir (start w)
     = (Returned tt,
        mkPState w1 [Ran gitWorktreeList code out; Out "No worktrees found to clean up."]).
Proof.
  intros Hsh Hcode.
  assert (Hget : getAllWorktrees configDir (start w)
                 = (Returned [], mkPState w1 [Ran gitWorktreeList code out])).
  { unfold getAllWorktrees, tryCatch.
    destruct (bind_sh gitWorktreeList
                (fun out =>
                   dir <- cwd ;;
                   ret (flat_map
                          (worktreeLabelOfLine (dir +++ "/" +++ configDir +++ "/worktrees/"))
                          (Js.split Js.LF out)))
                (start w)) as (code' & out' & w' & Hsh' & ->).
    cbn [start world] in Hsh'. rewrite Hsh in Hsh'. injection Hsh' as <- <- <-.
    apply Z.eqb_neq in Hcode. now rewrite Hcode. }
  split; [exact Hget|].
  unfold cleanupAllWorktrees. rewrite (bind_run _ _ _ _ _ Hget). reflexivity.
Qed.

(** Property X10.  Declining the cherry-pick does not stop the cleanup: when the
    one answer read during [cleanupWorktree] is not a yes, the commands
    after [git log] are the forced worktree removal, the forced branch
    deletion and the session deletion, up to the first that fails, so
    the commits that were not merged go with the branch. *)
Theorem declined_cherry_pick_still_deletes_branch label configDir (w : W) data :
  reads (logOf (cleanupWorktree label configDir (start w))) = [data] ->
  affirmative data = false ->
  exists trace failure,
    commands (logOf (cleanupWorktree label configDir (start w)))
    = (gitLogOneline label, 0) :: trace
    /\ FailFast (removalPlan label (worktreePathOf (host_cwd w) configDir label))
         trace failure
    /\ outcomeOf (cleanupWorktree label configDir (start w)) = exitedOr failure.
Proof.
  remember (cleanupWorktree label configDir (start w)) as run eqn:Hrun.
  intros Hreads Hno.
  unfold cleanupWorktree, start in Hrun. rewrite bind_cwd, bind_existsSync in Hrun.
  cbn [world log] in Hrun.
  set (path := worktreePathOf (host_cwd w) configDir label) in *.
  destruct (host_exists path w); cbn [negb] in Hrun.
  2:{ subst run. discriminate Hreads. }
  rewrite bind_consoleLog in Hrun. cbn [world log app] in Hrun.
  unfold tryCatch, cleanupSteps in Hrun.
  destruct (host_shell (gitLogOneline label) w) as [[code out] w1] eqn:Hlog.
  rewrite (bind_run _ _ _ _ _
             (hasUnmergedCommits_at label (mkPState w _) code out w1 Hlog)) in Hrun.
  cbn [log app] in Hrun.
  destruct ((code =? 0) && negb (Js.isEmpty (Js.trim out))) eqn:Hunmerged.
  - apply andb_prop in Hunmerged as [Hcode _]. apply Z.eqb_eq in Hcode. subst code.
    rewrite bind_assoc, bind_consoleLog in Hrun. cbn [world log] in Hrun.
    rewrite bind_assoc in Hrun.
    rewrite bind_promptUser in Hrun. cbn [world log] in Hrun.
    destruct (host_stdin w1) as [[data0|] w2].
    2:{ subst run. cbn [logOf snd log] in Hreads. revert Hreads. views.
        discriminate. }
    destruct (affirmative data0) eqn:Hyes.
    + exfalso.
      match type of Hrun with
      | context [bind (cherryPickCommits label) ?k ?s0] =>
          destruct (cherryPickCommits_run label s0)
            as (evs1 & failure1 & w3 & out1 & Hpicks & _ & Hr1 & _ & _);
          rewrite (bind_run _ k _ _ _ Hpicks) in Hrun
      end.
      cbn [log] in Hrun. rewrite <- ?app_assoc in Hrun. cbn [app] in Hrun.
      destruct failure1 as [code1|]; cbn [thrownOr] in Hrun.
      * unfold showError, bind, consoleError, emit, processExit in Hrun.
        cbn [world log] in Hrun. subst run. cbn [logOf snd log] in Hreads.
        rewrite <- ?app_assoc in Hreads. revert Hreads. views. rewrite Hr1. cbn.
        intros [= <-]. congruence.
      * match type of Hrun with
        | context [removeAndDelete label path ?s0] =>
            destruct (removeAndDelete_run label path s0)
              as (evs2 & failure2 & w4 & Hremove & _ & Hr2 & _)
        end.
        rewrite Hremove in Hrun. cbn [log] in Hrun.
        assert (Hreads' : reads (logOf run) = [data0]).
        { destruct failure2; cbn [thrownOr] in Hrun;
            unfold showError, bind, consoleError, emit, processExit in Hrun;
            cbn [world log] in Hrun; subst run; cbn [logOf snd log];
            rewrite <- ?app_assoc; views; now rewrite Hr1, Hr2. }
        congruence.
    + rewrite bind_ret in Hrun.
      match type of Hrun with
      | context [removeAndDelete label path ?s0] =>
          destruct (removeAndDelete_run label path s0)
            as (evs2 & failure2 & w4 & Hremove & _ & Hr2 & Hff2)
      end.
      rewrite Hremove in Hrun. cbn [log] in Hrun. rewrite <- ?app_assoc in Hrun.
      cbn [app] in Hrun.
      exists (commands evs2), failure2.
      destruct failure2; cbn [thrownOr] in Hrun;
        unfold showError, bind, consoleError, emit, processExit in Hrun;
        cbn [world log] in Hrun; subst run; cbn [logOf outcomeOf fst snd log exitedOr];
        rewrite <- ?app_assoc; views; rewrite ?app_nil_r; auto.
  - exfalso. rewrite bind_ret in Hrun.
    match type of Hrun with
    | context [removeAndDelete label path ?s0] =>
        destruct (removeAndDelete_run label path s0)
          as (evs2 & failure2 & w4 & Hremove & _ & Hr2 & _)
    end.
    rewrite Hremove in Hrun. cbn [log] in Hrun.
    assert (Hreads' : reads (logOf run) = []).
    { destruct failure2; cbn [thrownOr] in Hrun;
        unfold showError, bind, consoleError, emit, processExit in Hrun;
        cbn [world log] in Hrun; subst run; cbn [logOf snd log];
        rewrite <- ?app_assoc; views; now rewrite Hr2. }
    congruence.
Qed.

End CleanupExtras.

(* ================================================================== *)
(** * The registry of worktrees *)
(* ================================================================== *)

Lemma length_append s t :
  String.length (s +++ t) = (String.length s + String.length t)%nat.
Proof. induction s as [|c s IH]; cbn; [reflexivity | now rewrite IH]. Qed.

Lemma startsWith_length s p :
  Js.startsWith s p = true -> (String.length p <= String.length s)%nat.
Proof.
  intros Hs. apply startsWith_inv in Hs as [rest ->]. rewrite length_append. lia.
Qed.

Lemma allChars_impl (p q : ascii -> bool) s :
  (forall c, p c = true -> q c = true) -> allChars p s = true -> allChars q s = true.
Proof.
  intros Hpq. induction s as [|c s IH]; [reflexivity|]. cbn.
  intros Hs. apply andb_prop in Hs as [Hc Hs]. now rewrite (Hpq _ Hc), (IH Hs).
Qed.

Lemma labelClass_solid c :
  Regex.inClass labelClass c = true
  -> negb (Js.isWhiteSpace c) = true /\ negb (Ascii.eqb c Js.LF) = true.
Proof.
  destruct c as [[] [] [] [] [] [] [] []]; vm_compute; intros Hc;
    first [discriminate Hc | now split].
Qed.

Lemma labelOk_chars label :
  labelOk label = true
  -> label <> "" /\ allChars (fun c => negb (Js.isWhiteSpace c)) label = true
     /\ singleLine label = true.
Proof.
  rewrite labelOk_unfold. destruct label as [|c rest]; [discriminate|].
  intros Hok. apply andb_prop in Hok as [Hc Hrest].
  split; [discriminate|]. split.
  - cbn [allChars]. rewrite (proj1 (labelClass_solid _ Hc)).
    exact (allChars_impl _ _ _ (fun c H => proj1 (labelClass_solid c H)) Hrest).
  - unfold singleLine. cbn [allChars]. rewrite (proj2 (labelClass_solid _ Hc)).
    exact (allChars_impl _ _ _ (fun c H => proj2 (labelClass_solid c H)) Hrest).
Qed.

Lemma labelOk_trimEnd label : labelOk label = true -> Js.trimEnd label = label.
Proof.
  intros Hok. destruct (labelOk_chars _ Hok) as (_ & Hsolid & _).
  rewrite <- (append_nil_r label) at 1. rewrite (trimEnd_app_solid _ _ Hsolid).
  apply append_nil_r.
Qed.

(** What a line of the listing contributes. *)
Lemma worktreeLabelOfLine_in worktreesDir raw label :
  In label (worktreeLabelOfLine worktreesDir raw)
  <-> label <> "" /\ Js.trim raw = "worktree " +++ worktreesDir +++ label.
Proof.
  unfold worktreeLabelOfLine.
  destruct (Js.truthy (Js.trim raw)
            && Js.startsWith (Js.trim raw) ("worktree " +++ worktreesDir)) eqn:Htest.
  - apply andb_prop in Htest as [_ Hstarts].
    apply startsWith_inv in Hstarts as [rest ->].
    rewrite append_assoc, (substring_app "worktree "), substring_app.
    destruct rest as [|c rest]; cbn [Js.truthy Js.isEmpty negb In].
    + split; [tauto|]. intros [Hne Heq]. apply append_inj_l, append_inj_l in Heq.
      now subst label.
    + split.
      * intros [<-|[]]. split; [discriminate | reflexivity].
      * intros [_ Heq]. apply append_inj_l, append_inj_l in Heq. now left.
  - split; [intros []|]. intros [Hne Heq]. rewrite Heq in Htest.
    rewrite <- append_assoc, startsWith_app, andb_true_r in Htest.
    cbn in Htest. discriminate Htest.
Qed.

Lemma worktreeLabelOfLine_registered worktreesDir label :
  labelOk label = true ->
  worktreeLabelOfLine worktreesDir ("worktree " +++ worktreesDir +++ label) = [label].
Proof.
  intros Hok. destruct (labelOk_chars _ Hok) as (Hne & _ & _).
  assert (Htrim : Js.trim ("worktree " +++ worktreesDir +++ label)
                  = "worktree " +++ worktreesDir +++ label).
  { assert (Hstart : Js.trimStart ("worktree " +++ worktreesDir +++ label)
                     = "worktree " +++ worktreesDir +++ label) by reflexivity.
    unfold Js.trim. rewrite Hstart, <- append_assoc.
    apply trimEnd_app_keep; [exact Hne | now apply labelOk_trimEnd]. }
  unfold worktreeLabelOfLine. rewrite Htrim.
  rewrite <- (append_assoc "worktree "), startsWith_app.
  rewrite append_assoc, (substring_app "worktree "), substring_app.
  destruct label; [contradiction | reflexivity].
Qed.

Lemma worktreeLabelOfLine_short worktreesDir raw :
  (String.length raw < String.length ("worktree " +++ worktreesDir))%nat ->
  worktreeLabelOfLine worktreesDir raw = [].
Proof.
  intros Hlen. unfold worktreeLabelOfLine.
  destruct (Js.startsWith (Js.trim raw) ("worktree " +++ worktreesDir)) eqn:Hstarts;
    [|now rewrite andb_false_r].
  apply startsWith_length in Hstarts. pose proof (trim_length raw). lia.
Qed.

Lemma worktreeLabelOfLine_other worktreesDir c rest :
  Js.isWhiteSpace c = false -> Ascii.eqb "w" c = false ->
  worktreeLabelOfLine worktreesDir (String c rest) = [].
Proof.
  intros Hc Hw. unfold worktreeLabelOfLine, Js.trim. cbn [Js.trimStart]. rewrite Hc.
  rewrite (trimEnd_solid_head _ _ Hc). cbn [String.append Js.startsWith].
  rewrite Hw. cbn [andb]. now rewrite andb_false_r.
Qed.

Lemma worktreeLabelOfLine_head worktreesDir head :
  worktreeLabelOfLine worktreesDir ("HEAD " +++ head) = [].
Proof. exact (worktreeLabelOfLine_other worktreesDir "H" ("EAD " +++ head) eq_refl eq_refl). Qed.

Lemma worktreeLabelOfLine_branch worktreesDir branch :
  worktreeLabelOfLine worktreesDir ("branch " +++ branch) = [].
Proof.
  exact (worktreeLabelOfLine_other worktreesDir "b" ("ranch " +++ branch) eq_refl eq_refl).
Qed.

Lemma split_porcelainEntry path head branch rest :
  singleLine path = true -> singleLine head = true -> singleLine branch = true ->
  Js.split Js.LF (porcelainEntry path head branch +++ rest)
  = ("worktree " +++ path) :: ("HEAD " +++ head) :: ("branch " +++ branch) :: ""
      :: Js.split Js.LF rest.
Proof.
  intros Hp Hh Hb. unfold porcelainEntry.
  replace (("worktree " +++ path +++ Js.nl +++ "HEAD " +++ head +++ Js.nl
            +++ "branch " +++ branch +++ Js.nl +++ Js.nl) +++ rest)
    with (("worktree " +++ path) +++ Js.nl
          +++ ("HEAD " +++ head) +++ Js.nl
          +++ ("branch " +++ branch) +++ Js.nl +++ "" +++ Js.nl +++ rest)
    by (rewrite !append_assoc; reflexivity).
  rewrite !split_line; try reflexivity; rewrite singleLine_app; auto.
Qed.

Lemma lines_porcelainOf worktreesDir registered :
  singleLine worktreesDir = true ->
  Forall (fun r => labelOk (fst r) = true /\ singleLine (snd r) = true) registered ->
  flat_map (worktreeLabelOfLine worktreesDir)
    (Js.split Js.LF (porcelainOf worktreesDir registered))
  = map fst registered.
Proof.
  intros Hdir. induction 1 as [|[label head] registered [Hok Hhead] _ IH]; [reflexivity|].
  cbn [fst snd] in Hok, Hhead. destruct (labelOk_chars _ Hok) as (_ & _ & Hline).
  cbn [porcelainOf map fst].
  rewrite split_porcelainEntry;
    [ | rewrite singleLine_app, Hdir, Hline; reflexivity
      | exact Hhead
      | rewrite singleLine_app, Hline; reflexivity ].
  cbn [flat_map]. rewrite IH.
  rewrite (worktreeLabelOfLine_registered _ _ Hok).
  rewrite worktreeLabelOfLine_head, worktreeLabelOfLine_branch. reflexivity.
Qed.

Section RegistryExtras.
Context {W : Type} `{Host W}.

Lemma getAllWorktrees_at configDir (s : PState W) code out w1 :
  host_shell gitWorktreeList (world s) = (code, out, w1) ->
  getAllWorktrees configDir s
  = (Returned
       (if code =? 0
        then flat_map
               (worktreeLabelOfLine (host_cwd w1 +++ "/" +++ configDir +++ "/worktrees/"))
               (Js.split Js.LF out)
        else []),
     mkPState w1 (log s ++ [Ran gitWorktreeList code out])).
Proof.
  intros Hsh. unfold getAllWorktrees, tryCatch.
  destruct (bind_sh gitWorktreeList
              (fun out =>
                 dir <- cwd ;;
                 ret (flat_map
                        (worktreeLabelOfLine (dir +++ "/" +++ configDir +++ "/worktrees/"))
                        (Js.split Js.LF out)))
              s) as (code' & out' & w' & Hsh' & ->).
  rewrite Hsh in Hsh'. injection Hsh' as <- <- <-.
  now destruct (code =? 0).
Qed.

(** Property X11.  What [getAllWorktrees] lists when [git worktree list] succeeds:
    a label is listed exactly when it is not empty and some line of the
    output, white space around it removed, is [worktree] followed by the
    path of that label in the worktrees directory of the configuration.
    So the main worktree and worktrees elsewhere are never listed. *)
Theorem getAllWorktrees_lists_labels_under_config_dir configDir (w : W) out w1 label :
  host_shell gitWorktreeList w = (0, out, w1) ->
  exists labels,
    outcomeOf (getAllWorktrees configDir (start w)) = Returned labels
    /\ (In label labels
        <-> label <> ""
            /\ exists line,
                 In line (Js.split Js.LF out)
                 /\ Js.trim line
                    = "worktree " +++ worktreePathOf (host_cwd w1) configDir label).
Proof.
  intros Hsh. rewrite (getAllWorktrees_at configDir (start w) 0 out w1 Hsh).
  eexists. split; [reflexivity|]. cbn [Z.eqb]. rewrite in_flat_map.
  unfold worktreePathOf. split.
  - intros (line & Hin & Hlabel). apply worktreeLabelOfLine_in in Hlabel as [Hne Htrim].
    split; [exact Hne|]. exists line. split; [exact Hin|].
    rewrite Htrim, !append_assoc. reflexivity.
  - intros (Hne & line & Hin & Htrim). exists line. split; [exact Hin|].
    apply worktreeLabelOfLine_in. split; [exact Hne|].
    rewrite Htrim, !append_assoc. reflexivity.
Qed.

(** Property X12.  Reading the registry back: when [git worktree list --porcelain]
    prints the entry of the main worktree and then the entries of the
    worktrees that [new] made for some labels, [getAllWorktrees] returns
    those labels, in the order of the listing, and nothing else. *)
Theorem getAllWorktrees_reads_back_labels configDir (w w1 : W) mainHead mainBranch registered :
  singleLine (host_cwd w1) = true -> singleLine configDir = true ->
  singleLine mainHead = true -> singleLine mainBranch = true ->
  Forall (fun r => labelOk (fst r) = true /\ singleLine (snd r) = true) registered ->
  host_shell gitWorktreeList w
  = (0,
     porcelainEntry (host_cwd w1) mainHead mainBranch
     +++ porcelainOf (host_cwd w1 +++ "/" +++ configDir +++ "/worktrees/") registered,
     w1) ->
  outcomeOf (getAllWorktrees configDir (start w)) = Returned (map fst registered).
Proof.
  intros Hcwd Hdir Hhead Hbranch Hreg Hsh.
  rewrite (getAllWorktrees_at configDir (start w) _ _ w1 Hsh).
  cbn [outcomeOf fst Z.eqb]. f_equal.
  rewrite split_porcelainEntry by assumption. cbn [flat_map].
  rewrite lines_porcelainOf; auto; [|now rewrite !singleLine_app, Hcwd, Hdir].
  rewrite worktreeLabelOfLine_head, worktreeLabelOfLine_branch.
  rewrite worktreeLabelOfLine_short; [reflexivity|].
  rewrite !length_append. cbn [String.length]. lia.
Qed.

End RegistryExtras.

Lemma registry_witness :
  outcomeOf (getAllWorktrees ".wt" (start Scenario.listed)) = Returned ["a"; "b"].
Proof.
  refine (getAllWorktrees_reads_back_labels ".wt" Scenario.listed Scenario.listed
            "1111111" "refs/heads/main" [("a", "2222222"); ("b", "3333333")]
            _ _ _ _ _ _); try reflexivity.
  repeat constructor.
Defined.

Lemma registry_membership_witness :
  exists labels,
    outcomeOf (getAllWorktrees ".wt" (start Scenario.firstRemovalFails)) = Returned labels
    /\ (In "b" labels
        <-> "b" <> ""
            /\ exists line,
                 In line (Js.split Js.LF Scenario.porcelain)
                 /\ Js.trim line = "worktree " +++ worktreePathOf "/repo" ".wt" "b").
Proof.
  refine (getAllWorktrees_lists_labels_under_config_dir
            ".wt" Scenario.firstRemovalFails Scenario.porcelain
            Scenario.firstRemovalFails "b" _).
  reflexivity.
Defined.

(* ================================================================== *)
(** * Opening a worktree *)
(* ================================================================== *)

Lemma includes_startsWith s t : Js.startsWith s t = true -> Js.includes s t = true.
Proof. intros Hs. destruct s; cbn [Js.includes]; now rewrite Hs. Qed.

Lemma includes_app before t after : Js.includes (before +++ t +++ after) t = true.
Proof.
  induction before as [|c before IH].
  - apply includes_startsWith. exact (startsWith_app t after).
  - cbn [String.append Js.includes]. rewrite IH. apply orb_true_r.
Qed.

Section OpenExtras.
Context {W : Type} `{Host W}.

#[local] Arguments banners : simpl never.
#[local] Arguments reads : simpl never.
#[local] Arguments commands : simpl never.
#[local] Arguments shellError : simpl never.

Lemma bind_shNothrow {A} cmd (k : Z * string -> M W A) (s : PState W) :
  bind (shNothrow cmd) k s
  = k (fst (host_shell cmd (world s)))
      (mkPState (snd (host_shell cmd (world s)))
         (log s ++ [Ran cmd (fst (fst (host_shell cmd (world s))))
                      (snd (fst (host_shell cmd (world s))))])).
Proof.
  unfold bind, shNothrow. now destruct (host_shell cmd (world s)) as [[code out] w'].
Qed.

(** Every run of [openWorktree] that gets to the session. *)
Lemma openWorktree_run label configDir (w : W) config code out w1 :
  host_exists (worktreePathOf (host_cwd w) configDir label) w = true ->
  ConfigLoads w configDir config ->
  host_shell ["zellij"; "list-sessions"; "-ns"] w = (code, out, w1) ->
  let path := worktreePathOf (host_cwd w) configDir label in
  let sessionName := "wt-" +++ label in
  let listed :=
    (code =? 0)
    && existsb (fun line => Js.includes line sessionName) (Js.split Js.LF (Js.trim out)) in
  let argv :=
    if listed then ["zellij"; "attach"; sessionName]
    else zellijNewSession (configDir +++ "/" +++ layout config) sessionName in
  let said :=
    if listed then "Attaching to existing zellij session: " +++ sessionName
    else "Creating new zellij session: " +++ sessionName in
  openWorktree label configDir (start w)
  = match host_spawn argv path w1 with
    | (inr status, w2) =>
        (Returned tt,
         mkPState w2
           [Ran ["zellij"; "list-sessions"; "-ns"] code out; Out said;
            Spawned argv path (inr status); Out "✓ Closed worktree session"])
    | (inl e, w2) =>
        (Exited 1,
         mkPState w2
           [Ran ["zellij"; "list-sessions"; "-ns"] code out; Out said;
            Spawned argv path (inl e);
            Err ("Error: " +++ "Failed to open worktree session: " +++ e)])
    end.
Proof.
  intros Hfound (Hfile & Heval & Hlayout) Hlist path sessionName listed argv said.
  unfold openWorktree. rewrite bind_cwd, bind_existsSync. cbn [world start].
  rewrite Hfound. cbn [negb]. rewrite bind_failIf_false. fold path.
  rewrite (bind_run _ _ _ _ _ (loadConfig_ok configDir (mkPState w []) config
                                 Hfile Heval Hlayout)).
  unfold tryCatch. rewrite bind_shNothrow. cbn [world log]. rewrite Hlist.
  cbn [fst snd app]. fold sessionName.
  assert (Hsessions :
            existsb (fun s => Js.includes s sessionName)
              (if code =? 0 then Js.split Js.LF (Js.trim out) else [])
            = listed).
  { unfold listed. now destruct (code =? 0). }
  rewrite Hsessions. unfold argv, said, zellijNewSession.
  destruct listed; rewrite bind_assoc, bind_consoleLog, bind_assoc, bind_spawn;
    cbn [world log app];
    match goal with
    | |- context [host_spawn ?a ?d ?x] => destruct (host_spawn a d x) as [[e|status] w2]
    end; reflexivity.
Qed.

(** Property X13.  [open] on an existing worktree with a configuration that loads:
    one command is run, [zellij list-sessions -ns], and one process is
    started, in the worktree directory.  It attaches to the session of
    the label when the listing succeeded and some line of it contains
    the session name; otherwise, and so also when the listing fails, it
    starts a new session with the configured layout.  Whatever status
    that process ends with, [open] returns; when the process cannot be
    started it reports the error and ends with status 1. *)
Theorem openWorktree_attaches_or_creates label configDir (w : W) config code out w1 :
  host_exists (worktreePathOf (host_cwd w) configDir label) w = true ->
  ConfigLoads w configDir config ->
  host_shell ["zellij"; "list-sessions"; "-ns"] w = (code, out, w1) ->
  let path := worktreePathOf (host_cwd w) configDir label in
  let argv :=
    if (code =? 0)
       && existsb (fun line => Js.includes line ("wt-" +++ label))
            (Js.split Js.LF (Js.trim out))
    then ["zellij"; "attach"; "wt-" +++ label]
    else zellijNewSession (configDir +++ "/" +++ layout config) ("wt-" +++ label) in
  commands (logOf (openWorktree label configDir (start w)))
  = [(["zellij"; "list-sessions"; "-ns"], code)]
  /\ spawns (logOf (openWorktree label configDir (start w))) = [(argv, path)]
  /\ match fst (host_spawn argv path w1) with
     | inr status => outcomeOf (openWorktree label configDir (start w)) = Returned tt
     | inl e =>
         outcomeOf (openWorktree label configDir (start w)) = Exited 1
         /\ In (Err ("Error: Failed to open worktree session: " +++ e))
              (logOf (openWorktree label configDir (start w)))
     end.
Proof.
  intros Hfound Hconfig Hlist path argv.
  rewrite (openWorktree_run label configDir w config code out w1 Hfound Hconfig Hlist).
  fold path. fold argv.
  destruct (host_spawn argv path w1) as [[e|status] w2]; cbn [fst].
  - repeat split. cbn. auto.
  - repeat split.
Qed.

(** Property X14.  The session test is a substring test: a listed session whose
    name merely contains [wt-label] is taken for the session of the
    label, and [open] attaches instead of starting a new session. *)
Theorem openWorktree_matches_session_names_by_substring
    label configDir (w : W) config out w1 before after :
  host_exists (worktreePathOf (host_cwd w) configDir label) w = true ->
  ConfigLoads w configDir config ->
  host_shell ["zellij"; "list-sessions"; "-ns"] w = (0, out, w1) ->
  In (before +++ ("wt-" +++ label) +++ after) (Js.split Js.LF (Js.trim out)) ->
  spawns (logOf (openWorktree label configDir (start w)))
  = [(["zellij"; "attach"; "wt-" +++ label],
      worktreePathOf (host_cwd w) configDir label)].
Proof.
  intros Hfound Hconfig Hlist Hin.
  rewrite (openWorktree_run label configDir w config 0 out w1 Hfound Hconfig Hlist).
  assert (Hlisted : existsb (fun line => Js.includes line ("wt-" +++ label))
                      (Js.split Js.LF (Js.trim out)) = true).
  { apply existsb_exists. eexists. split; [exact Hin|]. apply includes_app. }
  rewrite Hlisted. cbn [Z.eqb andb].
  match goal with
  | |- context [host_spawn ?a ?d ?x] => destruct (host_spawn a d x) as [[e|status] w2]
  end; reflexivity.
Qed.

End OpenExtras.

(* ================================================================== *)
(** * Creating a worktree *)
(* ================================================================== *)

Lemma envContentOf_from acc envVars :
  fold_left
    (fun envContent kv =>
       envContent +++ fst kv +++ "=" +++ showEnvValue (snd kv) +++ Js.nl)
    envVars acc
  = acc +++ envContentOf envVars.
Proof.
  unfold envContentOf. revert acc.
  induction envVars as [|entry envVars IH]; intros acc; cbn [fold_left].
  - now rewrite append_nil_r.
  - rewrite IH. rewrite (IH ("" +++ _)). cbn [String.append].
    apply append_assoc.
Qed.

Lemma envContentOf_cons entry envVars :
  envContentOf (entry :: envVars) = envLine entry +++ Js.nl +++ envContentOf envVars.
Proof.
  unfold envContentOf at 1. cbn [fold_left]. rewrite envContentOf_from.
  unfold envLine. rewrite !append_assoc. cbn [String.append].
  now rewrite ?append_assoc.
Qed.

(** Property X15.  The environment file has one line per entry, [KEY=value], in
    the order of the entries, and ends with a line break: split at the
    line breaks it gives those lines back, and one empty field after the
    last. *)
Theorem envContentOf_one_line_per_entry (envVars : list (string * EnvValue)) :
  Forall (fun entry => singleLine (fst entry) = true
                       /\ singleLine (showEnvValue (snd entry)) = true) envVars ->
  Js.split Js.LF (envContentOf envVars) = map envLine envVars ++ [""].
Proof.
  induction 1 as [|entry envVars [Hkey Hvalue] _ IH]; [reflexivity|].
  rewrite envContentOf_cons, split_line, IH; [reflexivity|].
  unfold envLine. now rewrite !singleLine_app, Hkey, Hvalue.
Qed.

Lemma envContentOf_witness :
  Js.split Js.LF (envContentOf [("PORT", EnvNum 3005); ("API_KEY", EnvStr "secret")])
  = ["PORT=3005"; "API_KEY=secret"; ""].
Proof.
  refine (envContentOf_one_line_per_entry
            [("PORT", EnvNum 3005); ("API_KEY", EnvStr "secret")] _).
  repeat constructor.
Defined.

Section CreateExtras.
Context {W : Type} `{Host W}.

#[local] Arguments banners : simpl never.
#[local] Arguments reads : simpl never.
#[local] Arguments commands : simpl never.
#[local] Arguments shellError : simpl never.

Lemma spawns_app (l1 l2 : list Event) : spawns (l1 ++ l2) = spawns l1 ++ spawns l2.
Proof. apply flat_map_app. Qed.

Lemma createSteps_run label path (s : PState W) :
  exists evs failure w',
    createSteps label path s = (thrownOr failure tt, mkPState w' (log s ++ evs))
    /\ Forall Quiet evs /\ reads evs = []
    /\ FailFast (creationPlan label path) (commands evs) failure.
Proof.
  unfold createSteps, creationPlan. simp_run.
  run_sh; [run_sh; [run_sh|]|]; flatten_log.
  - eexists _, None, _. split; [reflexivity|]. split; [quiet|]. views.
    repeat split. exact (ff_all _).
  - eexists _, (Some code), _. split; [reflexivity|]. split; [quiet|]. views.
    repeat split. now apply FailFast_cons_ok, FailFast_cons_ok, FailFast_cons_stop.
  - eexists _, (Some code), _. split; [reflexivity|]. split; [quiet|]. views.
    repeat split. now apply FailFast_cons_ok, FailFast_cons_stop.
  - eexists _, (Some code), _. split; [reflexivity|]. split; [quiet|]. views.
    repeat split. now apply FailFast_cons_stop.
Qed.

(** Property X16.  Creating a worktree that is not there yet: [git worktree add],
    the copy of the scaffold and the dependency install run in that
    order, each only if the one before exited with status 0.  When one
    fails, the failure is reported and the process ends with status 1:
    no later command runs, nothing is read from the terminal, no file is
    written and no session is started.  When all three succeed, the only
    commands that can follow are those of the cleanup of that label. *)
Theorem createWorktree_creation_is_fail_fast label configDir (w : W) :
  labelOk label = true ->
  host_exists (worktreePathOf (host_cwd w) configDir label) w = false ->
  exists trace failure rest,
    commands (logOf (createWorktree (Some label) configDir (start w))) = trace ++ rest
    /\ FailFast (creationPlan label (worktreePathOf (host_cwd w) configDir label))
         trace failure
    /\ (forall cmd code, In (cmd, code) rest -> cleanupCommand label cmd)
    /\ (forall code,
          failure = Some code ->
          outcomeOf (createWorktree (Some label) configDir (start w)) = Exited 1
          /\ rest = []
          /\ reads (logOf (createWorktree (Some label) configDir (start w))) = []
          /\ writes (logOf (createWorktree (Some label) configDir (start w))) = []
          /\ spawns (logOf (createWorktree (Some label) configDir (start w))) = []
          /\ exists before,
               logOf (createWorktree (Some label) configDir (start w))
               = before
                 ++ [Err ("Error: Failed to create worktree: " +++ shellError code)]).
Proof.
  intros Hok Hmissing.
  set (path := worktreePathOf (host_cwd w) configDir label) in *.
  remember (createWorktree (Some label) configDir (start w)) as run eqn:Hrun.
  unfold createWorktree, resolveLabel in Hrun. rewrite (labelOk_truthy _ Hok) in Hrun.
  rewrite bind_ret, Hok in Hrun. cbn [negb] in Hrun.
  rewrite bind_failIf_false, bind_cwd, bind_existsSync in Hrun.
  cbn [world start] in Hrun. fold path in Hrun. rewrite Hmissing in Hrun.
  rewrite bind_assoc, bind_consoleLog in Hrun. cbn [world log start app] in Hrun.
  unfold bind at 1 in Hrun. unfold tryCatch at 1 in Hrun.
  destruct (createSteps_run label path (mkPState w [Out ("Creating worktree: " +++ path)]))
    as (evs & failure & w1 & Hsteps & Hq & Hr & Hff).
  cbn [log app] in Hsteps. rewrite Hsteps in Hrun. clear Hsteps.
  destruct (quiet_views _ Hq) as (_ & Hw & Hs & _).
  assert (Hfront : forall tail,
             commands (Out ("Creating worktree: " +++ path) :: evs ++ tail)
             = commands evs ++ commands tail).
  { intros tail. rewrite commands_cons, commands_app. reflexivity. }
  destruct failure as [code|]; cbn [thrownOr] in Hrun.
  - exists (commands evs), (Some code), [].
    unfold showError, bind, consoleError, emit, processExit in Hrun.
    cbn [world log app] in Hrun. subst run. cbn [logOf outcomeOf fst snd log].
    split; [now rewrite Hfront|]. split; [exact Hff|]. split; [intros ? ? []|].
    intros ? [= <-]. split; [reflexivity|]. split; [reflexivity|].
    change (Out ("Creating worktree: " +++ path) :: evs ++ ?tail)
      with ([Out ("Creating worktree: " +++ path)] ++ evs ++ tail).
    split; [now rewrite !reads_app, Hr|].
    split; [now rewrite !writes_app, Hw|].
    split; [now rewrite !spawns_app, Hs|].
    eexists. rewrite !app_assoc. reflexivity.
  - exists (commands evs), None.
    cbn [ret] in Hrun.
    match type of Hrun with
    | context [bind (loadConfig configDir) ?k ?s0] =>
        destruct (loadConfig_run configDir s0) as [(config & Hload & _)|(message & Hload)];
        rewrite (bind_run _ k _ _ _ Hload) in Hrun
    end.
    + match type of Hrun with
      | context [bind (writeEnvironment config ?p) ?k ?s0] =>
          destruct (writeEnvironment_run config p s0) as (evs2 & o2 & w2 & Hwrite & Hc2);
          rewrite (bind_run _ k _ _ _ Hwrite) in Hrun
      end.
      cbn [log] in Hrun.
      destruct o2 as [[]|e|c].
      * rewrite bind_consoleLog in Hrun. cbn [world log] in Hrun.
        match type of Hrun with
        | context [tryCatch (sessionSteps label configDir ?p ?lay) ?h ?s0] =>
            destruct (sessionBlock_run label configDir p lay s0)
              as (evs3 & o3 & w3 & r & Hsession & _ & Hc3)
        end.
        rewrite Hsession in Hrun. clear Hsession. cbn [log] in Hrun.
        exists (commands evs3). subst run. cbn [logOf snd log].
        split; [|split; [exact Hff|split; [exact Hc3|discriminate]]].
        rewrite <- ?app_assoc. cbn [app]. rewrite Hfront, !commands_app, Hc2.
        reflexivity.
      * exists []. subst run. cbn [logOf snd log].
        split; [|split; [exact Hff|split; [intros ? ? []|discriminate]]].
        rewrite <- ?app_assoc. cbn [app]. now rewrite Hfront, Hc2.
      * exists []. subst run. cbn [logOf snd log].
        split; [|split; [exact Hff|split; [intros ? ? []|discriminate]]].
        rewrite <- ?app_assoc. cbn [app]. now rewrite Hfront, Hc2.
    + exists []. subst run. cbn [logOf snd log world].
      split; [|split; [exact Hff|split; [intros ? ? []|discriminate]]].
      rewrite <- ?app_assoc. cbn [app]. now rewrite Hfront.
Qed.

(** Property X17.  An error of the configuration's [environment] function is not
    caught: on an existing worktree, [new] ends with that error, having
    run no command, read nothing, written no file and started no
    session. *)
Theorem environment_error_is_not_caught label configDir (w : W) config script error :
  labelOk label = true ->
  host_exists (worktreePathOf (host_cwd w) configDir label) w = true ->
  ConfigLoads w configDir config ->
  environment config = Some script ->
  outcomeOf (callEnvironment script (start w)) = Thrown error ->
  outcomeOf (createWorktree (Some label) configDir (start w)) = Thrown error
  /\ commands (logOf (createWorktree (Some label) configDir (start w))) = []
  /\ reads (logOf (createWorktree (Some label) configDir (start w))) = []
  /\ writes (logOf (createWorktree (Some label) configDir (start w))) = []
  /\ spawns (logOf (createWorktree (Some label) configDir (start w))) = [].
Proof.
  intros Hok Hfound (Hfile & Heval & Hlayout) Hscript Hthrown.
  remember (createWorktree (Some label) configDir (start w)) as run eqn:Hrun.
  rewrite (createWorktree_existing label configDir w Hok Hfound) in Hrun.
  rewrite (bind_run _ _ _ _ _ (loadConfig_ok configDir (mkPState w _) config
                                 Hfile Heval Hlayout)) in Hrun.
  unfold writeEnvironment in Hrun. rewrite Hscript in Hrun.
  destruct (callEnvironment_frame script w) as (o & evs & Hprobes & Hcall).
  unfold start in Hthrown. rewrite (Hcall []) in Hthrown. cbn in Hthrown. subst o.
  rewrite bind_assoc in Hrun. unfold bind at 1 in Hrun. rewrite Hcall in Hrun.
  subst run. cbn [outcomeOf logOf fst snd log].
  destruct (probes_only_views _ Hprobes) as (Hc & Hr & Hw & Hs & _).
  split; [reflexivity|].
  rewrite commands_app, reads_app, writes_app, spawns_app, Hc, Hr, Hw, Hs.
  repeat split.
Qed.

End CreateExtras.

(* ================================================================== *)
(** * The session, the generated label and the configuration *)
(* ================================================================== *)

Section SessionExtras.
Context {W : Type} `{Host W}.

#[local] Arguments banners : simpl never.
#[local] Arguments reads : simpl never.
#[local] Arguments commands : simpl never.
#[local] Arguments shellError : simpl never.

(** Property X18.  After the session of [new]: when the operator consents, what
    follows is exactly the cleanup of that label, whatever status the
    session ended with; when the session cannot be started, the error is
    reported, the process ends with status 1 and the operator is not
    asked. *)
Theorem session_end_offers_cleanup label configDir path layoutPath (s : PState W) :
  (forall code w1 data w2,
      host_spawn (zellijNewSession layoutPath ("wt-" +++ label)) path (world s)
      = (inr code, w1) ->
      host_stdin w1 = (Some data, w2) ->
      affirmative data = true ->
      sessionSteps label configDir path layoutPath s
      = cleanupWorktree label configDir
          (mkPState w2
             (log s ++ [Spawned (zellijNewSession layoutPath ("wt-" +++ label)) path
                          (inr code);
                        Out (sessionMessage code);
                        Out "";
                        Out (("Do you want to clean up the worktree '" +++ label +++ "'?")
                             +++ " (y/N): ");
                        Read data;
                        Out (Js.nl +++ "--- Starting automatic cleanup ---")])))
  /\ (forall e w1,
        host_spawn (zellijNewSession layoutPath ("wt-" +++ label)) path (world s)
        = (inl e, w1) ->
        tryCatch (sessionSteps label configDir path layoutPath)
          (fun error => showError ("Failed to create zellij session: " +++ error)) s
        = (Exited 1,
           mkPState w1
             (log s ++ [Spawned (zellijNewSession layoutPath ("wt-" +++ label)) path (inl e);
                        Err ("Error: " +++ "Failed to create zellij session: " +++ e)]))).
Proof.
  split.
  - intros code w1 data w2 Hspawn Hstdin Hyes.
    unfold sessionSteps, sessionMessage.
    rewrite bind_spawn, Hspawn, if_consoleLog.
    rewrite !bind_consoleLog. cbn [world log].
    rewrite bind_promptUser. cbn [world log].
    rewrite Hstdin, Hyes, bind_consoleLog. cbn [world log].
    rewrite <- !app_assoc. reflexivity.
  - intros e w1 Hspawn.
    unfold tryCatch, sessionSteps. rewrite bind_spawn, Hspawn.
    unfold showError, bind, consoleError, emit, processExit. cbn [world log].
    now rewrite <- app_assoc.
Qed.

(** Property X19.  [new] without a label, and [new] with the empty label, take the
    name that [humanId] gives, announce it, and go on as [new] does with
    that name as its label; a generated name that does not match the
    label pattern is rejected like a typed one. *)
Theorem new_without_label_uses_generated_name configDir (w : W) generated w1 :
  host_human_id w = (generated, w1) ->
  generated <> "" ->
  createWorktree None configDir (start w)
  = createWorktree (Some generated) configDir
      (mkPState w1 [Out ("Auto-generated label: " +++ generated)])
  /\ createWorktree (Some "") configDir (start w) = createWorktree None configDir (start w)
  /\ (labelOk generated = false ->
      createWorktree None configDir (start w)
      = (Exited 1,
         mkPState w1 [Out ("Auto-generated label: " +++ generated);
                      Err ("Error: " +++ labelError)])).
Proof.
  intros Hid Hne.
  assert (Hgen : forall k : string -> M W unit,
             bind (@generateLabel W _) k (start w)
             = k generated (mkPState w1 [Out ("Auto-generated label: " +++ generated)])).
  { intros k. unfold generateLabel, humanId. rewrite bind_assoc.
    unfold bind at 1. cbn [world start log]. rewrite Hid.
    rewrite bind_assoc, bind_consoleLog, bind_ret. reflexivity. }
  split; [|split].
  - unfold createWorktree at 1, resolveLabel. rewrite Hgen.
    unfold createWorktree, resolveLabel.
    destruct generated; [contradiction|]. cbn [Js.truthy Js.isEmpty negb].
    now rewrite bind_ret.
  - reflexivity.
  - intros Hbad. unfold createWorktree, resolveLabel. rewrite Hgen, Hbad. reflexivity.
Qed.

(** Property X20.  [loadConfig] never throws.  It returns a configuration only
    when the file is there and evaluates to one with a layout, and then
    it has printed nothing and changed nothing; in every other case it
    prints one line on the error stream and ends the process with
    status 1: the file is missing, its evaluation threw, or what it
    evaluates to has no layout. *)
Theorem loadConfig_returns_a_layout_or_exits configDir (s : PState W) :
  match loadConfig configDir s with
  | (Returned config, s') =>
      s' = s
      /\ host_exists (configDir +++ "/config.ts") (world s) = true
      /\ host_eval_config (configDir +++ "/config.ts") (world s) = inr (Some config)
      /\ Js.isEmpty (layout config) = false
  | (Thrown _, _) => False
  | (Exited code, s') =>
      code = 1
      /\ world s' = world s
      /\ exists message,
           log s' = log s ++ [Err ("Error: " +++ message)]
           /\ ((host_exists (configDir +++ "/config.ts") (world s) = false
                /\ message = "Config file not found at " +++ configDir +++ "/config.ts"
                             +++ ". Run 'wt init' first.")
               \/ (exists e,
                      host_eval_config (configDir +++ "/config.ts") (world s) = inl e
                      /\ message = "Failed to load config from " +++ configDir
                                   +++ "/config.ts" +++ ": " +++ e)
               \/ ((host_eval_config (configDir +++ "/config.ts") (world s) = inr None
                    \/ exists config,
                         host_eval_config (configDir +++ "/config.ts") (world s)
                         = inr (Some config)
                         /\ Js.isEmpty (layout config) = true)
                   /\ message = "Invalid config: missing 'layout' property in "
                                +++ configDir +++ "/config.ts"))
  end.
Proof.
  unfold loadConfig. rewrite bind_existsSync.
  destruct (host_exists (configDir +++ "/config.ts") (world s)) eqn:Hfile; cbn [negb].
  - rewrite bind_failIf_false. unfold tryCatch. rewrite bind_evalConfigFile.
    destruct (host_eval_config (configDir +++ "/config.ts") (world s))
      as [e|[config|]] eqn:Heval.
    + cbn. repeat split. eexists. split; [reflexivity|]. right. left.
      exists e. split; [reflexivity|]. now rewrite !append_assoc.
    + destruct (Js.isEmpty (layout config)) eqn:Hlayout.
      * cbn. repeat split. eexists. split; [reflexivity|]. right. right.
        split; [|reflexivity]. right. now exists config.
      * cbn. destruct s. repeat split; auto.
    + cbn. repeat split. eexists. split; [reflexivity|]. right. right.
      split; [|reflexivity]. now left.
  - cbn. repeat split. eexists. split; [reflexivity|]. left.
    split; [reflexivity|]. now rewrite !append_assoc.
Qed.

End SessionExtras.

(* ================================================================== *)
(** * The probes of the port scans *)
(* ================================================================== *)

Section ProbeExtras.
Context {W : Type} `{Host W}.




Lemma scanPairs_step n port (w : W) l :
  Wtt.scanPairs (S n) port (mkPState w l)
  = if pairFree w port
    then (Returned (Wtt.mkPortPair (port + 1) port),
          mkPState w (l ++ [probed w port; probed w (port + 1)]))
    else Wtt.scanPairs n (port + 1)
           (mkPState w (l ++ [probed w port; probed w (port + 1)])).
Proof.
  cbn [Wtt.scanPairs]. unfold bind, probed, pairFree. rewrite isPortAvailable_run.
  cbn [world log]. rewrite isPortAvailable_run. cbn [world log].
  rewrite <- app_assoc. cbn [app].
  now destruct (negb (host_port_in_use (port + 1) w) && negb (host_port_in_use port w)).
Qed.

Lemma scanPairs_log n : forall port (w : W) l,
  exists count,
    (count <= n)%nat
    /\ snd (Wtt.scanPairs n port (mkPState w l))
       = mkPState w
           (l ++ flat_map (fun p => [probed w p; probed w (p + 1)]) (consecutive count port))
    /\ match fst (Wtt.scanPairs n port (mkPState w l)) with
       | Returned r =>
           (0 < count)%nat
           /\ r = Wtt.mkPortPair (port + Z.of_nat count) (port + Z.of_nat count - 1)
           /\ pairFree w (port + Z.of_nat count - 1) = true
       | Thrown e =>
           count = n /\ e = "Error: No adjacent ports available in range 3002-4000"
       | Exited _ => False
       end.
Proof.
  induction n as [|n IH]; intros port w l.
  - exists O. cbn. rewrite app_nil_r. auto.
  - rewrite scanPairs_step.
    destruct (pairFree w port) eqn:Hpair.
    + exists 1%nat. split; [lia|]. cbn. split; [reflexivity|].
      split; [lia|]. split; [f_equal; lia|].
      now replace (port + 1 - 1) with port by lia.
    + destruct (IH (port + 1) w (l ++ [probed w port; probed w (port + 1)]))
        as (count & Hle & Hlog & Hout).
      exists (S count). split; [lia|]. split.
      * rewrite Hlog. cbn [consecutive flat_map]. rewrite <- !app_assoc. reflexivity.
      * revert Hout.
        destruct (fst (Wtt.scanPairs n (port + 1)
                         (mkPState w (l ++ [probed w port; probed w (port + 1)]))));
          intros Hout; [|destruct Hout; split; congruence|exact Hout].
        destruct Hout as (_ & -> & Hfree). split; [lia|]. split; [f_equal; lia|].
        now replace (port + Z.of_nat (S count) - 1) with (port + 1 + Z.of_nat count - 1)
          by lia.
Qed.


End ProbeExtras.

(* ================================================================== *)
(** * The earlier revision: the ports of the environment file *)
(* ================================================================== *)

Section EarlierExtras.
Context {W : Type} `{Host W}.

#[local] Arguments banners : simpl never.
#[local] Arguments reads : simpl never.
#[local] Arguments commands : simpl never.
#[local] Arguments shellError : simpl never.

(** The log of a pair scan holds probes only. *)
Lemma pair_probes_only (w : W) ports :
  ProbesOnly (flat_map (fun p => [probed w p; probed w (p + 1)]) ports).
Proof.
  induction ports as [|p ports IH]; [constructor|].
  cbn [flat_map app]. constructor; [unfold probed; eauto|].
  constructor; [unfold probed; eauto | exact IH].
Qed.

(** Every run of the [try] statement that finds the ports. *)
Lemma writePorts_run envPath (w : W) l :
  exists evs,
    ProbesOnly evs
    /\ ((exists p w',
            3002 <= p < 4000 /\ pairFree w p = true
            /\ host_write envPath (Wtt.envContentOf (Wtt.mkPortPair (p + 1) p)) w = inr w'
            /\ Wtt.writePorts envPath (mkPState w l)
               = (Returned tt,
                  mkPState w'
                    (l ++ evs
                       ++ [Wrote envPath (Wtt.envContentOf (Wtt.mkPortPair (p + 1) p)) true;
                           Out ("✓ Created .env.local with ports " +++ Js.showZ (p + 1)
                                +++ " and " +++ Js.showZ p)])))
        \/ (exists p e,
               3002 <= p < 4000 /\ pairFree w p = true
               /\ host_write envPath (Wtt.envContentOf (Wtt.mkPortPair (p + 1) p)) w = inl e
               /\ Wtt.writePorts envPath (mkPState w l)
                  = (Exited 1,
                     mkPState w
                       (l ++ evs
                          ++ [Wrote envPath (Wtt.envContentOf (Wtt.mkPortPair (p + 1) p))
                                false;
                              Err ("Error: " +++ "Failed to find available ports: " +++ e)])))
        \/ ((forall p, 3002 <= p < 4000 -> pairFree w p = false)
            /\ Wtt.writePorts envPath (mkPState w l)
               = (Exited 1,
                  mkPState w
                    (l ++ evs
                       ++ [Err ("Error: " +++ "Failed to find available ports: "
                                +++ "Error: No adjacent ports available in range 3002-4000")]))
           )).
Proof.
  destruct (scanPairs_log (Z.to_nat (4000 - 3002)) 3002 w l) as (count & Hle & Hlog & Hout).
  exists (flat_map (fun p => [probed w p; probed w (p + 1)]) (consecutive count 3002)).
  split; [apply pair_probes_only|].
  unfold Wtt.writePorts, tryCatch, Wtt.findAvailablePorts.
  destruct (Wtt.scanPairs (Z.to_nat (4000 - 3002)) 3002 (mkPState w l))
    as [[ports|e|c] s'] eqn:Hscan; cbn [fst snd] in Hlog, Hout; subst s';
    rewrite (bind_run _ _ _ _ _ Hscan).
  - destruct Hout as (Hpos & -> & Hfree).
    assert (Hrange : 3002 <= 3002 + Z.of_nat count - 1 < 4000).
    { change (Z.to_nat (4000 - 3002)) with 998%nat in Hle. lia. }
    set (p := 3002 + Z.of_nat count - 1) in *.
    replace (3002 + Z.of_nat count) with (p + 1) by (unfold p; lia).
    unfold bind, writeFileSync. cbn [world log Wtt.adminPort Wtt.webhookPort].
    destruct (host_write envPath (Wtt.envContentOf (Wtt.mkPortPair (p + 1) p)) w)
      as [e|w'] eqn:Hwrite.
    + right. left. exists p, e. repeat split; try tauto.
      unfold showError, bind, consoleError, emit, processExit. cbn [world log].
      now rewrite <- ?app_assoc.
    + left. exists p, w'. repeat split; try tauto.
      unfold consoleLog, emit. cbn [world log]. now rewrite <- ?app_assoc.
  - destruct Hout as [-> ->]. right. right. split.
    + intros p Hp.
      pose proof (scanPairs_thrown _ _ _ _ _ Hscan p) as Hbusy. apply Hbusy.
      cbn [world]. change (Z.of_nat (Z.to_nat (4000 - 3002))) with 998. lia.
    + unfold showError, bind, consoleError, emit, processExit. cbn [world log].
      now rewrite <- ?app_assoc.
  - contradiction.
Qed.

(** Property X23.  The port step of the earlier revision never throws.  When it
    returns it has written one file, the environment file, and its two
    lines give a free pair of adjacent ports: the admin port is the
    webhook port plus one.  Otherwise it has written nothing and the
    process ends with status 1 after a report that starts with
    [Failed to find available ports], also when the only thing that
    failed is the writing of the file. *)
Theorem writePorts_records_adjacent_ports envPath (w : W) :
  match outcomeOf (Wtt.writePorts envPath (start w)) with
  | Returned _ =>
      exists p,
        3002 <= p < 4000 /\ pairFree w p = true
        /\ writes (logOf (Wtt.writePorts envPath (start w)))
           = [(envPath,
               "WTT_ADMIN_PORT=" +++ Js.showZ (p + 1) +++ Js.nl
               +++ "WTT_WEBHOOK_PORT=" +++ Js.showZ p +++ Js.nl)]
  | Thrown _ => False
  | Exited code =>
      code = 1
      /\ writes (logOf (Wtt.writePorts envPath (start w))) = []
      /\ exists before message,
           logOf (Wtt.writePorts envPath (start w))
           = before ++ [Err ("Error: Failed to find available ports: " +++ message)]
  end.
Proof.
  destruct (writePorts_run envPath w []) as (evs & Hprobes & Hrun).
  destruct (probes_only_views _ Hprobes) as (_ & _ & Hw & _ & _).
  unfold start.
  destruct Hrun as [(p & w' & Hp & Hfree & _ & ->)|[(p & e & Hp & Hfree & _ & ->)
                                                   |(_ & ->)]];
    cbn [outcomeOf logOf fst snd log app].
  - exists p. split; [exact Hp|]. split; [exact Hfree|].
    now rewrite writes_app, Hw.
  - split; [reflexivity|]. split; [now rewrite writes_app, Hw|].
    eexists (evs ++ [_]), e. now rewrite <- app_assoc.
  - split; [reflexivity|]. split; [now rewrite writes_app, Hw|].
    now eexists evs, _.
Qed.

(** Property X24.  [new] of the earlier revision on an existing worktree when no
    two adjacent ports are free: the process ends with status 1 after
    the report of the port step; no command has run, nothing was read or
    written, and no session was started. *)
Theorem earlier_new_needs_two_adjacent_ports label (w : W) :
  labelOk label = true ->
  host_exists (Wtt.worktreePathOf label) w = true ->
  (forall p, 3002 <= p < 4000 -> pairFree w p = false) ->
  outcomeOf (Wtt.createWorktree (Some label) (start w)) = Exited 1
  /\ commands (logOf (Wtt.createWorktree (Some label) (start w))) = []
  /\ reads (logOf (Wtt.createWorktree (Some label) (start w))) = []
  /\ writes (logOf (Wtt.createWorktree (Some label) (start w))) = []
  /\ spawns (logOf (Wtt.createWorktree (Some label) (start w))) = []
  /\ exists before,
       logOf (Wtt.createWorktree (Some label) (start w))
       = before
         ++ [Err ("Error: Failed to find available ports: "
                  +++ "Error: No adjacent ports available in range 3002-4000")].
Proof.
  intros Hok Hfound Hbusy.
  remember (Wtt.createWorktree (Some label) (start w)) as run eqn:Hrun.
  unfold Wtt.createWorktree, resolveLabel in Hrun. rewrite (labelOk_truthy _ Hok) in Hrun.
  rewrite bind_ret, Hok in Hrun. cbn [negb] in Hrun.
  rewrite bind_failIf_false, bind_existsSync in Hrun.
  cbn [world start] in Hrun. rewrite Hfound in Hrun.
  rewrite bind_assoc, !bind_consoleLog in Hrun. cbn [world log start app] in Hrun.
  match type of Hrun with
  | context [bind (Wtt.writePorts ?p) ?k (mkPState w ?l)] =>
      destruct (writePorts_run p w l) as (evs & Hprobes & Hports)
  end.
  destruct (probes_only_views _ Hprobes) as (Hc & Hr & Hw & Hs & _).
  destruct Hports as [(p & _ & Hp & Hfree & _)|[(p & _ & Hp & Hfree & _)|(_ & Hports)]].
  - rewrite (Hbusy p Hp) in Hfree. discriminate Hfree.
  - rewrite (Hbusy p Hp) in Hfree. discriminate Hfree.
  - rewrite (bind_run _ _ _ _ _ Hports) in Hrun. subst run.
    cbn [outcomeOf logOf fst snd log].
    split; [reflexivity|].
    change [Out ("Worktree already exists at " +++ Wtt.worktreePathOf label);
            Out "Opening Claude Code in existing worktree...";
            Out "Finding available ports..."]
      with ([Out ("Worktree already exists at " +++ Wtt.worktreePathOf label)]
            ++ [Out "Opening Claude Code in existing worktree..."]
            ++ [Out "Finding available ports..."]).
    rewrite !commands_app, !reads_app, !writes_app, !spawns_app, Hc, Hr, Hw, Hs.
    repeat split. eexists. rewrite !app_assoc. reflexivity.
Qed.

End EarlierExtras.

(* ================================================================== *)
(** * Without a configuration file *)
(* ================================================================== *)

Section ConfigurationExtras.
Context {W : Type} `{Host W}.

(** Property X25.  Without a configuration file, [open] and [new] on an existing
    worktree end with status 1 after telling the operator to run
    [wt init]: no command is run and no session is started. *)
Theorem missing_configuration_stops_open_and_new label configDir (w : W) :
  labelOk label = true ->
  host_exists (worktreePathOf (host_cwd w) configDir label) w = true ->
  host_exists (configDir +++ "/config.ts") w = false ->
  openAction label configDir (start w)
  = (Exited 1,
     mkPState w
       [Err ("Error: Config file not found at " +++ configDir +++ "/config.ts"
             +++ ". Run 'wt init' first.")])
  /\ newAction (Some label) configDir (start w)
     = (Exited 1,
        mkPState w
          [Out ("Worktree already exists at "
                +++ worktreePathOf (host_cwd w) configDir label);
           Out "Opening Claude Code in existing worktree...";
           Err ("Error: Config file not found at " +++ configDir +++ "/config.ts"
                +++ ". Run 'wt init' first.")]).
Proof.
  intros Hok Hfound Hmissing.
  assert (Hload : forall l,
             loadConfig configDir (mkPState w l)
             = (Exited 1,
                mkPState w
                  (l ++ [Err ("Error: Config file not found at " +++ configDir
                              +++ "/config.ts" +++ ". Run 'wt init' first.")]))).
  { intros l. unfold loadConfig. rewrite bind_existsSync. cbn [world].
    rewrite Hmissing. cbn. now rewrite !append_assoc. }
  split.
  - rewrite (proj1 (valid_label_passes label configDir (start w) Hok)).
    unfold openWorktree. rewrite bind_cwd, bind_existsSync. cbn [world start].
    rewrite Hfound. cbn [negb]. rewrite bind_failIf_false.
    now rewrite (bind_run _ _ _ _ _ (Hload [])).
  - unfold newAction. rewrite (createWorktree_existing label configDir w Hok Hfound).
    now rewrite (bind_run _ _ _ _ _ (Hload _)).
Qed.

End ConfigurationExtras.

Lemma missing_configuration_witness :
  labelOk "feat" = true
  /\ outcomeOf (openAction "feat" ".wt" (start Scenario.logFails)) = Exited 1
  /\ spawns (logOf (newAction (Some "feat") ".wt" (start Scenario.logFails))) = [].
Proof.
  assert (Hok : labelOk "feat" = true) by reflexivity.
  assert (Hfound : host_exists (worktreePathOf (host_cwd Scenario.logFails) ".wt" "feat")
                     Scenario.logFails = true) by reflexivity.
  assert (Hmissing : host_exists (".wt" +++ "/config.ts") Scenario.logFails = false)
    by reflexivity.
  pose proof (missing_configuration_stops_open_and_new
                "feat" ".wt" Scenario.logFails Hok Hfound Hmissing) as [Hopen Hnew].
  split; [exact Hok|]. split.
  - now rewrite Hopen.
  - now rewrite Hnew.
Defined.

(* ================================================================== *)
(** * More runs on the simulated host *)
(* ================================================================== *)

Lemma unmerged_check_witness :
  host_exists (worktreePathOf (host_cwd Scenario.inputEnded) ".wt" "feat")
    Scenario.inputEnded = true
  /\ host_shell (gitLogOneline "feat") Scenario.inputEnded
     = (0, Scenario.unmergedLog, Scenario.inputEnded)
  /\ host_stdin Scenario.inputEnded = (None, Scenario.inputEnded)
  /\ cleanupWorktree "feat" ".wt" (start Scenario.inputEnded)
     = (Exited 0,
        mkPState Scenario.inputEnded
          [Out ("Cleaning up worktree: "
                +++ worktreePathOf (host_cwd Scenario.inputEnded) ".wt" "feat");
           Ran (gitLogOneline "feat") 0 Scenario.unmergedLog;
           Out (unmergedNotice "feat");
           Out (promptOf cherryPickQuestion)]).
Proof.
  assert (Hfound : host_exists (worktreePathOf (host_cwd Scenario.inputEnded) ".wt" "feat")
                     Scenario.inputEnded = true) by reflexivity.
  assert (Hlog : host_shell (gitLogOneline "feat") Scenario.inputEnded
                 = (0, Scenario.unmergedLog, Scenario.inputEnded)) by reflexivity.
  assert (Hstdin : host_stdin Scenario.inputEnded = (None, Scenario.inputEnded))
    by reflexivity.
  assert (Hunmerged : (0 =? 0) && negb (Js.isEmpty (Js.trim Scenario.unmergedLog)) = true)
    by reflexivity.
  split; [exact Hfound|]. split; [exact Hlog|]. split; [exact Hstdin|].
  exact (proj1 (proj2 (proj2 (cleanup_asks_only_about_unmerged_commits
                                "feat" ".wt" Scenario.inputEnded 0 Scenario.unmergedLog
                                Scenario.inputEnded None Scenario.inputEnded
                                Hfound Hlog Hstdin)))
           Hunmerged eq_refl).
Defined.

Lemma missing_worktree_witness :
  labelOk "feat" = true
  /\ outcomeOf (cleanupAction (Some "feat") ".wt" (start Scenario.fresh)) = Returned tt
  /\ outcomeOf (openAction "feat" ".wt" (start Scenario.fresh)) = Exited 1.
Proof.
  assert (Hok : labelOk "feat" = true) by reflexivity.
  assert (Hmissing : host_exists (worktreePathOf (host_cwd Scenario.fresh) ".wt" "feat")
                       Scenario.fresh = false) by reflexivity.
  pose proof (missing_worktree_cleanup_returns_open_exits
                "feat" ".wt" Scenario.fresh Hok Hmissing) as [Hcleanup Hopen].
  split; [exact Hok|]. split.
  - now rewrite Hcleanup.
  - now rewrite Hopen.
Defined.

Lemma git_failure_witness :
  1 <> 0
  /\ cleanupAllWorktrees ".wt" (start Scenario.notARepository)
     = (Returned tt,
        mkPState Scenario.notARepository
          [Ran gitWorktreeList 1 ""; Out "No worktrees found to clean up."]).
Proof.
  assert (Hsh : host_shell gitWorktreeList Scenario.notARepository
                = (1, "", Scenario.notARepository)) by reflexivity.
  assert (Hcode : 1 <> 0) by discriminate.
  split; [exact Hcode|].
  exact (proj2 (cleanupAll_takes_git_failure_for_no_worktrees
                  ".wt" Scenario.notARepository 1 "" Scenario.notARepository Hsh Hcode)).
Defined.

Lemma open_witness :
  host_shell ["zellij"; "list-sessions"; "-ns"] Scenario.noSessions
  = (1, "", Scenario.noSessions)
  /\ spawns (logOf (openWorktree "feat" ".wt" (start Scenario.noSessions)))
     = [(zellijNewSession ".wt/./layout.kdl" "wt-feat", Scenario.feat)].
Proof.
  assert (Hfound : host_exists (worktreePathOf (host_cwd Scenario.noSessions) ".wt" "feat")
                     Scenario.noSessions = true) by reflexivity.
  assert (Hconfig : ConfigLoads Scenario.noSessions ".wt" (mkConfig "./layout.kdl" None))
    by (repeat split).
  assert (Hlist : host_shell ["zellij"; "list-sessions"; "-ns"] Scenario.noSessions
                  = (1, "", Scenario.noSessions)) by reflexivity.
  split; [exact Hlist|].
  exact (proj1 (proj2 (openWorktree_attaches_or_creates
                         "feat" ".wt" Scenario.noSessions (mkConfig "./layout.kdl" None)
                         1 "" Scenario.noSessions Hfound Hconfig Hlist))).
Defined.

Lemma open_substring_witness :
  In ("" +++ ("wt-" +++ "feat") +++ "ure") (Js.split Js.LF (Js.trim ("wt-feature" +++ Js.nl)))
  /\ spawns (logOf (openWorktree "feat" ".wt" (start Scenario.otherSession)))
     = [(["zellij"; "attach"; "wt-feat"], Scenario.feat)].
Proof.
  assert (Hfound : host_exists (worktreePathOf (host_cwd Scenario.otherSession) ".wt" "feat")
                     Scenario.otherSession = true) by reflexivity.
  assert (Hconfig : ConfigLoads Scenario.otherSession ".wt" (mkConfig "./layout.kdl" None))
    by (repeat split).
  assert (Hlist : host_shell ["zellij"; "list-sessions"; "-ns"] Scenario.otherSession
                  = (0, "wt-feature" +++ Js.nl, Scenario.otherSession)) by reflexivity.
  assert (Hin : In ("" +++ ("wt-" +++ "feat") +++ "ure")
                  (Js.split Js.LF (Js.trim ("wt-feature" +++ Js.nl))))
    by (vm_compute; auto).
  split; [exact Hin|].
  exact (openWorktree_matches_session_names_by_substring
           "feat" ".wt" Scenario.otherSession (mkConfig "./layout.kdl" None)
           ("wt-feature" +++ Js.nl) Scenario.otherSession "" "ure"
           Hfound Hconfig Hlist Hin).
Defined.

Lemma creation_fails_fast_witness :
  labelOk "feat" = true
  /\ exists trace failure rest,
       commands (logOf (createWorktree (Some "feat") ".wt" (start Scenario.copyFails)))
       = trace ++ rest
       /\ FailFast (creationPlan "feat" Scenario.feat) trace failure.
Proof.
  assert (Hok : labelOk "feat" = true) by reflexivity.
  assert (Hmissing : host_exists (worktreePathOf (host_cwd Scenario.copyFails) ".wt" "feat")
                       Scenario.copyFails = false) by reflexivity.
  split; [exact Hok|].
  destruct (createWorktree_creation_is_fail_fast "feat" ".wt" Scenario.copyFails Hok Hmissing)
    as (trace & failure & rest & Hcommands & Hff & _).
  exists trace, failure, rest. split; [exact Hcommands | exact Hff].
Defined.

Example copy_failure_stops_new :
  commands (logOf (createWorktree (Some "feat") ".wt" (start Scenario.copyFails)))
  = [(gitWorktreeAdd Scenario.feat "feat", 0); (copyLocal Scenario.feat, 1)]
  /\ outcomeOf (createWorktree (Some "feat") ".wt" (start Scenario.copyFails)) = Exited 1
  /\ spawns (logOf (createWorktree (Some "feat") ".wt" (start Scenario.copyFails))) = [].
Proof. vm_compute. repeat split. Qed.

Lemma environment_error_witness :
  outcomeOf (callEnvironment Scenario.portScript (start Scenario.allPortsBusy))
  = Thrown "Error: No port available in range 3002-4000"
  /\ outcomeOf (createWorktree (Some "feat") ".wt" (start Scenario.allPortsBusy))
     = Thrown "Error: No port available in range 3002-4000".
Proof.
  assert (Hok : labelOk "feat" = true) by reflexivity.
  assert (Hfound : host_exists (worktreePathOf (host_cwd Scenario.allPortsBusy) ".wt" "feat")
                     Scenario.allPortsBusy = true) by reflexivity.
  assert (Hconfig : ConfigLoads Scenario.allPortsBusy ".wt"
                      (mkConfig "./layout.kdl" (Some Scenario.portScript)))
    by (repeat split).
  assert (Hthrown : outcomeOf (callEnvironment Scenario.portScript
                                 (start Scenario.allPortsBusy))
                    = Thrown "Error: No port available in range 3002-4000")
    by (vm_compute; reflexivity).
  split; [exact Hthrown|].
  exact (proj1 (environment_error_is_not_caught
                  "feat" ".wt" Scenario.allPortsBusy
                  (mkConfig "./layout.kdl" (Some Scenario.portScript))
                  Scenario.portScript _ Hok Hfound Hconfig eq_refl Hthrown)).
Defined.

Lemma generated_name_witness :
  "brave-otter" <> ""
  /\ createWorktree None ".wt" (start Scenario.unnamed)
     = createWorktree (Some "brave-otter") ".wt"
         (mkPState (snd (host_human_id Scenario.unnamed))
            [Out ("Auto-generated label: " +++ "brave-otter")]).
Proof.
  assert (Hid : host_human_id Scenario.unnamed
                = ("brave-otter", snd (host_human_id Scenario.unnamed))) by reflexivity.
  assert (Hne : "brave-otter" <> "") by discriminate.
  split; [exact Hne|].
  exact (proj1 (new_without_label_uses_generated_name
                  ".wt" Scenario.unnamed "brave-otter" _ Hid Hne)).
Defined.

Lemma earlier_new_witness :
  labelOk "feat" = true
  /\ outcomeOf (Wtt.createWorktree (Some "feat") (start Scenario.earlierNoPort)) = Exited 1
  /\ writes (logOf (Wtt.createWorktree (Some "feat") (start Scenario.earlierNoPort))) = [].
Proof.
  assert (Hok : labelOk "feat" = true) by reflexivity.
  assert (Hfound : host_exists (Wtt.worktreePathOf "feat") Scenario.earlierNoPort = true)
    by reflexivity.
  assert (Hbusy : forall p, 3002 <= p < 4000 -> pairFree Scenario.earlierNoPort p = false)
    by (intros p _; reflexivity).
  pose proof (earlier_new_needs_two_adjacent_ports "feat" Scenario.earlierNoPort
                Hok Hfound Hbusy) as (Hexit & _ & _ & Hwrites & _).
  split; [exact Hok|]. split; [exact Hexit | exact Hwrites].
Defined.

(** With 3006 and 3007 the only free ports, the earlier [new] writes
    them to the environment file of the worktree and goes on to the
    session. *)
Example earlier_new_writes_the_pair :
  writes (logOf (Wtt.createWorktree (Some "feat") (start Scenario.earlierPairFree)))
  = [("/workspaces/worktree-feat/.env.local",
      "WTT_ADMIN_PORT=3007" +++ Js.nl +++ "WTT_WEBHOOK_PORT=3006" +++ Js.nl)]
  /\ spawns (logOf (Wtt.createWorktree (Some "feat") (start Scenario.earlierPairFree)))
     = [(["zellij"; "-n"; ".zellij/worktree.kdl"; "-s"; "wtt-feat"],
         "/workspaces/worktree-feat")].
Proof. vm_compute. split; reflexivity. Qed.

Lemma declined_cherry_pick_witness :
  reads (logOf (cleanupWorktree "feat" ".wt" (start Scenario.declined))) = [Scenario.no]
  /\ affirmative Scenario.no = false
  /\ exists trace failure,
       commands (logOf (cleanupWorktree "feat" ".wt" (start Scenario.declined)))
       = (gitLogOneline "feat", 0) :: trace
       /\ FailFast (removalPlan "feat" Scenario.feat) trace failure.
Proof.
  assert (Hreads : reads (logOf (cleanupWorktree "feat" ".wt" (start Scenario.declined)))
                   = [Scenario.no]) by (vm_compute; reflexivity).
  assert (Hno : affirmative Scenario.no = false) by reflexivity.
  split; [exact Hreads|]. split; [exact Hno|].
  destruct (declined_cherry_pick_still_deletes_branch
              "feat" ".wt" Scenario.declined Scenario.no Hreads Hno)
    as (trace & failure & Hcommands & Hff & _).
  exists trace, failure. split; [exact Hcommands | exact Hff].
Defined.

(** The unmerged commits are not on main, and the branch is deleted
    all the same. *)
Example declined_cherry_pick_loses_commits :
  commands (logOf (cleanupWorktree "feat" ".wt" (start Scenario.declined)))
  = [(gitLogOneline "feat", 0);
     (gitWorktreeRemove Scenario.feat, 0);
     (gitBranchDelete "feat", 0);
     (zellijDeleteSession "feat", 0)]
  /\ Sim.main (worldOf (cleanupWorktree "feat" ".wt" (start Scenario.declined))) = ["M0"].
Proof. vm_compute. split; reflexivity. Qed.

Lemma cleanup_outcome_witness :
  (outcomeOf (cleanupWorktree "feat" ".wt" (start Scenario.clean)) = Returned tt
   /\ exists front,
        commands (logOf (cleanupWorktree "feat" ".wt" (start Scenario.clean)))
        = front ++ map succeeded (removalPlan "feat" Scenario.feat))
  /\ (outcomeOf (cleanupWorktree "feat" ".wt" (start Scenario.inputEnded)) = Exited 0
      /\ commands (logOf (cleanupWorktree "feat" ".wt" (start Scenario.inputEnded)))
         = [(gitLogOneline "feat", 0)]).
Proof.
  assert (Hfound : host_exists (worktreePathOf (host_cwd Scenario.clean) ".wt" "feat")
                     Scenario.clean = true) by reflexivity.
  assert (Hreturned : outcomeOf (cleanupWorktree "feat" ".wt" (start Scenario.clean))
                      = Returned tt) by (vm_compute; reflexivity).
  assert (Hended : outcomeOf (cleanupWorktree "feat" ".wt" (start Scenario.inputEnded))
                   = Exited 0) by (vm_compute; reflexivity).
  split; split.
  - exact Hreturned.
  - exact (proj1 (proj1 (proj2 (cleanupWorktree_returns_or_exits
                                   "feat" ".wt" Scenario.clean))
                    Hfound)
             Hreturned).
  - exact Hended.
  - exact (proj1 (proj2 (proj2 (proj2 (proj2 (cleanupWorktree_returns_or_exits
                                                "feat" ".wt" Scenario.inputEnded)))
                           Hended))).
Defined.

Lemma session_consent_witness :
  host_stdin Scenario.cleanupAfterSession
  = (Some Scenario.yes, snd (host_stdin Scenario.cleanupAfterSession))
  /\ affirmative Scenario.yes = true
  /\ sessionSteps "feat" ".wt" Scenario.feat ".wt/./layout.kdl"
       (start Scenario.cleanupAfterSession)
     = cleanupWorktree "feat" ".wt"
         (mkPState (snd (host_stdin Scenario.cleanupAfterSession))
            [Spawned (zellijNewSession ".wt/./layout.kdl" ("wt-" +++ "feat")) Scenario.feat
               (inr 0);
             Out (sessionMessage 0);
             Out "";
             Out (("Do you want to clean up the worktree '" +++ "feat" +++ "'?")
                  +++ " (y/N): ");
             Read Scenario.yes;
             Out (Js.nl +++ "--- Starting automatic cleanup ---")]).
Proof.
  assert (Hspawn : host_spawn (zellijNewSession ".wt/./layout.kdl" ("wt-" +++ "feat"))
                     Scenario.feat (world (start Scenario.cleanupAfterSession))
                   = (inr 0, Scenario.cleanupAfterSession)) by reflexivity.
  assert (Hstdin : host_stdin Scenario.cleanupAfterSession
                   = (Some Scenario.yes, snd (host_stdin Scenario.cleanupAfterSession)))
    by reflexivity.
  assert (Hyes : affirmative Scenario.yes = true) by reflexivity.
  split; [exact Hstdin|]. split; [exact Hyes|].
  exact (proj1 (session_end_offers_cleanup "feat" ".wt" Scenario.feat ".wt/./layout.kdl"
                  (start Scenario.cleanupAfterSession))
           0 Scenario.cleanupAfterSession Scenario.yes _ Hspawn Hstdin Hyes).
Defined.
